(** * Serverless Pong: the session state machine and request router

    A shallow embedding of [src/pong/src/pong.js] (the server half of the
    file: the Redis session client, [handleRequest] and the six action
    handlers), with the properties of the specification stated over it.

    Conventions of the embedding.

    - A JavaScript object is a finite map from property names to JSON
      values ([gmap string value]).  A property that is absent reads as
      [undefined], so a property read has type [option value] with [None]
      for [undefined].  The handlers observe a session only through
      property reads and through [JSON.stringify], which drops properties
      whose value is [undefined]; assigning [undefined] to a property is
      therefore modelled as removing it ([set_prop]).
    - A finite JavaScript number is an exact rational ([VNum]); the two
      infinite numbers, which [JSON.parse] gives for a literal too large
      for a double (such as [1e400]), are [VInf].  [JSON.stringify] writes
      an infinite number as [null] ([json_value]), and so it does [NaN],
      which only the countdown arithmetic can produce ([json_of_number]).
      Rounding is outside the embedding, and negative zero is not told from
      zero, which it equals under [===] and which [JSON.stringify] writes
      for it.
    - Module level variables, the Redis store, the wall clock and the random
      generator are threaded through a [World].  The clock, the generator
      and the outcome of connection attempts are oracles indexed by a
      counter, so two reads of [Date.now()] in one handler may differ.
    - A handler is a computation [M A]: it takes a world and returns,
      throws (an [async] function whose promise is rejected), or stays
      pending (its promise is not settled: it awaits a connection that the
      Redis client keeps retrying). *)

From Stdlib Require Import ZArith QArith Qround String Bool Lia.
From stdpp Require Import base option gmap strings.

#[local] Set Warnings "-register-all".
#[local] Open Scope string_scope.

(** ** JSON values *)

Inductive value : Type :=
| VNull
| VBool (b : bool)
| VNum (q : Q)
| VStr (s : string)
| VArr (items : list value)
| VObj (fields : gmap string value)
| VInf (negative : bool).

(** The result of a property read or of any expression that may be
    [undefined]. *)
Abbreviation jsval := (option value).

(** [v.k] on a value that is neither [null] nor [undefined].  Only objects
    carry the property names the handlers read; on a boolean, number,
    string or array these names are found on no prototype. *)
Definition get_prop (v : value) (k : string) : jsval :=
  match v with
  | VObj o => o !! k
  | _ => None
  end.

(** [o.k = x]. *)
Definition set_prop (k : string) (x : jsval) (o : gmap string value)
  : gmap string value :=
  match x with
  | Some v => <[k := v]> o
  | None => delete k o
  end.

(** ToBoolean. *)
Definition truthy (x : jsval) : bool :=
  match x with
  | None => false
  | Some VNull => false
  | Some (VBool b) => b
  | Some (VNum q) => negb (Qeq_bool q 0)
  | Some (VStr s) => negb (String.eqb s EmptyString)
  | Some (VArr _) => true
  | Some (VObj _) => true
  | Some (VInf _) => true
  end.

(** [x !== undefined]. *)
Definition defined (x : jsval) : bool :=
  match x with
  | None => false
  | Some _ => true
  end.

(** [x === n] for a number literal [n]. *)
Definition strict_eq_num (x : jsval) (n : Q) : bool :=
  match x with
  | Some (VNum q) => Qeq_bool q n
  | _ => false
  end.

(** [x === b] for a boolean literal [b]. *)
Definition strict_eq_bool (x : jsval) (b : bool) : bool :=
  match x with
  | Some (VBool c) => Bool.eqb c b
  | _ => false
  end.

(** [m || dflt] on a string that may be [null] or [undefined]. *)
Definition or_default (m : option string) (dflt : string) : string :=
  match m with
  | Some s => if String.eqb s EmptyString then dflt else s
  | None => dflt
  end.

(** A number as [JSON.stringify] writes it; [None] is a number that is not
    finite. *)
Definition json_of_number (n : option Z) : value :=
  match n with
  | Some z => VNum (inject_Z z)
  | None => VNull
  end.

(** What [JSON.parse(JSON.stringify(v))] reads: the text of a value has
    [null] where the value has an infinite number, at any depth. *)
Fixpoint json_value (v : value) : value :=
  match v with
  | VInf _ => VNull
  | VArr items => VArr (map json_value items)
  | VObj fields => VObj (json_value <$> fields)
  | _ => v
  end.

(** [JSON.stringify(o)] for an object [o].  The text is kept as the object
    that [JSON.parse] reads from it. *)
Definition JSON_stringify (o : gmap string value) : gmap string value :=
  json_value <$> o.

(** [JSON.parse(text)] for a text held by the store, kept as an object.  It
    is the identity on what [JSON_stringify] gives; a world may hold any
    object under a key, and what is read from it is the object its text
    parses to. *)
Definition JSON_parse_stored (text : gmap string value) : gmap string value :=
  json_value <$> text.

(** The number of constructors of a value. *)
Fixpoint value_size (v : value) : nat :=
  match v with
  | VArr items => S (foldr (fun x n => value_size x + n) 0 items)
  | VObj fields => S (map_fold (fun _ x n => value_size x + n) 0 fields)
  | _ => 1
  end.

(** The result of arithmetic on numbers. *)
Inductive number : Type :=
| Finite (q : Q)
| Infinite (negative : bool)
| NaN.

Definition json_of_string (m : option string) : value :=
  match m with
  | Some s => VStr s
  | None => VNull
  end.

(** ** The parts of the JavaScript engine the handlers call *)

Class Engine := {
  (** [JSON.parse] on a text: [inl msg] is a [SyntaxError] with that
      message. *)
  JSON_parse_text : string -> string + value;
  (** String conversion of a number, array or object inside a template
      literal. *)
  ToString_other : value -> string;
  (** Numeric conversion of a string. *)
  StringToNumber : string -> number;
  (** The text returned by [getGameHTML], the browser client. *)
  getGameHTML : string
}.

(** ** Exceptions, worlds and the handler monad *)

Inductive exn : Type :=
| RedisUnavailableError (message : string)
| OtherError (name message : string).

Definition exn_message (e : exn) : string :=
  match e with
  | RedisUnavailableError m => m
  | OtherError _ m => m
  end.

(** [error instanceof RedisUnavailableError]. *)
Definition is_RedisUnavailableError (e : exn) : bool :=
  match e with
  | RedisUnavailableError _ => true
  | OtherError _ _ => false
  end.

(** [new RedisUnavailableError(message)]. *)
Definition new_RedisUnavailableError (message : option string) : exn :=
  RedisUnavailableError (or_default message "Redis connection unavailable").

(** Outcome of [redisClient.connect()] on the client that
    [redis.createClient(config)] builds.  It resolves once the store
    accepts the connection.  While the store is down the client emits
    ['error'] with the error of each attempt (a refusal, or the timeout of
    [connectTimeout: 1500]) and tries again: [config] names no
    [reconnectStrategy], so the client never gives up and the promise of
    [connect()] stays pending.  The promise is rejected only by an error
    that the client does not retry; the [catch] clause of [getRedisClient]
    is written for that case.  The [message] of an error may be missing. *)
Inductive connect_result : Type :=
| ConnectOk
| ConnectFail (message : option string)
| ConnectRetrying (message : option string).

(** The variable [isRedisConnected] of the source is written by the event
    handlers and read nowhere; it is not part of the world. *)
Record World : Type := mkWorld {
  clock : nat -> Z;                       (* successive values of Date.now() *)
  ticks : nat;
  random : nat -> string;                 (* Math.random().toString(36).substring(2, 15) *)
  draws : nat;
  connects : nat -> connect_result;       (* successive connection attempts *)
  attempts : nat;
  redisClient : bool;                     (* redisClient is not null *)
  redisUnavailable : bool;
  redisUnavailableMessage : option string;
  store : gmap string (gmap string value) (* Redis key to the parsed JSON text *)
}.

Definition with_ticks (n : nat) (w : World) : World :=
  mkWorld (clock w) n (random w) (draws w) (connects w) (attempts w)
    (redisClient w) (redisUnavailable w) (redisUnavailableMessage w) (store w).

Definition with_draws (n : nat) (w : World) : World :=
  mkWorld (clock w) (ticks w) (random w) n (connects w) (attempts w)
    (redisClient w) (redisUnavailable w) (redisUnavailableMessage w) (store w).

Definition with_store (st : gmap string (gmap string value)) (w : World) : World :=
  mkWorld (clock w) (ticks w) (random w) (draws w) (connects w) (attempts w)
    (redisClient w) (redisUnavailable w) (redisUnavailableMessage w) st.

(** The three module variables after a connection attempt. *)
Definition with_redis (client unavailable : bool) (message : option string)
  (w : World) : World :=
  mkWorld (clock w) (ticks w) (random w) (draws w) (connects w) (S (attempts w))
    client unavailable message (store w).

(** The listener of ['error'] registered by [getRedisClient]:
    [redisUnavailable = true;
     redisUnavailableMessage = err?.message || 'Unknown Redis error']. *)
Definition on_redis_error (message : option string) (w : World) : World :=
  mkWorld (clock w) (ticks w) (random w) (draws w) (connects w) (attempts w)
    (redisClient w) true (Some (or_default message "Unknown Redis error"))
    (store w).

(** The listener of ['connect']:
    [redisUnavailable = false; redisUnavailableMessage = null]. *)
Definition on_redis_connect (w : World) : World :=
  mkWorld (clock w) (ticks w) (random w) (draws w) (connects w) (attempts w)
    (redisClient w) false None (store w).

Inductive outcome (A : Type) : Type :=
| Returns (a : A)
| Throws (e : exn)
| Pending.
Arguments Returns {A} a.
Arguments Throws {A} e.
Arguments Pending {A}.

Definition M (A : Type) : Type := World -> outcome A * World.

Definition ret {A} (a : A) : M A := fun w => (Returns a, w).

Definition throw {A} (e : exn) : M A := fun w => (Throws e, w).

Definition bind {A B} (c : M A) (k : A -> M B) : M B :=
  fun w =>
    match c w with
    | (Returns a, w') => k a w'
    | (Throws e, w') => (Throws e, w')
    | (Pending, w') => (Pending, w')
    end.

(** [try { c } catch (error) { h error }]. *)
Definition try_catch {A} (c : M A) (h : exn -> M A) : M A :=
  fun w =>
    match c w with
    | (Returns a, w') => (Returns a, w')
    | (Throws e, w') => h e w'
    | (Pending, w') => (Pending, w')
    end.

Definition get_world : M World := fun w => (Returns w, w).

#[export] Instance M_ret : MRet M := @ret.
#[export] Instance M_bind : MBind M := fun A B k c => bind c k.

(** The world a computation leaves, and its result. *)
Definition world_after {A} (c : M A) (w : World) : World := snd (c w).

Definition result_of {A} (c : M A) (w : World) : outcome A := fst (c w).

(** [Date.now()]. *)
Definition Date_now : M Z :=
  fun w => (Returns (clock w (ticks w)), with_ticks (S (ticks w)) w).

(** [Math.random().toString(36).substring(2, 15)]. *)
Definition Math_random_base36 : M string :=
  fun w => (Returns (random w (draws w)), with_draws (S (draws w)) w).

Section Server.
Context {engine : Engine}.

(** String conversion inside a template literal. *)
Definition ToString (x : jsval) : string :=
  match x with
  | None => "undefined"
  | Some VNull => "null"
  | Some (VBool true) => "true"
  | Some (VBool false) => "false"
  | Some (VStr s) => s
  | Some v => ToString_other v
  end.

(** Numeric conversion of an operand of [-]. *)
Definition ToNumber (x : jsval) : number :=
  match x with
  | None => NaN
  | Some VNull => Finite 0
  | Some (VBool b) => Finite (if b then 1 else 0)
  | Some (VNum q) => Finite q
  | Some (VInf negative) => Infinite negative
  | Some (VStr s) => StringToNumber s
  | Some v => StringToNumber (ToString_other v)
  end.

(** [JSON.parse(text)]. *)
Definition JSON_parse (text : string) : M jsval :=
  match JSON_parse_text text with
  | inl msg => throw (OtherError "SyntaxError" msg)
  | inr v => mret (Some v)
  end.

(** [body.k] where [body] may be [null] or [undefined]: those throw a
    [TypeError] (the message is the one of V8). *)
Definition read_prop (body : jsval) (k : string) : M jsval :=
  match body with
  | None =>
      throw (OtherError "TypeError"
               ("Cannot read properties of undefined (reading '" ++ k ++ "')"))
  | Some VNull =>
      throw (OtherError "TypeError"
               ("Cannot read properties of null (reading '" ++ k ++ "')"))
  | Some v => mret (get_prop v k)
  end.

(** [body.k] at a point where an earlier read of [body.sessionId] has
    already succeeded, so that [body] is neither [null] nor [undefined]. *)
Definition prop (body : jsval) (k : string) : jsval :=
  match body with
  | Some v => get_prop v k
  | None => None
  end.

(** ** Redis client setup *)

(** [redisClient = redis.createClient(config)]. *)
Definition createClient (w : World) : World :=
  with_redis true (redisUnavailable w) (redisUnavailableMessage w) w.

(** [getRedisClient].  The listeners registered with [redisClient.on] run
    when the client emits an event.
    - When [connect()] resolves, the client has emitted ['connect'].
    - When [connect()] is rejected, the [catch] clause marks the client
      unavailable, drops it and throws.
    - While the store is down, the client emits ['error'] and retries: the
      listener marks the client unavailable, the client is kept, and the
      [await] does not return. *)
Definition getRedisClient : M unit :=
  fun w =>
    if redisUnavailable w then
      (Throws (new_RedisUnavailableError (redisUnavailableMessage w)), w)
    else if negb (redisClient w) then
      match connects w (attempts w) with
      | ConnectOk => (Returns tt, on_redis_connect (createClient w))
      | ConnectFail m =>
          let message := or_default m "Unable to connect to Redis" in
          (Throws (new_RedisUnavailableError (Some message)),
           with_redis false true (Some message) w)
      | ConnectRetrying m => (Pending, on_redis_error m (createClient w))
      end
    else (Returns tt, w).

(** A response body is a text, or [JSON.stringify] of an object literal;
    the latter is kept as the object. *)
Inductive payload : Type :=
| Text (text : string)
| Json (fields : gmap string value).

Record response : Type := mkResponse {
  statusCode : Z;
  contentType : string;           (* headers: { 'Content-Type': ... } *)
  body : payload
}.

Definition json_response (status : Z) (fields : gmap string value) : response :=
  mkResponse status "application/json" (Json fields).

Definition redisUnavailableResponse : M response :=
  w ← get_world;
  mret (json_response 503
          (<["success" := VBool false]>
           (<["error" := VStr "Redis connection unavailable"]>
            (<["detail" := json_of_string (redisUnavailableMessage w)]> ∅)))).

(** [ensureRedisAvailable]: [None] stands for [{ ok: true, client }] and
    [Some r] for [{ ok: false, response: r }]. *)
Definition ensureRedisAvailable : M (option response) :=
  try_catch
    (getRedisClient;; mret None)
    (fun err =>
       if is_RedisUnavailableError err then
         r ← redisUnavailableResponse; mret (Some r)
       else throw err).

(** ** Session helpers *)

Definition session_key (sessionId : jsval) : string :=
  "session:" ++ ToString sessionId.

(** The session stored for an identifier, as [getSession] reads it. *)
Definition stored (w : World) (sessionId : jsval) : option (gmap string value) :=
  JSON_parse_stored <$> (store w !! session_key sessionId).

(** [client.get(key)]: [None] is [null]. *)
Definition client_get (key : string) : M (option (gmap string value)) :=
  fun w => (Returns (store w !! key), w).

(** [getSession]: [None] is [null].  A stored text is never empty. *)
Definition getSession (sessionId : jsval) : M (option (gmap string value)) :=
  getRedisClient;;
  data ← client_get (session_key sessionId);
  mret (JSON_parse_stored <$> data).

(** Session TTL: 5 minutes (300 seconds). *)
Definition SESSION_TTL : Z := 300.

(** [client.setEx(key, seconds, text)].  The entry expires [seconds] after
    the write by the clock of the Redis server; expiry is left to the
    environment (see [reachable] below). *)
Definition client_setEx (key : string) (seconds : Z) (text : gmap string value)
  : M unit :=
  fun w => (Returns tt, with_store (<[key := text]> (store w)) w).

(** [setSession] stamps [lastUpdate] on the object it is given and stores
    the text of that object; the caller goes on to use the object, so the
    stamped object is returned. *)
Definition setSession (sessionId : jsval) (sessionData : gmap string value)
  : M (gmap string value) :=
  getRedisClient;;
  now ← Date_now;
  let sessionData := <["lastUpdate" := VNum (inject_Z now)]> sessionData in
  client_setEx (session_key sessionId) SESSION_TTL (JSON_stringify sessionData);;
  mret sessionData.

Definition client_del (key : string) : M unit :=
  fun w => (Returns tt, with_store (delete key (store w)) w).

Definition deleteSession (sessionId : jsval) : M unit :=
  getRedisClient;;
  client_del (session_key sessionId).

Definition generateSessionId : M string :=
  a ← Math_random_base36;
  b ← Math_random_base36;
  mret (a ++ b).

(** ** The action handlers *)

Definition session_not_found : response :=
  json_response 404
    (<["success" := VBool false]> (<["error" := VStr "Session not found"]> ∅)).

Definition success_response : response :=
  json_response 200 (<["success" := VBool true]> ∅).

Definition initial_session (now : Z) : gmap string value :=
  <["ballX" := VNum 400]>
  (<["ballY" := VNum 300]>
  (<["ballVelX" := VNum 10]>
  (<["ballVelY" := VNum 7.5]>
  (<["ballSpeedMultiplier" := VNum 1]>
  (<["p1Y" := VNum 300]>
  (<["p2Y" := VNum 300]>
  (<["p1Score" := VNum 0]>
  (<["p2Score" := VNum 0]>
  (<["gameStarted" := VBool false]>
  (<["winner" := VNull]>
  (<["countdownActive" := VBool false]>
  (<["countdownValue" := VNum 0]>
  (<["readyToStart" := VBool false]>
  (<["lastUpdate" := VNum (inject_Z now)]>
  (<["p1Connected" := VBool true]>
  (<["p2Connected" := VBool false]> ∅)))))))))))))))).

Definition handleCreate : M response :=
  sessionId ← generateSessionId;
  now ← Date_now;
  let sessionData := initial_session now in
  setSession (Some (VStr sessionId)) sessionData;;
  mret (json_response 200
          (<["sessionId" := VStr sessionId]> (<["success" := VBool true]> ∅))).

Definition handleJoin (body : jsval) : M response :=
  joinSessionId ← read_prop body "sessionId";
  found ← getSession joinSessionId;
  match found with
  | Some session =>
      let session := <["p2Connected" := VBool true]> session in
      setSession joinSessionId session;;
      mret (json_response 200
              (<["success" := VBool true]> (<["p2Connected" := VBool true]> ∅)))
  | None => mret session_not_found
  end.

Definition handleStart (body : jsval) : M response :=
  startSessionId ← read_prop body "sessionId";
  found ← getSession startSessionId;
  match found with
  | Some session =>
      let session := <["countdownActive" := VBool true]> session in
      let session := <["countdownValue" := VNum 3]> session in
      now ← Date_now;
      let session := <["countdownStartTime" := VNum (inject_Z now)]> session in
      setSession startSessionId session;;
      mret success_response
  | None => mret session_not_found
  end.

(** The assignments of [handleReset] up to [countdownValue]. *)
Definition reset_fields (session : gmap string value) : gmap string value :=
  let session := <["ballX" := VNum 400]> session in
  let session := <["ballY" := VNum 300]> session in
  let session := <["ballVelX" := VNum 10]> session in
  let session := <["ballVelY" := VNum 7.5]> session in
  let session := <["ballSpeedMultiplier" := VNum 1]> session in
  let session := <["p1Score" := VNum 0]> session in
  let session := <["p2Score" := VNum 0]> session in
  let session := <["gameStarted" := VBool false]> session in
  let session := <["winner" := VNull]> session in
  let session := <["countdownActive" := VBool true]> session in
  <["countdownValue" := VNum 3]> session.

Definition handleReset (body : jsval) : M response :=
  resetSessionId ← read_prop body "sessionId";
  found ← getSession resetSessionId;
  match found with
  | Some session =>
      let session := reset_fields session in
      now ← Date_now;
      let session := <["countdownStartTime" := VNum (inject_Z now)]> session in
      let session := <["readyToStart" := VBool false]> session in
      setSession resetSessionId session;;
      mret success_response
  | None => mret session_not_found
  end.

(** The assignments of [handleUpdate], in the order of the source. *)
Definition update_paddle (body : jsval) (session : gmap string value) :=
  if strict_eq_num (prop body "player") 1 && defined (prop body "paddleY") then
    set_prop "p1Y" (prop body "paddleY") session
  else if strict_eq_num (prop body "player") 2 && defined (prop body "paddleY") then
    set_prop "p2Y" (prop body "paddleY") session
  else session.

Definition update_ball (body : jsval) (session : gmap string value) :=
  if defined (prop body "ballX") then
    let session := set_prop "ballX" (prop body "ballX") session in
    let session := set_prop "ballY" (prop body "ballY") session in
    let session := set_prop "ballVelX" (prop body "ballVelX") session in
    set_prop "ballVelY" (prop body "ballVelY") session
  else session.

(** [if (body.k !== undefined) { session.k = body.k; }] *)
Definition update_field (k : string) (body : jsval) (session : gmap string value) :=
  if defined (prop body k) then set_prop k (prop body k) session else session.

Definition update_countdownActive (body : jsval) (session : gmap string value) :=
  if defined (prop body "countdownActive") then
    let session := set_prop "countdownActive" (prop body "countdownActive") session in
    if strict_eq_bool (prop body "countdownActive") false
       && strict_eq_num (prop body "countdownValue") 0
    then <["readyToStart" := VBool true]> session
    else session
  else session.

Definition apply_update (body : jsval) (session : gmap string value)
  : gmap string value :=
  let session := update_paddle body session in
  let session := update_ball body session in
  let session := update_field "ballSpeedMultiplier" body session in
  let session := update_field "p1Score" body session in
  let session := update_field "p2Score" body session in
  let session := update_field "winner" body session in
  let session := update_countdownActive body session in
  let session := update_field "countdownValue" body session in
  let session := update_field "gameStarted" body session in
  update_field "readyToStart" body session.

Definition handleUpdate (body : jsval) : M response :=
  updateSessionId ← read_prop body "sessionId";
  found ← getSession updateSessionId;
  match found with
  | Some session =>
      setSession updateSessionId (apply_update body session);;
      mret success_response
  | None => mret session_not_found
  end.

(** A whole number of seconds, or what [Math.floor] gives for a number
    that is not finite. *)
Inductive seconds : Type :=
| Seconds (s : Z)
| SecondsInfinite (negative : bool)
| SecondsNaN.

(** [Math.floor(elapsed / 1000)] for [elapsed = now - start]. *)
Definition secondsElapsed (now : Z) (start : jsval) : seconds :=
  match ToNumber start with
  | Finite t => Seconds (Qfloor ((inject_Z now - t) / 1000))
  | Infinite negative => SecondsInfinite (negb negative)
  | NaN => SecondsNaN
  end.

(** [secondsElapsed >= 3 ? 0 : 3 - secondsElapsed].  A comparison with
    [NaN] is false, and arithmetic on [NaN] gives [NaN]; [Infinity >= 3]
    holds, and [3 - (-Infinity)] is [Infinity].  [None] is a result that is
    not finite, [NaN] or [Infinity]. *)
Definition newCountdownValue (elapsed : seconds) : option Z :=
  match elapsed with
  | Seconds s => if (3 <=? s)%Z then Some 0%Z else Some (3 - s)%Z
  | SecondsInfinite false => Some 0%Z
  | SecondsInfinite true => None
  | SecondsNaN => None
  end.

(** [n !== x] for a number [n] and a property [x] of a session read from
    the store, which holds no infinite number. *)
Definition strict_neq_number (n : option Z) (x : jsval) : bool :=
  match n with
  | Some z => negb (strict_eq_num x (inject_Z z))
  | None => true
  end.

(** [n === 0] for a number [n]. *)
Definition is_zero (n : option Z) : bool :=
  match n with
  | Some z => (z =? 0)%Z
  | None => false
  end.

(** The countdown block of [handleState], between the read of the clock
    and the call of [setSession]. *)
Definition resolve_countdown (now : Z) (session : gmap string value)
  : gmap string value :=
  let new := newCountdownValue (secondsElapsed now (session !! "countdownStartTime")) in
  let session :=
    if strict_neq_number new (session !! "countdownValue")
    then <["countdownValue" := json_of_number new]> session
    else session in
  if is_zero new then
    let session := <["countdownActive" := VBool false]> session in
    let session := <["readyToStart" := VBool true]> session in
    <["countdownStartTime" := VNull]> session
  else session.

(** The answer of the state call.  Its session was read by [getSession],
    and the countdown block assigns finite numbers only, so that the text of
    the answer holds the session as it is. *)
Definition state_response (session : gmap string value) : response :=
  json_response 200
    (<["success" := VBool true]> (<["state" := VObj session]> ∅)).

Definition handleState (body : jsval) : M response :=
  stateSessionId ← read_prop body "sessionId";
  found ← getSession stateSessionId;
  match found with
  | Some session =>
      if truthy (session !! "countdownActive")
         && truthy (session !! "countdownStartTime")
      then
        now ← Date_now;
        session ← setSession stateSessionId (resolve_countdown now session);
        mret (state_response session)
      else mret (state_response session)
  | None => mret session_not_found
  end.

(** ** The request router *)

(** The object built by [new URL(url, 'http://localhost')], reduced to its
    query parameters in the order of the query string. *)
Record URL : Type := mkURL {
  searchParams : list (string * string)
}.

(** [searchParams.get(name)]: the first value given for [name], else
    [null]. *)
Fixpoint searchParams_get (params : list (string * string)) (name : string)
  : option string :=
  match params with
  | [] => None
  | (k, v) :: rest =>
      if String.eqb k name then Some v else searchParams_get rest name
  end.

(** [!action]. *)
Definition no_action (action : option string) : bool :=
  match action with
  | None => true
  | Some a => String.eqb a EmptyString
  end.

Definition action_is (action : option string) (name : string) : bool :=
  match action with
  | Some a => String.eqb a name
  | None => false
  end.

Definition html_response : response :=
  mkResponse 200 "text/html" (Text getGameHTML).

Definition error_response (status : Z) (error : string) : response :=
  json_response status
    (<["success" := VBool false]> (<["error" := VStr error]> ∅)).

(** The [switch (action)] of [handleRequest]. *)
Definition dispatch (action : option string) (requestBody : jsval) : M response :=
  if action_is action "create" then handleCreate
  else if action_is action "join" then handleJoin requestBody
  else if action_is action "start" then handleStart requestBody
  else if action_is action "reset" then handleReset requestBody
  else if action_is action "update" then handleUpdate requestBody
  else if action_is action "state" then handleState requestBody
  else mret (error_response 400 "Invalid action").

(** The [catch] clause of [handleRequest]. *)
Definition on_error (error : exn) : M response :=
  w ← get_world;
  if is_RedisUnavailableError error || redisUnavailable w then
    redisUnavailableResponse
  else mret (error_response 500 (exn_message error)).

(** The part of the [try] block of [handleRequest] that runs before the
    [switch]: [inl r] when the block returns [r] at once, [inr b] when it
    goes on with the request body [b]. *)
Definition probe_and_parse (body : jsval) : M (response + jsval) :=
  redisStatus ← ensureRedisAvailable;
  match redisStatus with
  | Some response => mret (inl response)
  | None =>
      requestBody ←
        match body with
        | Some (VStr text) => JSON_parse text
        | _ => mret body
        end;
      mret (inr requestBody)
  end.

(** [handleRequest].  Inside the [try] block the action handlers are
    called and their promise is returned without [await]: a handler that
    throws rejects that promise after the [try] block has been left, and
    the [catch] clause does not see it.  The clause guards the probe of
    the store and the parsing of the body; the dispatch is therefore
    sequenced after the guarded part. *)
Definition handleRequest (method : string) (url : URL) (body : jsval)
  : M response :=
  let action := searchParams_get (searchParams url) "action" in
  if String.eqb method "GET" && no_action action then mret html_response
  else if String.eqb method "POST" then
    guarded ←
      try_catch (probe_and_parse body)
        (fun error => r ← on_error error; mret (inl r));
    match guarded with
    | inl response => mret response
    | inr requestBody => dispatch action requestBody
    end
  else mret (error_response 405 "Method not allowed").

(** ** The browser client, as far as the winner goes

    The script served by [getGameHTML] keeps the match in module variables;
    player 1 runs the ball and owns the scores. *)

Definition WINNING_SCORE : Q := 3.

Record client : Type := mkClient {
  c_sessionId : value;
  c_playerNumber : value;
  c_p1Y : value;
  c_p2Y : value;
  c_ballX : value;
  c_ballY : value;
  c_ballVelX : value;
  c_ballVelY : value;
  c_ballSpeedMultiplier : value;
  c_p1Score : Q;
  c_p2Score : Q;
  c_winner : value
}.

(** The end of [updateBallPhysics]: the winner after the score check. *)
Definition check_win (c : client) : value :=
  if Qle_bool WINNING_SCORE (c_p1Score c) then VNum 1
  else if Qle_bool WINNING_SCORE (c_p2Score c) then VNum 2
  else c_winner c.

(** The body sent by [sendUpdate]. *)
Definition sendUpdate_body (c : client) : jsval :=
  let is_p1 := strict_eq_num (Some (c_playerNumber c)) 1 in
  let updateData :=
    <["sessionId" := c_sessionId c]>
    (<["player" := c_playerNumber c]>
    (<["paddleY" := if is_p1 then c_p1Y c else c_p2Y c]> ∅)) in
  if is_p1 then
    let updateData := <["ballX" := c_ballX c]> updateData in
    let updateData := <["ballY" := c_ballY c]> updateData in
    let updateData := <["ballVelX" := c_ballVelX c]> updateData in
    let updateData := <["ballVelY" := c_ballVelY c]> updateData in
    let updateData := <["ballSpeedMultiplier" := c_ballSpeedMultiplier c]> updateData in
    let updateData := <["p1Score" := VNum (c_p1Score c)]> updateData in
    let updateData := <["p2Score" := VNum (c_p2Score c)]> updateData in
    Some (VObj (<["winner" := c_winner c]> updateData))
  else Some (VObj updateData).

(** The body [{ sessionId, readyToStart: false, gameStarted: true }] sent
    when the countdown is over. *)
Definition game_started_body (c : client) : jsval :=
  Some (VObj (<["sessionId" := c_sessionId c]>
              (<["readyToStart" := VBool false]>
               (<["gameStarted" := VBool true]> ∅)))).

End Server.

Section Vocabulary.
Context {engine : Engine}.

(** ** Vocabulary of the properties *)

(** The process holds a client and has not marked it unavailable. *)
Definition connected (w : World) : Prop :=
  redisUnavailable w = false /\ redisClient w = true.

(** The probe of the store fails at once: the client is marked
    unavailable, or there is no client and [connect()] is rejected. *)
Definition store_unreachable (w : World) : Prop :=
  redisUnavailable w = true \/
  (redisClient w = false /\ exists m, connects w (attempts w) = ConnectFail m).

(** A process that has not yet built a client, while the store is down:
    the connection attempt meets the error [e] and is retried. *)
Definition store_down (e : option string) (w : World) : Prop :=
  redisClient w = false /\ redisUnavailable w = false
  /\ connects w (attempts w) = ConnectRetrying e.

(** A session that is what its own text parses to: it holds no infinite
    number. *)
Definition is_json (session : gmap string value) : Prop :=
  JSON_stringify session = session.

(** The session as [setSession] writes it at time [now]. *)
Definition stamp (now : Z) (session : gmap string value) : gmap string value :=
  <["lastUpdate" := VNum (inject_Z now)]> session.

(** The world after a successful [setSession]. *)
Definition saved (id : jsval) (session : gmap string value) (w : World) : World :=
  with_store
    (<[session_key id := JSON_stringify (stamp (clock w (ticks w)) session)]>
       (store w))
    (with_ticks (S (ticks w)) w).

(** A request body that is neither [null] nor [undefined]. *)
Definition non_nullish (body : jsval) : bool :=
  match body with
  | None => false
  | Some VNull => false
  | Some _ => true
  end.

(** The pattern shared by the five handlers that work on an existing
    session: read [body.sessionId], load the session, answer 404 when there
    is none, else go on with [k]. *)
Definition on_session (body : jsval)
    (k : jsval -> gmap string value -> M response) : M response :=
  sessionId ← read_prop body "sessionId";
  found ← getSession sessionId;
  match found with
  | Some session => k sessionId session
  | None => mret session_not_found
  end.

(** The assignment of [handleJoin]. *)
Definition join_fields (session : gmap string value) : gmap string value :=
  <["p2Connected" := VBool true]> session.

(** The assignments of [handleStart] at time [now]. *)
Definition start_fields (now : Z) (session : gmap string value)
  : gmap string value :=
  <["countdownStartTime" := VNum (inject_Z now)]>
    (<["countdownValue" := VNum 3]>
       (<["countdownActive" := VBool true]> session)).

(** All the assignments of [handleReset] at time [now]. *)
Definition reset_session (now : Z) (session : gmap string value)
  : gmap string value :=
  <["readyToStart" := VBool false]>
    (<["countdownStartTime" := VNum (inject_Z now)]> (reset_fields session)).

(** The condition under which [handleState] resolves the countdown. *)
Definition countdown_running (session : gmap string value) : bool :=
  truthy (session !! "countdownActive")
  && truthy (session !! "countdownStartTime").

Definition join_response : response :=
  json_response 200
    (<["success" := VBool true]> (<["p2Connected" := VBool true]> ∅)).

Definition create_response (sessionId : string) : response :=
  json_response 200
    (<["sessionId" := VStr sessionId]> (<["success" := VBool true]> ∅)).

(** A property after [if (x !== undefined) { session.k = x; }]. *)
Definition patched (x old : jsval) : jsval :=
  match x with
  | Some v => Some v
  | None => old
  end.

(** The body [{ sessionId, player: 2, paddleY: 150 }]. *)
Definition paddle2_body (sessionId : value) : jsval :=
  Some (VObj (<["sessionId" := sessionId]>
              (<["player" := VNum 2]> (<["paddleY" := VNum 150]> ∅)))).

(** The seconds left of a countdown started at [start], at time [now]:
    [max(0, 3 - floor((now - start) / 1000))]. *)
Definition remaining_seconds (now : Z) (start : Q) : Z :=
  Z.max 0 (3 - Qfloor ((inject_Z now - start) / 1000)).

(** [winner] is set: present and not [null]. *)
Definition has_winner (session : gmap string value) : Prop :=
  exists v, session !! "winner" = Some v /\ v <> VNull.

(** A score that is a finite number and has reached the threshold.  (A
    score that was read as [Infinity] is stored as [null].) *)
Definition score_reached (x : jsval) : Prop :=
  exists q, x = Some (VNum q) /\ (WINNING_SCORE <= q)%Q.

Definition winner_justified (session : gmap string value) : Prop :=
  has_winner session ->
  score_reached (session !! "p1Score") \/ score_reached (session !! "p2Score").

(** The update bodies the browser client sends: the one of player 2 and
    the one that starts the game carry none of [winner], [p1Score] and
    [p2Score]; the one of player 1 carries all three, its [winner] being
    set by the client only once a score, a finite number, has reached the
    threshold. *)
Definition client_shaped (body : jsval) : Prop :=
  (prop body "winner" = None /\ prop body "p1Score" = None
   /\ prop body "p2Score" = None)
  \/ (exists v, prop body "winner" = Some v
       /\ (v <> VNull ->
           score_reached (prop body "p1Score")
           \/ score_reached (prop body "p2Score"))).

(** The client has a winner only once a score has reached the
    threshold. *)
Definition client_winner_justified (c : client) : Prop :=
  c_winner c <> VNull ->
  (WINNING_SCORE <= c_p1Score c)%Q \/ (WINNING_SCORE <= c_p2Score c)%Q.

(** The six operations on sessions, and the worlds they lead to.  Between
    two operations the environment may do anything to the process and the
    oracles; to the store it may only let sessions expire. *)
Inductive operation : Type :=
| Create
| Join (body : jsval)
| Start (body : jsval)
| ResetGame (body : jsval)
| Update (body : jsval)
| State (body : jsval).

Definition run (o : operation) : M response :=
  match o with
  | Create => handleCreate
  | Join body => handleJoin body
  | Start body => handleStart body
  | ResetGame body => handleReset body
  | Update body => handleUpdate body
  | State body => handleState body
  end.

Definition permits (allowed : jsval -> Prop) (o : operation) : Prop :=
  match o with
  | Update body => allowed body
  | _ => True
  end.

Inductive reachable (allowed : jsval -> Prop) : World -> Prop :=
| reachable_initial (w : World) :
    store w = ∅ -> reachable allowed w
| reachable_operation (w : World) (o : operation) :
    reachable allowed w -> permits allowed o ->
    reachable allowed (world_after (run o) w)
| reachable_environment (w w' : World) :
    reachable allowed w -> store w' ⊆ store w -> reachable allowed w'.

(** Every stored session satisfies [Q]. *)
Definition store_inv (Q : gmap string value -> Prop) (w : World) : Prop :=
  forall key session, store w !! key = Some session -> Q session.

(** A computation keeps [Q] on every stored session, and its result, when
    it returns one, satisfies [post]. *)
Definition keeps (Q : gmap string value -> Prop) {A} (c : M A)
    (post : A -> Prop) : Prop :=
  forall w, store_inv Q w ->
    store_inv Q (world_after c w)
    /\ (forall a, result_of c w = Returns a -> post a).

(** The 503 shape [{ success: false, error, detail }]. *)
Definition unavailable_response (detail : option string) : response :=
  json_response 503
    (<["success" := VBool false]>
     (<["error" := VStr "Redis connection unavailable"]>
      (<["detail" := json_of_string detail]> ∅))).

(** The session an operation addresses: the identifier a create call
    draws, or [body.sessionId]. *)
Definition op_id (o : operation) (w : World) : jsval :=
  match o with
  | Create => Some (VStr (random w (draws w) ++ random w (S (draws w))))
  | Join body | Start body | ResetGame body | Update body | State body =>
      prop body "sessionId"
  end.

(** A request as an adapter hands it to [handleRequest]. *)
Record request : Type := mkRequest {
  req_method : string;
  req_url : URL;
  req_body : jsval
}.

(** Successive requests served by one process, nothing else happening in
    between: the outcome of each, and the world left by the last. *)
Fixpoint serve (requests : list request) (w : World)
  : list (outcome response) * World :=
  match requests with
  | [] => ([], w)
  | r :: rest =>
      let (o, w1) := handleRequest (req_method r) (req_url r) (req_body r) w in
      let (os, w2) := serve rest w1 in
      (o :: os, w2)
  end.

(** The actions of the [switch] of [handleRequest]. *)
Definition known_actions : list string :=
  ["create"; "join"; "start"; "reset"; "update"; "state"].

(** The fields no handler assigns from a request body: what the server
    alone writes there. *)
Definition server_fields_ok (session : gmap string value) : Prop :=
  session !! "p1Connected" = Some (VBool true)
  /\ (exists b, session !! "p2Connected" = Some (VBool b))
  /\ (exists t, session !! "lastUpdate" = Some (VNum (inject_Z t)))
  /\ (session !! "countdownStartTime" = None
      \/ session !! "countdownStartTime" = Some VNull
      \/ exists t, session !! "countdownStartTime" = Some (VNum (inject_Z t))).

(** The client once [updateBallPhysics] has run its score check. *)
Definition after_score_check (c : client) : client :=
  mkClient (c_sessionId c) (c_playerNumber c) (c_p1Y c) (c_p2Y c)
    (c_ballX c) (c_ballY c) (c_ballVelX c) (c_ballVelY c)
    (c_ballSpeedMultiplier c) (c_p1Score c) (c_p2Score c) (check_win c).

(** The opening of a match as one process serves it: create, join, start,
    a state call, the update that starts the game, a state call. *)
Definition opening_requests (id : string) : list request :=
  [ mkRequest "POST" (mkURL [("action", "create")]) (Some (VObj ∅));
    mkRequest "POST" (mkURL [("action", "join")])
      (Some (VObj (<["sessionId" := VStr id]> ∅)));
    mkRequest "POST" (mkURL [("action", "start")])
      (Some (VObj (<["sessionId" := VStr id]> ∅)));
    mkRequest "POST" (mkURL [("action", "state")])
      (Some (VObj (<["sessionId" := VStr id]> ∅)));
    mkRequest "POST" (mkURL [("action", "update")])
      (Some (VObj (<["sessionId" := VStr id]>
                   (<["readyToStart" := VBool false]>
                    (<["gameStarted" := VBool true]> ∅)))));
    mkRequest "POST" (mkURL [("action", "state")])
      (Some (VObj (<["sessionId" := VStr id]> ∅))) ].

End Vocabulary.

(** ** Worlds and an engine for the examples *)

(** An engine for the examples.  Its [JSON.parse] is defined on the two
    texts they use: the empty object, and the truncated text [{], rejected
    with the message V8 gives for it; no example parses another text, and
    this engine rejects them all alike.  No example converts a number or an
    object to a string, or a string to a number. *)
Definition example_engine : Engine := {|
  JSON_parse_text text :=
    if String.eqb text "{}" then inr (VObj ∅)
    else inl "Unexpected end of JSON input";
  ToString_other _ := "[object Object]";
  StringToNumber _ := NaN;
  getGameHTML := "<!DOCTYPE html>"
|}.

(** Successive values of
    [Math.random().toString(36).substring(2, 15)]. *)
Definition example_random (n : nat) : string :=
  match n with
  | 0 => "k3j9x0q2m1a"
  | 1 => "z8w7v6u5t4s"
  | 2 => "p5o4i3u2y1t"
  | 3 => "r9e8w7q6a5s"
  | S (S (S (S m))) => if Nat.even m then "h2g3f4d5s6a" else "m7n8b9v0c1x"
  end.

(** A process that holds a connected client, with an empty store; the clock
    starts at [1700000000000] and advances by 50 ms per reading. *)
Definition example_world : World := {|
  clock n := (1700000000000 + 50 * Z.of_nat n)%Z;
  ticks := 0;
  random := example_random;
  draws := 0;
  connects _ := ConnectOk;
  attempts := 1;
  redisClient := true;
  redisUnavailable := false;
  redisUnavailableMessage := None;
  store := ∅
|}.

(** A fresh process while the store is down: every connection attempt is
    refused, and the client retries. *)
Definition unreachable_world : World := {|
  clock n := (1700000000000 + 50 * Z.of_nat n)%Z;
  ticks := 0;
  random := example_random;
  draws := 0;
  connects _ := ConnectRetrying (Some "connect ECONNREFUSED 127.0.0.1:6379");
  attempts := 0;
  redisClient := false;
  redisUnavailable := false;
  redisUnavailableMessage := None;
  store := ∅
|}.

Definition example_id : string := "k3j9x0q2m1az8w7v6u5t4s".

Definition action_url (action : string) : URL := mkURL [("action", action)].

(** [{ sessionId: id, ...fields }] *)
Definition request_body (id : string) (fields : gmap string value) : jsval :=
  Some (VObj (<["sessionId" := VStr id]> fields)).


(** The same process [ms] milliseconds later. *)
Definition later (ms : Z) (w : World) : World :=
  mkWorld (fun n => (clock w n + ms)%Z) (ticks w) (random w) (draws w)
    (connects w) (attempts w) (redisClient w) (redisUnavailable w)
    (redisUnavailableMessage w) (store w).

(** [{ sessionId: example_id }] *)
Definition id_body : jsval := request_body example_id ∅.

(** The example process after a create call, and after a start call on
    the session created. *)
Definition created_world : World :=
  world_after (handleCreate (engine := example_engine)) example_world.

Definition started_world : World :=
  world_after (handleStart (engine := example_engine) id_body) created_world.

(** Update bodies of the examples. *)
Definition ballY_only_body : jsval :=
  request_body example_id (<["ballY" := VNum 123]> ∅).

Definition ballX_only_body : jsval :=
  request_body example_id (<["ballX" := VNum 5]> ∅).

Definition winner_only_body : jsval :=
  request_body example_id (<["winner" := VNum 1]> ∅).

Definition player1_won_body : jsval :=
  request_body example_id
    (<["winner" := VNum 1]> (<["p1Score" := VNum 3]> (<["p2Score" := VNum 1]> ∅))).

Definition score_body : jsval :=
  request_body example_id (<["p1Score" := VNum 2]> ∅).

(** [{ sessionId, ballSpeedMultiplier: 1e400 }] as [JSON.parse] reads it. *)
Definition infinite_speed_body : jsval :=
  request_body example_id (<["ballSpeedMultiplier" := VInf false]> ∅).

(** [{ sessionId, winner: 1, p1Score: 1e400 }] as [JSON.parse] reads it. *)
Definition infinite_score_body : jsval :=
  request_body example_id
    (<["winner" := VNum 1]> (<["p1Score" := VInf false]> ∅)).

(** The update of player 1 at the end of a match it has won 3 to 1. *)
Definition played_body : jsval :=
  request_body example_id
    (<["ballX" := VNum 790]>
    (<["ballY" := VNum 120]>
    (<["ballVelX" := VNum (-15 # 1)]>
    (<["ballVelY" := VNum 11.25]>
    (<["ballSpeedMultiplier" := VNum 1.5]>
    (<["p1Score" := VNum 3]>
    (<["p2Score" := VNum 1]>
    (<["winner" := VNum 1]>
    (<["gameStarted" := VBool true]>
    (<["readyToStart" := VBool true]> ∅)))))))))).

(** The example process after a create call and that update. *)
Definition played_world : World :=
  world_after (handleUpdate (engine := example_engine) played_body) created_world.

(** The clients of the two players in the examples: player 1 has just
    scored its third point. *)
Definition example_player1 : client :=
  mkClient (VStr example_id) (VNum 1) (VNum 250) (VNum 300)
    (VNum 400) (VNum 300) (VNum 33.75) (VNum 12) (VNum 3.375) 3 1 VNull.

(** The client of player 1 while it leads 2 to 1. *)
Definition example_leading : client :=
  mkClient (VStr example_id) (VNum 1) (VNum 250) (VNum 300)
    (VNum 400) (VNum 300) (VNum 22.5) (VNum 8) (VNum 3.375) 2 1 VNull.

Definition example_player2 : client :=
  mkClient (VStr example_id) (VNum 2) (VNum 300) (VNum 180)
    (VNum 400) (VNum 300) (VNum 10) (VNum 7.5) (VNum 1) 0 0 VNull.

(** A connected process whose clock jumps by three seconds after its fifth
    reading. *)
Definition opening_world : World := {|
  clock n := (if (n <? 5)%nat then 1700000000000 + 50 * Z.of_nat n
              else 1700000003000 + 50 * Z.of_nat n)%Z;
  ticks := 0;
  random := example_random;
  draws := 0;
  connects _ := ConnectOk;
  attempts := 1;
  redisClient := true;
  redisUnavailable := false;
  redisUnavailableMessage := None;
  store := ∅
|}.

Definition example_posts : list request :=
  [ mkRequest "POST" (action_url "create") (Some (VObj ∅));
    mkRequest "POST" (action_url "state") id_body ].

(** * Properties *)

(** ** JSON texts *)

Section Texts.
Context {engine : Engine}.

Lemma value_size_lookup (fields : gmap string value) (k : string) (v : value) :
  fields !! k = Some v -> value_size v < value_size (VObj fields).
Proof.
  intros Hk. simpl.
  rewrite <- (insert_delete_id fields k v Hk).
  rewrite map_fold_insert_L.
  - lia.
  - intros. lia.
  - apply lookup_delete_eq.
Qed.

Lemma value_size_elem (items : list value) (v : value) :
  v ∈ items -> value_size v < value_size (VArr items).
Proof.
  simpl. induction items as [|x items IH]; intros Hin.
  - now apply elem_of_nil in Hin.
  - apply elem_of_cons in Hin as [->|Hin]; simpl; [lia|].
    specialize (IH Hin). lia.
Qed.

(** A text that is parsed and written again is the same text. *)
Lemma json_value_idempotent (v : value) :
  json_value (json_value v) = json_value v.
Proof.
  remember (value_size v) as n eqn:Hn.
  revert v Hn. induction n as [n IH] using lt_wf_ind. intros v ->.
  destruct v as [| | | |items|fields|negative]; try reflexivity.
  - simpl. f_equal. rewrite map_map. apply map_ext_in. intros x Hx.
    apply (IH (value_size x)); [|reflexivity].
    apply value_size_elem. now apply list_elem_of_In.
  - simpl. f_equal. rewrite <- map_fmap_compose. apply map_fmap_ext.
    intros k x Hx. simpl. apply (IH (value_size x)); [|reflexivity].
    now apply (value_size_lookup fields k).
Qed.

Lemma JSON_stringify_idempotent (o : gmap string value) :
  JSON_stringify (JSON_stringify o) = JSON_stringify o.
Proof.
  unfold JSON_stringify. rewrite <- map_fmap_compose. apply map_fmap_ext.
  intros k x _. apply json_value_idempotent.
Qed.

Lemma JSON_parse_stringify (o : gmap string value) :
  JSON_parse_stored (JSON_stringify o) = JSON_stringify o.
Proof. apply JSON_stringify_idempotent. Qed.

Lemma lookup_JSON_stringify (o : gmap string value) (k : string) :
  JSON_stringify o !! k = json_value <$> (o !! k).
Proof. apply lookup_fmap. Qed.

Lemma is_json_parsed (text : gmap string value) :
  is_json (JSON_parse_stored text).
Proof. apply JSON_stringify_idempotent. Qed.

Lemma is_json_stringify (o : gmap string value) : is_json (JSON_stringify o).
Proof. apply JSON_stringify_idempotent. Qed.

(** What [getSession] reads holds no infinite number. *)
Lemma stored_is_json (w : World) (id : jsval) (session : gmap string value) :
  stored w id = Some session -> is_json session.
Proof.
  unfold stored. destruct (store w !! session_key id) as [text|]; [|discriminate].
  intros [= <-]. apply is_json_parsed.
Qed.

Lemma is_json_lookup (session : gmap string value) (k : string) :
  is_json session -> json_value <$> (session !! k) = session !! k.
Proof. intros Hj. rewrite <- lookup_JSON_stringify. now rewrite Hj. Qed.

Lemma is_json_empty : is_json ∅.
Proof. apply fmap_empty. Qed.

Lemma is_json_insert (k : string) (v : value) (session : gmap string value) :
  json_value v = v -> is_json session -> is_json (<[k := v]> session).
Proof.
  intros Hv Hj. unfold is_json, JSON_stringify in *.
  now rewrite fmap_insert, Hv, Hj.
Qed.

Lemma is_json_delete (k : string) (session : gmap string value) :
  is_json session -> is_json (delete k session).
Proof.
  intros Hj. unfold is_json, JSON_stringify in *. now rewrite fmap_delete, Hj.
Qed.

Lemma is_json_stamp (now : Z) (session : gmap string value) :
  is_json session -> is_json (stamp now session).
Proof. now apply is_json_insert. Qed.

Lemma is_json_initial_session (now : Z) : is_json (initial_session now).
Proof.
  unfold initial_session.
  repeat (apply is_json_insert; [reflexivity|]). apply is_json_empty.
Qed.

Lemma is_json_join_fields (session : gmap string value) :
  is_json session -> is_json (join_fields session).
Proof. now apply is_json_insert. Qed.

Lemma is_json_start_fields (now : Z) (session : gmap string value) :
  is_json session -> is_json (start_fields now session).
Proof.
  intros Hj. unfold start_fields.
  repeat (apply is_json_insert; [reflexivity|]). exact Hj.
Qed.

Lemma is_json_reset_session (now : Z) (session : gmap string value) :
  is_json session -> is_json (reset_session now session).
Proof.
  intros Hj. unfold reset_session, reset_fields.
  repeat (apply is_json_insert; [reflexivity|]). exact Hj.
Qed.

Lemma is_json_resolve_countdown (now : Z) (session : gmap string value) :
  is_json session -> is_json (resolve_countdown now session).
Proof.
  intros Hj. unfold resolve_countdown.
  assert (Hnum : forall n, json_value (json_of_number n) = json_of_number n)
    by (intros [z|]; reflexivity).
  destruct (is_zero _); destruct (strict_neq_number _ _);
    repeat (apply is_json_insert; [first [reflexivity | apply Hnum]|]);
    exact Hj.
Qed.

End Texts.

(** Proves that a session assembled by a handler holds no infinite
    number. *)
Ltac json_session :=
  repeat match goal with
    | H : is_json ?s |- is_json ?s => exact H
    | H : stored _ _ = Some ?s |- is_json ?s => exact (stored_is_json _ _ _ H)
    | |- is_json (stamp _ _) => apply is_json_stamp
    | |- is_json (initial_session _) => apply is_json_initial_session
    | |- is_json (join_fields _) => apply is_json_join_fields
    | |- is_json (start_fields _ _) => apply is_json_start_fields
    | |- is_json (reset_session _ _) => apply is_json_reset_session
    | |- is_json (resolve_countdown _ _) => apply is_json_resolve_countdown
    | |- is_json (JSON_stringify _) => apply is_json_stringify
    | |- is_json (JSON_parse_stored _) => apply is_json_parsed
    | |- is_json (delete _ _) => apply is_json_delete
    | |- is_json (<[_ := _]> _) => apply is_json_insert; [reflexivity|]
    | |- is_json ∅ => apply is_json_empty
    | |- is_json ?s => is_var s; unfold s
    end.

Section Properties.
Context {engine : Engine}.

(** ** Running a computation *)

Lemma run_bind {A B} (c : M A) (k : A -> M B) (w w' : World) (a : A) :
  c w = (Returns a, w') -> (c ≫= k) w = k a w'.
Proof. intros Hc. unfold mbind, M_bind, bind. now rewrite Hc. Qed.

Lemma run_bind_throw {A B} (c : M A) (k : A -> M B) (w w' : World) (e : exn) :
  c w = (Throws e, w') -> (c ≫= k) w = (Throws e, w').
Proof. intros Hc. unfold mbind, M_bind, bind. now rewrite Hc. Qed.

Lemma run_ret {A} (a : A) (w : World) : (mret a : M A) w = (Returns a, w).
Proof. reflexivity. Qed.

Lemma run_try_returns {A} (c : M A) (h : exn -> M A) (w w' : World) (a : A) :
  c w = (Returns a, w') -> try_catch c h w = (Returns a, w').
Proof. intros Hc. unfold try_catch. now rewrite Hc. Qed.

Lemma run_try_throws {A} (c : M A) (h : exn -> M A) (w w' : World) (e : exn) :
  c w = (Throws e, w') -> try_catch c h w = h e w'.
Proof. intros Hc. unfold try_catch. now rewrite Hc. Qed.

Lemma run_bind_pending {A B} (c : M A) (k : A -> M B) (w w' : World) :
  c w = (Pending, w') -> (c ≫= k) w = (Pending, w').
Proof. intros Hc. unfold mbind, M_bind, bind. now rewrite Hc. Qed.

Lemma run_try_pending {A} (c : M A) (h : exn -> M A) (w w' : World) :
  c w = (Pending, w') -> try_catch c h w = (Pending, w').
Proof. intros Hc. unfold try_catch. now rewrite Hc. Qed.

(** ** The store client *)

Lemma getRedisClient_connected (w : World) :
  connected w -> getRedisClient w = (Returns tt, w).
Proof. intros [Hu Hc]. unfold getRedisClient. now rewrite Hu, Hc. Qed.

Lemma connected_with_ticks (n : nat) (w : World) :
  connected w -> connected (with_ticks n w).
Proof. now intros [Hu Hc]. Qed.

Lemma connected_with_draws (n : nat) (w : World) :
  connected w -> connected (with_draws n w).
Proof. now intros [Hu Hc]. Qed.

Lemma connected_with_store (st : gmap string (gmap string value)) (w : World) :
  connected w -> connected (with_store st w).
Proof. now intros [Hu Hc]. Qed.

(** [getRedisClient] throws nothing but [RedisUnavailableError], never
    touches the store, the clock or the generator, and leaves a connected
    process when it returns; when it neither returns nor throws, the client
    is marked unavailable. *)
Lemma getRedisClient_cases (w : World) :
  (exists w', getRedisClient w = (Returns tt, w') /\ connected w'
     /\ store w' = store w /\ ticks w' = ticks w /\ draws w' = draws w
     /\ clock w' = clock w /\ random w' = random w) \/
  (exists m w', getRedisClient w = (Throws (RedisUnavailableError m), w')
     /\ redisUnavailable w' = true
     /\ store w' = store w /\ ticks w' = ticks w /\ draws w' = draws w
     /\ clock w' = clock w /\ random w' = random w) \/
  (exists w', getRedisClient w = (Pending, w')
     /\ redisUnavailable w' = true
     /\ store w' = store w /\ ticks w' = ticks w /\ draws w' = draws w
     /\ clock w' = clock w /\ random w' = random w).
Proof.
  unfold getRedisClient.
  destruct (redisUnavailable w) eqn:Hu.
  - right. left. eexists _, w. repeat split; auto.
  - destruct (redisClient w) eqn:Hc; simpl.
    + left. exists w. repeat split; auto.
    + destruct (connects w (attempts w)) as [|m|m].
      * left. eexists. repeat split; reflexivity.
      * right. left. eexists _, _. repeat split; reflexivity.
      * right. right. eexists. repeat split; reflexivity.
Qed.

(** The first connection attempt of a process while the store is down. *)
Lemma getRedisClient_store_down (e : option string) (w : World) :
  store_down e w ->
  getRedisClient w = (Pending, on_redis_error e (createClient w)).
Proof.
  intros (Hc & Hu & He). unfold getRedisClient. now rewrite Hu, Hc, He.
Qed.

Lemma getRedisClient_unreachable (w : World) :
  store_unreachable w ->
  exists m w', getRedisClient w = (Throws (RedisUnavailableError m), w')
    /\ store w' = store w /\ ticks w' = ticks w /\ draws w' = draws w.
Proof.
  intros Hun. unfold getRedisClient.
  destruct Hun as [Hu | [Hc [m Hm]]].
  - rewrite Hu. eexists _, w. repeat split; auto.
  - destruct (redisUnavailable w) eqn:Hu.
    + eexists _, w. repeat split; auto.
    + rewrite Hc, Hm. simpl. eexists _, _. repeat split; reflexivity.
Qed.

Lemma getSession_connected (id : jsval) (w : World) :
  connected w -> getSession id w = (Returns (stored w id), w).
Proof.
  intros Hw. unfold getSession.
  erewrite run_bind by (apply getRedisClient_connected; exact Hw).
  reflexivity.
Qed.

Lemma setSession_connected (id : jsval) (session : gmap string value) (w : World) :
  connected w ->
  setSession id session w
  = (Returns (stamp (clock w (ticks w)) session), saved id session w).
Proof.
  intros Hw. unfold setSession.
  erewrite run_bind by (apply getRedisClient_connected; exact Hw).
  reflexivity.
Qed.

Lemma connected_saved (id : jsval) (session : gmap string value) (w : World) :
  connected w -> connected (saved id session w).
Proof. now intros [Hu Hc]. Qed.

(** What is read back after [setSession]: the text of the stamped
    session, which is the stamped session itself when it holds no infinite
    number. *)
Lemma stored_saved_json (id : jsval) (session : gmap string value) (w : World) :
  stored (saved id session w) id
  = Some (JSON_stringify (stamp (clock w (ticks w)) session)).
Proof.
  unfold stored, saved. simpl. rewrite lookup_insert_eq. simpl.
  now rewrite JSON_parse_stringify.
Qed.

Lemma stored_saved (id : jsval) (session : gmap string value) (w : World) :
  is_json session ->
  stored (saved id session w) id = Some (stamp (clock w (ticks w)) session).
Proof.
  intros Hj. rewrite stored_saved_json. f_equal. now apply is_json_stamp.
Qed.

Lemma store_saved (id : jsval) (session : gmap string value) (w : World) :
  store (saved id session w)
  = <[session_key id := JSON_stringify (stamp (clock w (ticks w)) session)]>
      (store w).
Proof. reflexivity. Qed.

Lemma stored_saved_ne (id id' : jsval) (session : gmap string value) (w : World) :
  session_key id <> session_key id' ->
  stored (saved id session w) id' = stored w id'.
Proof.
  intros Hne. unfold stored, saved. simpl.
  now rewrite lookup_insert_ne by exact Hne.
Qed.

Lemma read_prop_non_nullish (body : jsval) (k : string) (w : World) :
  non_nullish body = true -> read_prop body k w = (Returns (prop body k), w).
Proof. destruct body as [[]|]; simpl; intros; first [discriminate | reflexivity]. Qed.

(** ** The request router *)

Lemma ensureRedisAvailable_connected (w : World) :
  connected w -> ensureRedisAvailable w = (Returns None, w).
Proof.
  intros Hw. unfold ensureRedisAvailable.
  apply run_try_returns.
  erewrite run_bind by (apply getRedisClient_connected; exact Hw).
  reflexivity.
Qed.

Lemma ensureRedisAvailable_unreachable (w : World) :
  store_unreachable w ->
  exists w', ensureRedisAvailable w
             = (Returns (Some (unavailable_response (redisUnavailableMessage w'))), w')
    /\ store w' = store w /\ ticks w' = ticks w /\ draws w' = draws w.
Proof.
  intros Hun.
  destruct (getRedisClient_unreachable w Hun) as (m & w' & Hget & Hst & Hti & Hdr).
  exists w'. split; [|auto].
  unfold ensureRedisAvailable.
  erewrite run_try_throws
    by (erewrite run_bind_throw by exact Hget; reflexivity).
  reflexivity.
Qed.

(** The probe finds a connected process, answers 503, or stays pending; it
    throws nothing, and it leaves the store, the clock and the generator
    alone. *)
Lemma ensureRedisAvailable_cases (w : World) :
  exists o w', ensureRedisAvailable w = (o, w')
    /\ store w' = store w /\ ticks w' = ticks w /\ draws w' = draws w
    /\ clock w' = clock w /\ random w' = random w
    /\ match o with
       | Returns None => connected w'
       | Returns (Some resp) =>
           resp = unavailable_response (redisUnavailableMessage w')
       | Throws _ => False
       | Pending => redisUnavailable w' = true
       end.
Proof.
  unfold ensureRedisAvailable.
  destruct (getRedisClient_cases w)
    as [(w' & Hget & Hcon & Hrest) | [(m & w' & Hget & Hun & Hrest)
                                     | (w' & Hget & Hun & Hrest)]].
  - exists (Returns None), w'. split; [|tauto].
    apply run_try_returns. erewrite run_bind by exact Hget. reflexivity.
  - exists (Returns (Some (unavailable_response (redisUnavailableMessage w')))), w'.
    split; [|tauto].
    erewrite run_try_throws
      by (erewrite run_bind_throw by exact Hget; reflexivity).
    reflexivity.
  - exists Pending, w'. split; [|tauto].
    apply run_try_pending. now apply run_bind_pending.
Qed.

(** C10.  A GET request whose URL carries a non-empty [action] parameter
    gets neither the HTML page nor the 400 answer for an invalid action:
    whatever the action is, one of the six recognised ones included, the
    answer is 405 "Method not allowed", and the world is left as it was. *)
Theorem get_with_action_not_allowed (url : URL) (body : jsval) (w : World)
    (action : string) :
  searchParams_get (searchParams url) "action" = Some action ->
  action <> EmptyString ->
  handleRequest "GET" url body w
  = (Returns (error_response 405 "Method not allowed"), w)
  /\ error_response 405 "Method not allowed" <> html_response
  /\ statusCode (error_response 405 "Method not allowed") <> 400%Z.
Proof.
  intros Hget Hne. split; [|split; discriminate].
  unfold handleRequest. rewrite Hget. simpl.
  destruct (String.eqb_spec action EmptyString) as [->|_]; [contradiction|].
  reflexivity.
Qed.

(** When the client is marked unavailable, or the process has no client
    and [connect()] is rejected, a POST request is answered with the 503
    shape [{ success: false, error, detail }] whatever its action and body
    are; the store is not written, and neither the clock nor the
    identifier generator is consulted. *)
Lemma post_unreachable_503 (url : URL) (body : jsval) (w : World) :
  store_unreachable w ->
  exists detail w',
    handleRequest "POST" url body w = (Returns (unavailable_response detail), w')
    /\ statusCode (unavailable_response detail) = 503%Z
    /\ store w' = store w /\ ticks w' = ticks w /\ draws w' = draws w.
Proof.
  intros Hun.
  destruct (ensureRedisAvailable_unreachable w Hun) as (w' & Hprobe & Hrest).
  exists (redisUnavailableMessage w'), w'. split; [|split; [reflexivity|exact Hrest]].
  unfold handleRequest. simpl.
  erewrite run_bind
    by (apply run_try_returns; unfold probe_and_parse;
        erewrite run_bind by exact Hprobe; reflexivity).
  reflexivity.
Qed.

Lemma post_marked_unavailable (url : URL) (body : jsval) (w : World) :
  redisUnavailable w = true ->
  handleRequest "POST" url body w
  = (Returns (unavailable_response (redisUnavailableMessage w)), w).
Proof.
  intros Hmark.
  assert (Hguard : probe_and_parse body w
            = (Returns (inl (unavailable_response (redisUnavailableMessage w))), w)).
  { unfold probe_and_parse, ensureRedisAvailable, getRedisClient, try_catch,
      mbind, M_bind, bind.
    now rewrite Hmark. }
  unfold handleRequest. simpl.
  erewrite run_bind by (apply run_try_returns; exact Hguard).
  reflexivity.
Qed.

(** The first POST request of a process while the store is down: it gets
    no answer, and the listener of ['error'] marks the client
    unavailable. *)
Lemma post_store_down (url : URL) (body : jsval) (w : World)
    (e : option string) :
  store_down e w ->
  handleRequest "POST" url body w = (Pending, on_redis_error e (createClient w)).
Proof.
  intros Hdown.
  assert (Hguard : probe_and_parse body w
            = (Pending, on_redis_error e (createClient w))).
  { unfold probe_and_parse. apply run_bind_pending.
    unfold ensureRedisAvailable. apply run_try_pending.
    apply run_bind_pending. now apply getRedisClient_store_down. }
  unfold handleRequest. simpl.
  apply run_bind_pending. now apply run_try_pending.
Qed.

(** C2, where the code departs from it.  Take a process that has not yet
    built its client, while the store is down.  A POST request is then not
    answered with the 503 shape: it is not answered at all.
    [getRedisClient] awaits [connect()], which the client retries without
    end, so that the [catch] clause written for a failed connection, which
    would lead to the 503 answer, is never reached: whatever the action and
    the body are, [handleRequest] stays pending, having touched neither the
    store, the clock nor the generator.  Meanwhile the listener of ['error']
    has marked the client unavailable, and it is only the requests that
    follow which are answered with the 503 shape. *)
Theorem post_store_down_unanswered (url : URL) (body : jsval) (w : World)
    (e : option string) :
  store_down e w ->
  let detail := Some (or_default e "Unknown Redis error") in
  exists w',
    handleRequest "POST" url body w = (Pending, w')
    /\ (forall r, result_of (handleRequest "POST" url body) w <> Returns r)
    /\ store w' = store w /\ ticks w' = ticks w /\ draws w' = draws w
    /\ redisUnavailable w' = true
    /\ redisUnavailableMessage w' = detail
    /\ (forall url' body',
         handleRequest "POST" url' body' w'
         = (Returns (unavailable_response detail), w'))
    /\ statusCode (unavailable_response detail) = 503%Z.
Proof.
  intros Hdown detail.
  pose proof (post_store_down url body w e Hdown) as Hrun.
  exists (on_redis_error e (createClient w)).
  split; [exact Hrun|].
  split; [unfold result_of; rewrite Hrun; discriminate|].
  do 5 (split; [reflexivity|]).
  split; [|reflexivity].
  intros url' body'.
  exact (post_marked_unavailable url' body'
           (on_redis_error e (createClient w)) eq_refl).
Qed.

(** The guarded part throws only when [JSON.parse] rejects a body that is
    a text. *)
Lemma probe_and_parse_throws (body : jsval) (w w' : World) (e : exn) :
  probe_and_parse body w = (Throws e, w') ->
  exists text msg,
    body = Some (VStr text) /\ JSON_parse_text text = inl msg
    /\ e = OtherError "SyntaxError" msg /\ connected w'.
Proof.
  unfold probe_and_parse.
  destruct (ensureRedisAvailable_cases w) as (o & w1 & Hprobe & _ & _ & _ & _ & _ & Hr).
  destruct o as [[resp|]|e'|]; [| |contradiction|].
  - erewrite run_bind by exact Hprobe. discriminate.
  - erewrite run_bind by exact Hprobe.
    destruct body as [[| | |text| | |]|]; try discriminate.
    unfold mbind, M_bind, bind, JSON_parse.
    destruct (JSON_parse_text text) as [msg|v] eqn:Hparse; [|discriminate].
    intros [= <- <-]. now exists text, msg.
  - erewrite run_bind_pending by exact Hprobe. discriminate.
Qed.

(** A POST request on a connected process whose body is already parsed, or
    is a text that [JSON.parse] accepts, is handed to the [switch]. *)
Lemma post_dispatch_parsed (url : URL) (body : jsval) (w : World) :
  connected w ->
  (forall text, body <> Some (VStr text)) ->
  handleRequest "POST" url body w
  = dispatch (searchParams_get (searchParams url) "action") body w.
Proof.
  intros Hw Hparsed.
  assert (Hguard : probe_and_parse body w = (Returns (inr body), w)).
  { unfold probe_and_parse.
    erewrite run_bind by (now apply ensureRedisAvailable_connected).
    destruct body as [[| | |text| | |]|]; try reflexivity.
    now destruct (Hparsed text). }
  unfold handleRequest. simpl.
  erewrite run_bind by (apply run_try_returns; exact Hguard).
  reflexivity.
Qed.

Lemma post_dispatch_text (url : URL) (text : string) (v : value) (w : World) :
  connected w ->
  JSON_parse_text text = inr v ->
  handleRequest "POST" url (Some (VStr text)) w
  = dispatch (searchParams_get (searchParams url) "action") (Some v) w.
Proof.
  intros Hw Hparse.
  assert (Hguard : probe_and_parse (Some (VStr text)) w
                   = (Returns (inr (Some v)), w)).
  { unfold probe_and_parse.
    erewrite run_bind by (now apply ensureRedisAvailable_connected).
    unfold JSON_parse. now rewrite Hparse. }
  unfold handleRequest. simpl.
  erewrite run_bind by (apply run_try_returns; exact Hguard).
  reflexivity.
Qed.

(** C9, as the code has it.  When the guarded part of a POST request (the
    probe of the store and the parsing of the body) throws an exception
    that is not a [RedisUnavailableError], and the client is not marked
    unavailable, the answer is 500 with the body
    [{ success: false, error: error.message }]: the message of the
    exception itself. *)
Theorem guarded_exception_500_message (url : URL) (body : jsval) (w w' : World)
    (e : exn) :
  probe_and_parse body w = (Throws e, w') ->
  is_RedisUnavailableError e = false ->
  redisUnavailable w' = false ->
  handleRequest "POST" url body w
  = (Returns (error_response 500 (exn_message e)), w').
Proof.
  intros Hthrow Hother Hflag.
  unfold handleRequest. simpl.
  erewrite run_bind
    by (erewrite run_try_throws by exact Hthrow;
        unfold on_error;
        erewrite run_bind by (erewrite run_bind by reflexivity;
                              rewrite Hother, Hflag; reflexivity);
        reflexivity).
  reflexivity.
Qed.

(** ** The handlers on a connected process *)

Lemma on_session_found (body : jsval) (k : jsval -> gmap string value -> M response)
    (w : World) (session : gmap string value) :
  connected w -> non_nullish body = true ->
  stored w (prop body "sessionId") = Some session ->
  on_session body k w = k (prop body "sessionId") session w.
Proof.
  intros Hw Hbody Hs. unfold on_session.
  erewrite run_bind by (apply read_prop_non_nullish; exact Hbody).
  erewrite run_bind by (apply getSession_connected; exact Hw).
  now rewrite Hs.
Qed.

Lemma on_session_missing (body : jsval) (k : jsval -> gmap string value -> M response)
    (w : World) :
  connected w -> non_nullish body = true ->
  stored w (prop body "sessionId") = None ->
  on_session body k w = (Returns session_not_found, w).
Proof.
  intros Hw Hbody Hs. unfold on_session.
  erewrite run_bind by (apply read_prop_non_nullish; exact Hbody).
  erewrite run_bind by (apply getSession_connected; exact Hw).
  now rewrite Hs.
Qed.

Lemma handleJoin_on_session (body : jsval) :
  handleJoin body
  = on_session body (fun id session =>
      setSession id (join_fields session);; mret join_response).
Proof. reflexivity. Qed.

Lemma handleStart_on_session (body : jsval) :
  handleStart body
  = on_session body (fun id session =>
      now ← Date_now;
      setSession id (start_fields now session);; mret success_response).
Proof. reflexivity. Qed.

Lemma handleReset_on_session (body : jsval) :
  handleReset body
  = on_session body (fun id session =>
      now ← Date_now;
      setSession id (reset_session now session);; mret success_response).
Proof. reflexivity. Qed.

Lemma handleUpdate_on_session (body : jsval) :
  handleUpdate body
  = on_session body (fun id session =>
      setSession id (apply_update body session);; mret success_response).
Proof. reflexivity. Qed.

Lemma handleState_on_session (body : jsval) :
  handleState body
  = on_session body (fun id session =>
      if countdown_running session then
        now ← Date_now;
        session ← setSession id (resolve_countdown now session);
        mret (state_response session)
      else mret (state_response session)).
Proof. reflexivity. Qed.

(** Saving and answering, on a connected process. *)
Lemma save_and_answer (id : jsval) (session : gmap string value) (r : response)
    (w : World) :
  connected w ->
  (setSession id session;; mret r) w = (Returns r, saved id session w).
Proof.
  intros Hw.
  erewrite run_bind by (apply setSession_connected; exact Hw).
  reflexivity.
Qed.

Lemma timed_save_and_answer (id : jsval) (f : Z -> gmap string value)
    (r : response) (w : World) :
  connected w ->
  (now ← Date_now; setSession id (f now);; mret r) w
  = (Returns r, saved id (f (clock w (ticks w))) (with_ticks (S (ticks w)) w)).
Proof.
  intros Hw.
  erewrite run_bind by reflexivity.
  apply save_and_answer. now apply connected_with_ticks.
Qed.

Lemma handleJoin_found (body : jsval) (w : World) (session : gmap string value) :
  connected w -> non_nullish body = true ->
  stored w (prop body "sessionId") = Some session ->
  handleJoin body w
  = (Returns join_response, saved (prop body "sessionId") (join_fields session) w).
Proof.
  intros Hw Hbody Hs. rewrite handleJoin_on_session.
  erewrite on_session_found by eassumption.
  now apply save_and_answer.
Qed.

Lemma handleStart_found (body : jsval) (w : World) (session : gmap string value) :
  connected w -> non_nullish body = true ->
  stored w (prop body "sessionId") = Some session ->
  handleStart body w
  = (Returns success_response,
     saved (prop body "sessionId") (start_fields (clock w (ticks w)) session)
       (with_ticks (S (ticks w)) w)).
Proof.
  intros Hw Hbody Hs. rewrite handleStart_on_session.
  erewrite on_session_found by eassumption.
  now apply (timed_save_and_answer _ (fun now => start_fields now session)).
Qed.

Lemma handleReset_found (body : jsval) (w : World) (session : gmap string value) :
  connected w -> non_nullish body = true ->
  stored w (prop body "sessionId") = Some session ->
  handleReset body w
  = (Returns success_response,
     saved (prop body "sessionId") (reset_session (clock w (ticks w)) session)
       (with_ticks (S (ticks w)) w)).
Proof.
  intros Hw Hbody Hs. rewrite handleReset_on_session.
  erewrite on_session_found by eassumption.
  now apply (timed_save_and_answer _ (fun now => reset_session now session)).
Qed.

Lemma handleUpdate_found (body : jsval) (w : World) (session : gmap string value) :
  connected w -> non_nullish body = true ->
  stored w (prop body "sessionId") = Some session ->
  handleUpdate body w
  = (Returns success_response,
     saved (prop body "sessionId") (apply_update body session) w).
Proof.
  intros Hw Hbody Hs. rewrite handleUpdate_on_session.
  erewrite on_session_found by eassumption.
  now apply save_and_answer.
Qed.

Lemma handleState_idle (body : jsval) (w : World) (session : gmap string value) :
  connected w -> non_nullish body = true ->
  stored w (prop body "sessionId") = Some session ->
  countdown_running session = false ->
  handleState body w = (Returns (state_response session), w).
Proof.
  intros Hw Hbody Hs Hidle. rewrite handleState_on_session.
  erewrite on_session_found by eassumption.
  now rewrite Hidle.
Qed.

Lemma handleState_running (body : jsval) (w : World) (session : gmap string value) :
  connected w -> non_nullish body = true ->
  stored w (prop body "sessionId") = Some session ->
  countdown_running session = true ->
  let now := clock w (ticks w) in
  let w1 := with_ticks (S (ticks w)) w in
  handleState body w
  = (Returns (state_response
                (stamp (clock w1 (ticks w1)) (resolve_countdown now session))),
     saved (prop body "sessionId") (resolve_countdown now session) w1).
Proof.
  intros Hw Hbody Hs Hrun now w1. rewrite handleState_on_session.
  erewrite on_session_found by eassumption.
  rewrite Hrun.
  erewrite run_bind by reflexivity.
  erewrite run_bind
    by (apply setSession_connected; now apply connected_with_ticks).
  reflexivity.
Qed.

Lemma handleCreate_connected (w : World) :
  connected w ->
  let id := random w (draws w) ++ random w (S (draws w)) in
  let w1 := with_ticks (S (ticks w)) (with_draws (S (S (draws w))) w) in
  handleCreate w
  = (Returns (create_response id),
     saved (Some (VStr id)) (initial_session (clock w (ticks w))) w1).
Proof.
  intros Hw id w1. unfold handleCreate.
  erewrite run_bind by reflexivity.
  erewrite run_bind by reflexivity.
  apply (save_and_answer (Some (VStr id)) _ (create_response id) w1).
  exact Hw.
Qed.

(** ** Create, join and reset *)

Lemma lookup_stamp_ne (now : Z) (session : gmap string value) (k : string) :
  k <> "lastUpdate" -> stamp now session !! k = session !! k.
Proof. intros Hk. unfold stamp. now apply lookup_insert_ne. Qed.

Lemma lookup_stamp_eq (now : Z) (session : gmap string value) :
  stamp now session !! "lastUpdate" = Some (VNum (inject_Z now)).
Proof. apply lookup_insert_eq. Qed.

(** C5.  A create call generates a new identifier: it takes the next two
    draws of the generator and puts them together, and it leaves the
    generator advanced by those two draws, so that no later call is given
    them again; a second create call takes the two draws after them.  The
    store is not consulted for the identifier: the call adds a session to
    the store exactly when no session was stored under the identifier
    drawn.  The call stores a session under the identifier and returns the
    identifier with [success: true]; a state call made at once for that
    identifier returns the stored session, in which the game is not
    started, there is no winner, both scores are 0, the ball is at
    (400, 300), player 1 is connected and player 2 is not.  No session
    stored under another key is touched. *)
Theorem create_then_read_back (w : World) (request : jsval) :
  connected w ->
  non_nullish request = true ->
  prop request "sessionId"
  = Some (VStr (random w (draws w) ++ random w (S (draws w)))) ->
  let id := random w (draws w) ++ random w (S (draws w)) in
  let next := random w (S (S (draws w))) ++ random w (S (S (S (draws w)))) in
  exists w' session,
    handleCreate w = (Returns (create_response id), w')
    /\ body (create_response id)
       = Json (<["sessionId" := VStr id]> (<["success" := VBool true]> ∅))
    /\ stored w' (Some (VStr id)) = Some session
    /\ (forall id', session_key id' <> session_key (Some (VStr id)) ->
        stored w' id' = stored w id')
    /\ handleState request w' = (Returns (state_response session), w')
    /\ session !! "gameStarted" = Some (VBool false)
    /\ session !! "winner" = Some VNull
    /\ session !! "p1Score" = Some (VNum 0)
    /\ session !! "p2Score" = Some (VNum 0)
    /\ session !! "ballX" = Some (VNum 400)
    /\ session !! "ballY" = Some (VNum 300)
    /\ session !! "p1Connected" = Some (VBool true)
    /\ session !! "p2Connected" = Some (VBool false)
    /\ draws w' = S (S (draws w))
    /\ random w' = random w
    /\ (exists w'', handleCreate w' = (Returns (create_response next), w'')
                    /\ draws w'' = S (S (draws w')))
    /\ (stored w (Some (VStr id)) = None
        <-> size (store w') = S (size (store w))).
Proof.
  intros Hw Hbody Hid id next.
  pose proof (handleCreate_connected w Hw) as Hcreate. simpl in Hcreate.
  fold id in Hcreate.
  set (w1 := with_ticks (S (ticks w)) (with_draws (S (S (draws w))) w)) in *.
  set (fresh := initial_session (clock w (ticks w))) in *.
  assert (Hw' : connected (saved (Some (VStr id)) fresh w1))
    by (apply connected_saved; exact Hw).
  exists (saved (Some (VStr id)) fresh w1), (stamp (clock w1 (ticks w1)) fresh).
  split; [exact Hcreate|]. split; [reflexivity|].
  split; [apply stored_saved; json_session|].
  split; [intros id' Hne; rewrite stored_saved_ne by congruence; reflexivity|].
  split.
  { apply handleState_idle.
    + exact Hw'.
    + exact Hbody.
    + rewrite Hid. apply stored_saved. json_session.
    + reflexivity. }
  do 8 (split; [reflexivity|]).
  split; [reflexivity|]. split; [reflexivity|].
  split.
  { eexists. split; [exact (handleCreate_connected _ Hw')|reflexivity]. }
  unfold stored. rewrite store_saved, map_size_insert.
  change (store w1) with (store w).
  destruct (store w !! session_key (Some (VStr id))); simpl;
    (split; [intros H|intros H]); first [discriminate | reflexivity | lia].
Qed.

(** C8.  Join is idempotent.  On an existing session two successive join
    calls both answer 200 with [success: true, p2Connected: true]; after
    each of them the stored session has [p2Connected] true, and the session
    stored after the second call equals the one stored after the first in
    every field but [lastUpdate]. *)
Theorem join_idempotent (request : jsval) (w : World) (session : gmap string value) :
  connected w ->
  non_nullish request = true ->
  stored w (prop request "sessionId") = Some session ->
  exists w1 w2 s1 s2,
    handleJoin request w = (Returns join_response, w1)
    /\ handleJoin request w1 = (Returns join_response, w2)
    /\ statusCode join_response = 200%Z
    /\ body join_response
       = Json (<["success" := VBool true]> (<["p2Connected" := VBool true]> ∅))
    /\ stored w1 (prop request "sessionId") = Some s1
    /\ stored w2 (prop request "sessionId") = Some s2
    /\ s1 !! "p2Connected" = Some (VBool true)
    /\ s2 !! "p2Connected" = Some (VBool true)
    /\ (forall k, k <> "lastUpdate" -> s2 !! k = s1 !! k).
Proof.
  intros Hw Hbody Hs.
  set (id := prop request "sessionId") in *.
  set (s1 := stamp (clock w (ticks w)) (join_fields session)).
  set (w1 := saved id (join_fields session) w).
  assert (Hw1 : connected w1) by now apply connected_saved.
  assert (Hs1 : stored w1 id = Some s1) by (apply stored_saved; json_session).
  exists w1, (saved id (join_fields s1) w1), s1,
    (stamp (clock w1 (ticks w1)) (join_fields s1)).
  split; [now apply handleJoin_found|].
  split; [now apply handleJoin_found|].
  split; [reflexivity|]. split; [reflexivity|].
  split; [exact Hs1|]. split; [apply stored_saved; json_session|].
  assert (Hjoined : forall now s,
            stamp now (join_fields s) !! "p2Connected" = Some (VBool true)).
  { intros now s. rewrite lookup_stamp_ne by discriminate.
    apply lookup_insert_eq. }
  split; [apply Hjoined|]. split; [apply Hjoined|].
  intros k Hk. rewrite lookup_stamp_ne by exact Hk.
  unfold join_fields.
  destruct (decide (k = "p2Connected")) as [->|Hk2].
  - rewrite lookup_insert_eq. symmetry. apply Hjoined.
  - now rewrite lookup_insert_ne by congruence.
Qed.

(** C6.  Reset, on an existing session, gives the ball position, the ball
    velocity, the speed multiplier, both scores, the winner and
    [gameStarted] the values a created session has, arms the countdown
    ([countdownActive] true, [countdownValue] 3, [countdownStartTime] the
    clock reading of the call), clears [readyToStart], and stores the
    result under the identifier of the session. *)
Theorem reset_restores_initial (body : jsval) (w : World)
    (session : gmap string value) :
  connected w ->
  non_nullish body = true ->
  stored w (prop body "sessionId") = Some session ->
  exists w' session',
    handleReset body w = (Returns success_response, w')
    /\ stored w' (prop body "sessionId") = Some session'
    /\ (forall k,
         k ∈ ["ballX"; "ballY"; "ballVelX"; "ballVelY"; "ballSpeedMultiplier";
              "p1Score"; "p2Score"; "winner"; "gameStarted"] ->
         session' !! k = initial_session 0 !! k)
    /\ session' !! "ballX" = Some (VNum 400)
    /\ session' !! "ballY" = Some (VNum 300)
    /\ session' !! "ballVelX" = Some (VNum 10)
    /\ session' !! "ballVelY" = Some (VNum 7.5)
    /\ session' !! "ballSpeedMultiplier" = Some (VNum 1)
    /\ session' !! "p1Score" = Some (VNum 0)
    /\ session' !! "p2Score" = Some (VNum 0)
    /\ session' !! "winner" = Some VNull
    /\ session' !! "gameStarted" = Some (VBool false)
    /\ session' !! "countdownActive" = Some (VBool true)
    /\ session' !! "countdownValue" = Some (VNum 3)
    /\ session' !! "countdownStartTime" = Some (VNum (inject_Z (clock w (ticks w))))
    /\ session' !! "readyToStart" = Some (VBool false).
Proof.
  intros Hw Hbody Hs.
  set (w1 := with_ticks (S (ticks w)) w).
  set (session1 := reset_session (clock w (ticks w)) session).
  exists (saved (prop body "sessionId") session1 w1),
    (stamp (clock w1 (ticks w1)) session1).
  split; [now apply handleReset_found|].
  split; [apply stored_saved; json_session|].
  assert (Hreset :
    session1 !! "ballX" = Some (VNum 400)
    /\ session1 !! "ballY" = Some (VNum 300)
    /\ session1 !! "ballVelX" = Some (VNum 10)
    /\ session1 !! "ballVelY" = Some (VNum 7.5)
    /\ session1 !! "ballSpeedMultiplier" = Some (VNum 1)
    /\ session1 !! "p1Score" = Some (VNum 0)
    /\ session1 !! "p2Score" = Some (VNum 0)
    /\ session1 !! "winner" = Some VNull
    /\ session1 !! "gameStarted" = Some (VBool false)
    /\ session1 !! "countdownActive" = Some (VBool true)
    /\ session1 !! "countdownValue" = Some (VNum 3)
    /\ session1 !! "countdownStartTime"
       = Some (VNum (inject_Z (clock w (ticks w))))
    /\ session1 !! "readyToStart" = Some (VBool false)).
  { unfold session1, reset_session, reset_fields.
    repeat split; simplify_map_eq; reflexivity. }
  destruct Hreset as (H1 & H2 & H3 & H4 & H5 & H6 & H7 & H8 & H9 & H10 & H11
                      & H12 & H13).
  split.
  { intros k Hin.
    repeat (apply elem_of_cons in Hin as [->|Hin];
            [rewrite lookup_stamp_ne by discriminate; etrans;
             [eassumption|reflexivity]|]).
    now apply elem_of_nil in Hin. }
  repeat split; (rewrite lookup_stamp_ne by discriminate; assumption).
Qed.

(** ** Update *)

Lemma lookup_set_prop_eq (k : string) (x : jsval) (session : gmap string value) :
  set_prop k x session !! k = x.
Proof.
  destruct x; simpl; [apply lookup_insert_eq | apply lookup_delete_eq].
Qed.

Lemma lookup_set_prop_ne (k j : string) (x : jsval) (session : gmap string value) :
  k <> j -> set_prop k x session !! j = session !! j.
Proof.
  intros Hne.
  destruct x; simpl; [now apply lookup_insert_ne | now apply lookup_delete_ne].
Qed.

Lemma lookup_update_field_eq (k : string) (body : jsval)
    (session : gmap string value) :
  update_field k body session !! k = patched (prop body k) (session !! k).
Proof.
  unfold update_field. destruct (prop body k) as [v|] eqn:Hv; simpl.
  - apply lookup_insert_eq.
  - reflexivity.
Qed.

Lemma lookup_update_field_ne (k j : string) (body : jsval)
    (session : gmap string value) :
  k <> j -> update_field k body session !! j = session !! j.
Proof.
  intros Hne. unfold update_field.
  destruct (defined (prop body k)); [now apply lookup_set_prop_ne | reflexivity].
Qed.

Lemma lookup_update_paddle_ne (j : string) (body : jsval)
    (session : gmap string value) :
  j <> "p1Y" -> j <> "p2Y" -> update_paddle body session !! j = session !! j.
Proof.
  intros H1 H2. unfold update_paddle.
  destruct (_ && _); [now apply lookup_set_prop_ne|].
  destruct (_ && _); [now apply lookup_set_prop_ne | reflexivity].
Qed.

Lemma lookup_update_paddle_p1Y (body : jsval) (session : gmap string value) :
  update_paddle body session !! "p1Y"
  = if strict_eq_num (prop body "player") 1 && defined (prop body "paddleY")
    then prop body "paddleY" else session !! "p1Y".
Proof.
  unfold update_paddle.
  destruct (strict_eq_num (prop body "player") 1 && defined (prop body "paddleY")).
  - apply lookup_set_prop_eq.
  - destruct (_ && _); [now apply lookup_set_prop_ne | reflexivity].
Qed.

Lemma lookup_update_paddle_p2Y (body : jsval) (session : gmap string value) :
  update_paddle body session !! "p2Y"
  = if strict_eq_num (prop body "player") 1 && defined (prop body "paddleY")
    then session !! "p2Y"
    else if strict_eq_num (prop body "player") 2 && defined (prop body "paddleY")
    then prop body "paddleY" else session !! "p2Y".
Proof.
  unfold update_paddle.
  destruct (strict_eq_num (prop body "player") 1 && defined (prop body "paddleY")).
  - now apply lookup_set_prop_ne.
  - destruct (_ && _); [apply lookup_set_prop_eq | reflexivity].
Qed.

Lemma update_ball_absent (body : jsval) (session : gmap string value) :
  prop body "ballX" = None -> update_ball body session = session.
Proof. intros Hx. unfold update_ball. now rewrite Hx. Qed.

Lemma lookup_update_ball_ne (j : string) (body : jsval)
    (session : gmap string value) :
  j <> "ballX" -> j <> "ballY" -> j <> "ballVelX" -> j <> "ballVelY" ->
  update_ball body session !! j = session !! j.
Proof.
  intros H1 H2 H3 H4. unfold update_ball.
  destruct (defined (prop body "ballX")); [|reflexivity].
  now rewrite !lookup_set_prop_ne by congruence.
Qed.

(** When the body carries [ballX], each of the four ball fields takes what
    the body has under its name. *)
Lemma lookup_update_ball_present (k : string) (body : jsval)
    (session : gmap string value) :
  defined (prop body "ballX") = true ->
  k ∈ ["ballX"; "ballY"; "ballVelX"; "ballVelY"] ->
  update_ball body session !! k = prop body k.
Proof.
  intros Hx Hin. unfold update_ball. rewrite Hx.
  repeat (apply elem_of_cons in Hin as [->|Hin];
          [rewrite ?lookup_set_prop_ne by discriminate;
           apply lookup_set_prop_eq|]).
  now apply elem_of_nil in Hin.
Qed.

Lemma lookup_update_countdownActive_ne (j : string) (body : jsval)
    (session : gmap string value) :
  j <> "countdownActive" -> j <> "readyToStart" ->
  update_countdownActive body session !! j = session !! j.
Proof.
  intros H1 H2. unfold update_countdownActive.
  destruct (defined (prop body "countdownActive")); [|reflexivity].
  destruct (_ && _).
  - rewrite lookup_insert_ne by congruence. now apply lookup_set_prop_ne.
  - now apply lookup_set_prop_ne.
Qed.

Lemma lookup_update_countdownActive_eq (body : jsval)
    (session : gmap string value) :
  update_countdownActive body session !! "countdownActive"
  = patched (prop body "countdownActive") (session !! "countdownActive").
Proof.
  unfold update_countdownActive.
  destruct (prop body "countdownActive") as [v|] eqn:Hv; simpl; [|reflexivity].
  destruct (_ && _).
  - rewrite lookup_insert_ne by discriminate. apply lookup_insert_eq.
  - apply lookup_insert_eq.
Qed.

(** The special rule of [handleUpdate]: [countdownActive: false] together
    with [countdownValue: 0] raises [readyToStart]. *)
Lemma lookup_update_countdownActive_ready (body : jsval)
    (session : gmap string value) :
  update_countdownActive body session !! "readyToStart"
  = if strict_eq_bool (prop body "countdownActive") false
       && strict_eq_num (prop body "countdownValue") 0
    then Some (VBool true) else session !! "readyToStart".
Proof.
  unfold update_countdownActive.
  destruct (prop body "countdownActive") as [v|] eqn:Hv; simpl; [|reflexivity].
  destruct (_ && _).
  - apply lookup_insert_eq.
  - now rewrite lookup_insert_ne by discriminate.
Qed.

(** [update] writes no field but the paddles, the ball, and the eight
    fields it patches by name. *)
Lemma lookup_apply_update_other (j : string) (body : jsval)
    (session : gmap string value) :
  j ∉ ["p1Y"; "p2Y"; "ballX"; "ballY"; "ballVelX"; "ballVelY";
       "ballSpeedMultiplier"; "p1Score"; "p2Score"; "winner";
       "countdownActive"; "countdownValue"; "gameStarted"; "readyToStart"] ->
  apply_update body session !! j = session !! j.
Proof.
  intros Hj. unfold apply_update.
  repeat (apply not_elem_of_cons in Hj as [? Hj]).
  rewrite !lookup_update_field_ne by congruence.
  rewrite lookup_update_countdownActive_ne by congruence.
  rewrite !lookup_update_field_ne by congruence.
  rewrite lookup_update_ball_ne by congruence.
  now apply lookup_update_paddle_ne.
Qed.

Lemma apply_update_paddle2 (sessionId : value) (session : gmap string value) :
  apply_update (paddle2_body sessionId) session = <["p2Y" := VNum 150]> session.
Proof. reflexivity. Qed.

(** C7.  An update whose body is exactly
    [{ sessionId, player: 2, paddleY: 150 }] stores, for an existing
    session, a session whose [p2Y] is 150 and whose [lastUpdate] is the
    clock reading of the write; every other field, present or absent, is
    as it was before the call. *)
Theorem paddle_update_frame (sessionId : value) (w : World)
    (session : gmap string value) :
  connected w ->
  stored w (Some sessionId) = Some session ->
  exists w' session',
    handleUpdate (paddle2_body sessionId) w = (Returns success_response, w')
    /\ stored w' (Some sessionId) = Some session'
    /\ session' !! "p2Y" = Some (VNum 150)
    /\ session' !! "lastUpdate" = Some (VNum (inject_Z (clock w (ticks w))))
    /\ (forall k, k <> "p2Y" -> k <> "lastUpdate" -> session' !! k = session !! k).
Proof.
  intros Hw Hs.
  assert (Hid : prop (paddle2_body sessionId) "sessionId" = Some sessionId)
    by reflexivity.
  assert (Hbody : non_nullish (paddle2_body sessionId) = true) by reflexivity.
  rewrite <- Hid in Hs.
  pose proof (handleUpdate_found _ w session Hw Hbody Hs) as Hrun.
  rewrite Hid, apply_update_paddle2 in Hrun.
  eexists _, _. split; [exact Hrun|].
  split; [apply stored_saved; json_session|].
  split; [|split].
  - rewrite lookup_stamp_ne by discriminate. apply lookup_insert_eq.
  - apply lookup_stamp_eq.
  - intros k Hk Hlu. rewrite lookup_stamp_ne by exact Hlu.
    now apply lookup_insert_ne.
Qed.

(** Pushes a lookup through the assignments of [apply_update]. *)
Ltac update_lookup :=
  unfold apply_update;
  repeat first
    [ rewrite lookup_stamp_ne by discriminate
    | rewrite lookup_update_field_eq
    | rewrite lookup_update_field_ne by discriminate
    | rewrite lookup_update_countdownActive_eq
    | rewrite lookup_update_countdownActive_ready
    | rewrite lookup_update_countdownActive_ne by discriminate
    | rewrite lookup_update_ball_ne by discriminate
    | rewrite lookup_update_paddle_p1Y
    | rewrite lookup_update_paddle_p2Y
    | rewrite lookup_update_paddle_ne by discriminate ].

(** C3, as the code has it.  For an existing session and any update body,
    a value being stored as [JSON.stringify] writes it (a boolean, a
    string, a finite number or [null] as it is supplied, an infinite number
    as [null]):
    - each of [ballSpeedMultiplier], [p1Score], [p2Score], [winner],
      [countdownActive], [countdownValue] and [gameStarted] takes the value
      the body has under that name, and is untouched when the body has
      none;
    - [readyToStart] does the same, except that without a value of its own
      in the body it is set to true by [countdownActive: false] together
      with [countdownValue: 0];
    - the four ball fields are written as a group guarded by [ballX]: when
      the body has no [ballX] none of them changes, and when it has one each
      of them that the body carries takes the value of the body;
    - [p1Y] (for [player: 1]) or [p2Y] (for [player: 2]) takes
      [body.paddleY];
    - no other field changes, but for [lastUpdate];
    and when no countdown is running in the stored session, the next state
    call returns exactly that session. *)
Theorem update_patch_and_round_trip (request : jsval) (w : World)
    (session : gmap string value) :
  connected w ->
  non_nullish request = true ->
  stored w (prop request "sessionId") = Some session ->
  exists w' session',
    handleUpdate request w = (Returns success_response, w')
    /\ stored w' (prop request "sessionId") = Some session'
    /\ (forall k,
         k ∈ ["ballSpeedMultiplier"; "p1Score"; "p2Score"; "winner";
              "countdownActive"; "countdownValue"; "gameStarted"] ->
         session' !! k = patched (json_value <$> prop request k) (session !! k))
    /\ (forall k v,
         k ∈ ["ballSpeedMultiplier"; "p1Score"; "p2Score"; "winner";
              "countdownActive"; "countdownValue"; "gameStarted"] ->
         prop request k = Some v ->
         (json_value v = v -> session' !! k = Some v)
         /\ (forall negative, v = VInf negative -> session' !! k = Some VNull))
    /\ session' !! "readyToStart"
       = patched (json_value <$> prop request "readyToStart")
           (if strict_eq_bool (prop request "countdownActive") false
               && strict_eq_num (prop request "countdownValue") 0
            then Some (VBool true) else session !! "readyToStart")
    /\ (prop request "ballX" = None ->
        forall k, k ∈ ["ballX"; "ballY"; "ballVelX"; "ballVelY"] ->
                  session' !! k = session !! k)
    /\ (defined (prop request "ballX") = true ->
        forall k v, k ∈ ["ballX"; "ballY"; "ballVelX"; "ballVelY"] ->
                    prop request k = Some v -> session' !! k = Some (json_value v))
    /\ session' !! "p1Y"
       = (if strict_eq_num (prop request "player") 1
             && defined (prop request "paddleY")
          then json_value <$> prop request "paddleY" else session !! "p1Y")
    /\ session' !! "p2Y"
       = (if strict_eq_num (prop request "player") 1
             && defined (prop request "paddleY")
          then session !! "p2Y"
          else if strict_eq_num (prop request "player") 2
                  && defined (prop request "paddleY")
          then json_value <$> prop request "paddleY" else session !! "p2Y")
    /\ (forall k,
         k ∉ ["p1Y"; "p2Y"; "ballX"; "ballY"; "ballVelX"; "ballVelY";
              "ballSpeedMultiplier"; "p1Score"; "p2Score"; "winner";
              "countdownActive"; "countdownValue"; "gameStarted";
              "readyToStart"] ->
         k <> "lastUpdate" -> session' !! k = session !! k)
    /\ (countdown_running session' = false ->
        forall request',
          non_nullish request' = true ->
          prop request' "sessionId" = prop request "sessionId" ->
          handleState request' w' = (Returns (state_response session'), w')).
Proof.
  intros Hw Hbody Hs.
  pose proof (stored_is_json _ _ _ Hs) as Hj.
  set (id := prop request "sessionId") in *.
  set (updated := stamp (clock w (ticks w)) (apply_update request session)).
  exists (saved id (apply_update request session) w), (JSON_stringify updated).
  split; [now apply handleUpdate_found|].
  split; [apply stored_saved_json|].
  assert (Hold : forall k, json_value <$> (session !! k) = session !! k)
    by (intros k; now apply is_json_lookup).
  assert (Hpatched : forall x k,
            json_value <$> patched x (session !! k)
            = patched (json_value <$> x) (session !! k)).
  { intros [v|] k; simpl; [reflexivity|apply Hold]. }
  assert (Hnamed : forall k,
            k ∈ ["ballSpeedMultiplier"; "p1Score"; "p2Score"; "winner";
                 "countdownActive"; "countdownValue"; "gameStarted"] ->
            JSON_stringify updated !! k
            = patched (json_value <$> prop request k) (session !! k)).
  { intros k Hin. rewrite lookup_JSON_stringify. unfold updated.
    repeat (apply elem_of_cons in Hin as [->|Hin];
            [update_lookup; apply Hpatched|]).
    now apply elem_of_nil in Hin. }
  split; [exact Hnamed|].
  split.
  { intros k v Hin Hv. rewrite (Hnamed k Hin), Hv. simpl.
    split; [now intros ->|now intros negative ->]. }
  split.
  { rewrite lookup_JSON_stringify. unfold updated. update_lookup.
    destruct (prop request "readyToStart"); simpl; [reflexivity|].
    destruct (_ && _); [reflexivity|apply Hold]. }
  split.
  { intros Hx k Hin. rewrite lookup_JSON_stringify. unfold updated.
    rewrite lookup_stamp_ne.
    2:{ intros ->. repeat (apply elem_of_cons in Hin as [Hin|Hin]; [discriminate|]).
        now apply elem_of_nil in Hin. }
    unfold apply_update. rewrite (update_ball_absent _ _ Hx).
    repeat (apply elem_of_cons in Hin as [->|Hin]; [update_lookup; apply Hold|]).
    now apply elem_of_nil in Hin. }
  split.
  { intros Hx k v Hin Hv. rewrite lookup_JSON_stringify. unfold updated.
    assert (Hball : update_ball request (update_paddle request session) !! k
                    = prop request k)
      by now apply lookup_update_ball_present.
    rewrite Hv in Hball.
    repeat (apply elem_of_cons in Hin as [->|Hin];
            [update_lookup; now rewrite Hball|]).
    now apply elem_of_nil in Hin. }
  split.
  { rewrite lookup_JSON_stringify. unfold updated. update_lookup.
    destruct (_ && _); [reflexivity|apply Hold]. }
  split.
  { rewrite lookup_JSON_stringify. unfold updated. update_lookup.
    destruct (_ && _); [apply Hold|].
    destruct (_ && _); [reflexivity|apply Hold]. }
  split.
  { intros k Hk Hlu. rewrite lookup_JSON_stringify. unfold updated.
    rewrite lookup_stamp_ne by exact Hlu.
    rewrite lookup_apply_update_other by exact Hk. apply Hold. }
  intros Hidle request' Hbody' Hid'.
  apply handleState_idle;
    [now apply connected_saved | exact Hbody'
    | rewrite Hid'; apply stored_saved_json | exact Hidle].
Qed.

(** ** State and the countdown *)

Lemma newCountdownValue_max (s : Z) :
  newCountdownValue (Seconds s) = Some (Z.max 0 (3 - s)).
Proof.
  unfold newCountdownValue.
  destruct (Z.leb_spec 3 s); f_equal; lia.
Qed.

Lemma newCountdownValue_numeric (now : Z) (start : Q) :
  newCountdownValue (secondsElapsed now (Some (VNum start)))
  = Some (remaining_seconds now start).
Proof. unfold secondsElapsed. simpl. apply newCountdownValue_max. Qed.

Lemma remaining_seconds_nonneg (now : Z) (start : Q) :
  (0 <= remaining_seconds now start)%Z.
Proof. unfold remaining_seconds. lia. Qed.

Lemma truthy_number (q : Q) : ~ (q == 0)%Q -> truthy (Some (VNum q)) = true.
Proof.
  intros Hq. simpl. destruct (Qeq_bool q 0) eqn:E; [|reflexivity].
  apply Qeq_bool_eq in E. contradiction.
Qed.

(** The countdown block on a session whose anchor is a number: what it
    leaves in the four fields it may write, and that it writes no other. *)
Lemma resolve_countdown_numeric (now : Z) (start : Q)
    (session : gmap string value) :
  session !! "countdownStartTime" = Some (VNum start) ->
  let remaining := remaining_seconds now start in
  let session' := resolve_countdown now session in
  (exists q, session' !! "countdownValue" = Some (VNum q)
             /\ (q == inject_Z remaining)%Q)
  /\ (remaining = 0%Z ->
      session' !! "countdownActive" = Some (VBool false)
      /\ session' !! "readyToStart" = Some (VBool true)
      /\ session' !! "countdownStartTime" = Some VNull)
  /\ (remaining <> 0%Z ->
      session' !! "countdownActive" = session !! "countdownActive"
      /\ session' !! "readyToStart" = session !! "readyToStart"
      /\ session' !! "countdownStartTime" = session !! "countdownStartTime")
  /\ (forall k,
        k ∉ ["countdownValue"; "countdownActive"; "readyToStart";
             "countdownStartTime"] ->
        session' !! k = session !! k).
Proof.
  intros Hstart remaining session'.
  unfold session', resolve_countdown.
  rewrite Hstart, newCountdownValue_numeric. fold remaining.
  set (valued := if strict_neq_number (Some remaining) (session !! "countdownValue")
                 then <["countdownValue" := json_of_number (Some remaining)]> session
                 else session).
  assert (Hvalue : exists q, valued !! "countdownValue" = Some (VNum q)
                             /\ (q == inject_Z remaining)%Q).
  { unfold valued, strict_neq_number, strict_eq_num.
    destruct (session !! "countdownValue") as [[| |q| | | |]|] eqn:Hcv; simpl;
      try (eexists; split; [apply lookup_insert_eq|reflexivity]).
    destruct (Qeq_bool q (inject_Z remaining)) eqn:E; simpl.
    - exists q. split; [exact Hcv|]. now apply Qeq_bool_eq.
    - eexists; split; [apply lookup_insert_eq|reflexivity]. }
  assert (Hother : forall k, k <> "countdownValue" -> valued !! k = session !! k).
  { intros k Hk. unfold valued.
    destruct (strict_neq_number _ _); [now apply lookup_insert_ne|reflexivity]. }
  unfold is_zero. destruct (Z.eqb_spec remaining 0) as [Hz|Hz].
  - split; [|split; [|split; [|]]].
    + now rewrite !lookup_insert_ne by discriminate.
    + intros _. repeat split; simplify_map_eq; reflexivity.
    + intros Hnz. contradiction.
    + intros k Hk. repeat (apply not_elem_of_cons in Hk as [? Hk]).
      rewrite !lookup_insert_ne by congruence. now apply Hother.
  - split; [exact Hvalue|]. split; [intros Hzero; contradiction|].
    split.
    + intros _. rewrite !Hother by discriminate. repeat split; auto.
    + intros k Hk. apply not_elem_of_cons in Hk as [? Hk]. now apply Hother.
Qed.

(** C1.  On a session whose [countdownActive] is true and whose
    [countdownStartTime] is a timestamp, the state call recomputes
    [countdownValue] as [max(0, 3 - floor((now - countdownStartTime)/1000))]
    for the clock reading [now] of the call, a number that is never
    negative; when that number is 0 it sets [countdownActive] to false,
    [readyToStart] to true and [countdownStartTime] to null; and the
    session it returns is the session it has stored. *)
Theorem state_resolves_countdown (request : jsval) (w : World)
    (session : gmap string value) (start : Q) :
  connected w ->
  non_nullish request = true ->
  stored w (prop request "sessionId") = Some session ->
  truthy (session !! "countdownActive") = true ->
  session !! "countdownStartTime" = Some (VNum start) ->
  ~ (start == 0)%Q ->
  let remaining := remaining_seconds (clock w (ticks w)) start in
  exists w' session',
    handleState request w = (Returns (state_response session'), w')
    /\ stored w' (prop request "sessionId") = Some session'
    /\ (exists q, session' !! "countdownValue" = Some (VNum q)
                  /\ (q == inject_Z remaining)%Q /\ (0 <= q)%Q)
    /\ (remaining = 0%Z ->
        session' !! "countdownActive" = Some (VBool false)
        /\ session' !! "readyToStart" = Some (VBool true)
        /\ session' !! "countdownStartTime" = Some VNull)
    /\ (remaining <> 0%Z ->
        session' !! "countdownActive" = session !! "countdownActive"
        /\ session' !! "readyToStart" = session !! "readyToStart"
        /\ session' !! "countdownStartTime" = session !! "countdownStartTime")
    /\ (forall k,
          k ∉ ["countdownValue"; "countdownActive"; "readyToStart";
               "countdownStartTime"; "lastUpdate"] ->
          session' !! k = session !! k).
Proof.
  intros Hw Hbody Hs Hactive Hstart Hnonzero remaining.
  assert (Hrun : countdown_running session = true).
  { unfold countdown_running. rewrite Hactive, Hstart.
    now rewrite truthy_number. }
  pose proof (handleState_running request w session Hw Hbody Hs Hrun) as Hstate.
  simpl in Hstate.
  destruct (resolve_countdown_numeric (clock w (ticks w)) start session Hstart)
    as ((q & Hq & Hqeq) & Hzero & Hnz & Hframe).
  fold remaining in Hqeq, Hzero, Hnz.
  eexists _, _. split; [exact Hstate|].
  split; [apply stored_saved; json_session|].
  split.
  { exists q. split; [now rewrite lookup_stamp_ne by discriminate|].
    split; [exact Hqeq|].
    rewrite Hqeq. change 0%Q with (inject_Z 0). rewrite <- Zle_Qle.
    apply remaining_seconds_nonneg. }
  split.
  { intros Hz. destruct (Hzero Hz) as (Ha & Hr & Ht).
    now rewrite !lookup_stamp_ne by discriminate. }
  split.
  { intros Hz. destruct (Hnz Hz) as (Ha & Hr & Ht).
    now rewrite !lookup_stamp_ne by discriminate. }
  intros k Hk.
  apply not_elem_of_cons in Hk as [H1 Hk].
  apply not_elem_of_cons in Hk as [H2 Hk].
  apply not_elem_of_cons in Hk as [H3 Hk].
  apply not_elem_of_cons in Hk as [H4 Hk].
  apply not_elem_of_cons in Hk as [H5 _].
  rewrite lookup_stamp_ne by exact H5.
  apply Hframe.
  repeat (apply not_elem_of_cons; split; [assumption|]).
  apply not_elem_of_nil.
Qed.

(** ** Invariants of the stored sessions *)

Section Keeps.
Variable Q : gmap string value -> Prop.

(** [Q] holds of the text of a session of which it holds. *)
Hypothesis Q_json : forall session, Q session -> Q (JSON_stringify session).

Lemma keeps_ret {A} (a : A) (post : A -> Prop) :
  post a -> keeps Q (mret a : M A) post.
Proof.
  intros Hpost w Hinv. split; [exact Hinv|].
  intros a' Ha. inversion Ha. now subst.
Qed.

Lemma keeps_throw {A} (e : exn) (post : A -> Prop) :
  keeps Q (throw e : M A) post.
Proof. intros w Hinv. split; [exact Hinv|]. intros a Ha. inversion Ha. Qed.

Lemma keeps_bind {A B} (c : M A) (k : A -> M B) (mid : A -> Prop)
    (post : B -> Prop) :
  keeps Q c mid -> (forall a, mid a -> keeps Q (k a) post) ->
  keeps Q (c ≫= k) post.
Proof.
  intros Hc Hk w Hinv.
  destruct (Hc w Hinv) as [Hstore Hres].
  unfold world_after, result_of, mbind, M_bind, bind in *.
  destruct (c w) as [[a|e|] w1]; simpl in *.
  - apply (Hk a (Hres a eq_refl) w1 Hstore).
  - split; [exact Hstore|]. intros b Hb. inversion Hb.
  - split; [exact Hstore|]. intros b Hb. inversion Hb.
Qed.

Lemma keeps_weaken {A} (c : M A) (post post' : A -> Prop) :
  keeps Q c post -> (forall a, post a -> post' a) -> keeps Q c post'.
Proof.
  intros Hc Himp w Hinv. destruct (Hc w Hinv) as [Hstore Hres].
  split; [exact Hstore|]. intros a Ha. apply Himp. now apply Hres.
Qed.

(** A computation that leaves the store as it is. *)
Lemma keeps_store_unchanged {A} (c : M A) :
  (forall w, store (world_after c w) = store w) ->
  keeps Q c (fun _ => True).
Proof.
  intros Hsame w Hinv. split; [|trivial].
  intros key session. rewrite Hsame. apply Hinv.
Qed.

Lemma keeps_Date_now : keeps Q Date_now (fun _ => True).
Proof. now apply keeps_store_unchanged. Qed.

Lemma keeps_generateSessionId : keeps Q generateSessionId (fun _ => True).
Proof. now apply keeps_store_unchanged. Qed.

Lemma keeps_getRedisClient : keeps Q getRedisClient (fun _ => True).
Proof.
  apply keeps_store_unchanged. intros w. unfold world_after.
  destruct (getRedisClient_cases w)
    as [(w' & Hget & _ & Hst & _) | [(m & w' & Hget & _ & Hst & _)
                                   | (w' & Hget & _ & Hst & _)]];
    now rewrite Hget.
Qed.

Lemma keeps_read_prop (body : jsval) (k : string) :
  keeps Q (read_prop body k) (fun _ => True).
Proof.
  destruct body as [[]|]; simpl;
    first [apply keeps_throw | now apply keeps_ret].
Qed.

(** What [getSession] finds is a stored session. *)
Lemma keeps_getSession (id : jsval) :
  keeps Q (getSession id) (fun found => forall session, found = Some session -> Q session).
Proof.
  unfold getSession.
  eapply keeps_bind; [apply keeps_getRedisClient|]. intros _ _.
  intros w Hinv. split; [exact Hinv|].
  intros found Hfound. inversion Hfound. subst.
  intros session Hsession.
  destruct (store w !! session_key id) as [text|] eqn:Htext; [|discriminate].
  inversion Hsession. subst. apply Q_json. eapply Hinv. exact Htext.
Qed.

Lemma keeps_setSession (id : jsval) (session : gmap string value) :
  (forall now, Q (stamp now session)) ->
  keeps Q (setSession id session) (fun _ => True).
Proof.
  intros Hq. unfold setSession.
  eapply keeps_bind; [apply keeps_getRedisClient|]. intros _ _.
  eapply keeps_bind; [apply keeps_Date_now|]. intros now _.
  intros w Hinv. split; [|trivial].
  intros key s. unfold world_after. simpl.
  destruct (decide (session_key id = key)) as [<-|Hne].
  - rewrite lookup_insert_eq. intros [= <-]. apply Q_json, Hq.
  - rewrite lookup_insert_ne by exact Hne. apply Hinv.
Qed.

(** A handler of the shape [on_session] keeps [Q] when its continuation
    does on every session that satisfies [Q]. *)
Lemma keeps_on_session (body : jsval)
    (k : jsval -> gmap string value -> M response) :
  (forall id session, Q session -> keeps Q (k id session) (fun _ => True)) ->
  keeps Q (on_session body k) (fun _ => True).
Proof.
  intros Hk. unfold on_session.
  eapply keeps_bind; [apply keeps_read_prop|]. intros id _.
  eapply keeps_bind; [apply keeps_getSession|]. intros [session|] Hfound.
  - apply Hk. now apply Hfound.
  - now apply keeps_ret.
Qed.

Lemma keeps_save_and_answer (id : jsval) (session : gmap string value)
    (r : response) :
  (forall now, Q (stamp now session)) ->
  keeps Q (setSession id session;; mret r) (fun _ => True).
Proof.
  intros Hq. eapply keeps_bind; [now apply keeps_setSession|].
  intros _ _. now apply keeps_ret.
Qed.

End Keeps.

(** [resolve_countdown] writes the four countdown fields only, whatever the
    session holds. *)
Lemma lookup_resolve_countdown_other (now : Z) (session : gmap string value)
    (k : string) :
  k ∉ ["countdownValue"; "countdownActive"; "readyToStart";
       "countdownStartTime"] ->
  resolve_countdown now session !! k = session !! k.
Proof.
  intros Hk. repeat (apply not_elem_of_cons in Hk as [? Hk]).
  unfold resolve_countdown.
  destruct (is_zero _).
  - rewrite !lookup_insert_ne by congruence.
    destruct (strict_neq_number _ _);
      [now rewrite lookup_insert_ne by congruence | reflexivity].
  - destruct (strict_neq_number _ _);
      [now rewrite lookup_insert_ne by congruence | reflexivity].
Qed.

(** ** The winner *)

Lemma winner_justified_agree (session session' : gmap string value) :
  session' !! "winner" = session !! "winner" ->
  session' !! "p1Score" = session !! "p1Score" ->
  session' !! "p2Score" = session !! "p2Score" ->
  winner_justified session -> winner_justified session'.
Proof.
  unfold winner_justified, has_winner.
  intros -> -> ->. auto.
Qed.

Lemma winner_justified_null (session : gmap string value) :
  session !! "winner" = Some VNull -> winner_justified session.
Proof.
  intros Hnull (v & Hv & Hne). rewrite Hnull in Hv.
  inversion Hv. subst v. now destruct Hne.
Qed.

Lemma winner_justified_stamp (now : Z) (session : gmap string value) :
  winner_justified session -> winner_justified (stamp now session).
Proof.
  apply winner_justified_agree; now rewrite lookup_stamp_ne by discriminate.
Qed.

Lemma winner_justified_update (body : jsval) (session : gmap string value) :
  client_shaped body ->
  winner_justified session -> winner_justified (apply_update body session).
Proof.
  intros Hshape Hj.
  assert (Hw : apply_update body session !! "winner"
               = patched (prop body "winner") (session !! "winner"))
    by (update_lookup; reflexivity).
  assert (H1 : apply_update body session !! "p1Score"
               = patched (prop body "p1Score") (session !! "p1Score"))
    by (update_lookup; reflexivity).
  assert (H2 : apply_update body session !! "p2Score"
               = patched (prop body "p2Score") (session !! "p2Score"))
    by (update_lookup; reflexivity).
  destruct Hshape as [(Hnw & Hn1 & Hn2) | (v & Hv & Hscore)].
  - rewrite Hnw in Hw. rewrite Hn1 in H1. rewrite Hn2 in H2.
    now apply (winner_justified_agree session).
  - rewrite Hv in Hw. simpl in Hw.
    intros (v' & Hv' & Hne). rewrite Hw in Hv'. inversion Hv'. subst v'.
    rewrite H1, H2.
    destruct (Hscore Hne) as [(q & Hq & Hle) | (q & Hq & Hle)].
    + left. exists q. rewrite Hq. now split.
    + right. exists q. rewrite Hq. now split.
Qed.

(** The text of a session has a winner only where the session has one, and
    has the finite scores of the session. *)
Lemma winner_justified_json (session : gmap string value) :
  winner_justified session -> winner_justified (JSON_stringify session).
Proof.
  intros Hj (v & Hv & Hne). rewrite lookup_JSON_stringify in Hv.
  destruct (session !! "winner") as [v0|] eqn:Hw; [|discriminate].
  simpl in Hv. inversion Hv. subst v.
  assert (Hhas : has_winner session).
  { exists v0. split; [exact Hw|]. intros ->. now apply Hne. }
  destruct (Hj Hhas) as [(q & Hq & Hle) | (q & Hq & Hle)]; [left|right];
    exists q; rewrite lookup_JSON_stringify, Hq; now split.
Qed.

(** The bodies the browser client sends have the shape [client_shaped]. *)
Lemma sendUpdate_client_shaped (c : client) :
  client_winner_justified c -> client_shaped (sendUpdate_body c).
Proof.
  intros Hc. unfold sendUpdate_body.
  destruct (strict_eq_num (Some (c_playerNumber c)) 1).
  - right. exists (c_winner c). split; [reflexivity|].
    intros Hset. destruct (Hc Hset) as [H1|H2].
    + left. exists (c_p1Score c). split; [reflexivity|exact H1].
    + right. exists (c_p2Score c). split; [reflexivity|exact H2].
  - left. repeat split; reflexivity.
Qed.

Lemma game_started_client_shaped (c : client) :
  client_shaped (game_started_body c).
Proof. left. repeat split; reflexivity. Qed.

(** The score check keeps the winner justified. *)
Lemma check_win_justified (c : client) :
  client_winner_justified c ->
  check_win c <> VNull ->
  (WINNING_SCORE <= c_p1Score c)%Q \/ (WINNING_SCORE <= c_p2Score c)%Q.
Proof.
  intros Hc. unfold check_win.
  destruct (Qle_bool WINNING_SCORE (c_p1Score c)) eqn:H1.
  - intros _. left. now apply Qle_bool_iff.
  - destruct (Qle_bool WINNING_SCORE (c_p2Score c)) eqn:H2.
    + intros _. right. now apply Qle_bool_iff.
    + exact Hc.
Qed.

Lemma run_keeps_winner_justified (o : operation) :
  permits client_shaped o ->
  keeps winner_justified (run o) (fun _ => True).
Proof.
  intros Hadm. destruct o as [|body|body|body|body|body]; simpl.
  - unfold handleCreate.
    eapply keeps_bind; [apply keeps_generateSessionId|]. intros id _.
    eapply keeps_bind; [apply keeps_Date_now|]. intros now _.
    apply (keeps_save_and_answer _ winner_justified_json). intros t.
    apply winner_justified_null. reflexivity.
  - rewrite handleJoin_on_session. apply (keeps_on_session _ winner_justified_json).
    intros id session Hj. apply (keeps_save_and_answer _ winner_justified_json). intros t.
    apply winner_justified_stamp. revert Hj.
    apply winner_justified_agree; unfold join_fields;
      now rewrite lookup_insert_ne by discriminate.
  - rewrite handleStart_on_session. apply (keeps_on_session _ winner_justified_json).
    intros id session Hj.
    eapply keeps_bind; [apply keeps_Date_now|]. intros now _.
    apply (keeps_save_and_answer _ winner_justified_json). intros t.
    apply winner_justified_stamp. revert Hj.
    apply winner_justified_agree; unfold start_fields;
      now rewrite !lookup_insert_ne by discriminate.
  - rewrite handleReset_on_session. apply (keeps_on_session _ winner_justified_json).
    intros id session Hj.
    eapply keeps_bind; [apply keeps_Date_now|]. intros now _.
    apply (keeps_save_and_answer _ winner_justified_json). intros t.
    apply winner_justified_null.
    rewrite lookup_stamp_ne by discriminate.
    unfold reset_session, reset_fields. now simplify_map_eq.
  - rewrite handleUpdate_on_session. apply (keeps_on_session _ winner_justified_json).
    intros id session Hj. apply (keeps_save_and_answer _ winner_justified_json). intros t.
    apply winner_justified_stamp. now apply winner_justified_update.
  - rewrite handleState_on_session. apply (keeps_on_session _ winner_justified_json).
    intros id session Hj.
    destruct (countdown_running session); [|now apply keeps_ret].
    eapply keeps_bind; [apply keeps_Date_now|]. intros now _.
    eapply keeps_bind.
    + apply (keeps_setSession _ winner_justified_json). intros t.
      apply winner_justified_stamp. revert Hj.
      apply winner_justified_agree; apply lookup_resolve_countdown_other;
        repeat (apply not_elem_of_cons; split; [discriminate|]);
        apply not_elem_of_nil.
    + intros stamped _. now apply keeps_ret.
Qed.

(** C4, as the code has it.  The server stores [winner] as the update body
    gives it and compares no score.  In every world reached by create,
    join, start, reset, state and by updates whose bodies have the shape
    the browser client sends (none of [winner], [p1Score], [p2Score]; or a
    [winner] that is set only together with a score, a finite number, that
    has reached [WINNING_SCORE]), a stored session has a winner only when
    its [p1Score] or its [p2Score] is a number that has reached
    [WINNING_SCORE]. *)
Theorem winner_only_at_winning_score (w : World) :
  reachable client_shaped w ->
  forall key session,
    store w !! key = Some session ->
    has_winner session ->
    score_reached (session !! "p1Score") \/ score_reached (session !! "p2Score").
Proof.
  intros Hreach.
  change (store_inv winner_justified w).
  induction Hreach as [w Hempty | w o Hreach IH Hadm | w w' Hreach IH Hsub].
  - intros key session. rewrite Hempty, lookup_empty. discriminate.
  - apply (run_keeps_winner_justified o Hadm w IH).
  - intros key session Hs. apply (IH key).
    eapply lookup_weaken; eassumption.
Qed.

End Properties.

(** * Further properties of the handlers *)

Section Further.
Context {engine : Engine}.

(** ** The countdown clock *)

Lemma Qfloor_elapsed (now anchor : Z) :
  Qfloor ((inject_Z now - inject_Z anchor) / 1000) = ((now - anchor) / 1000)%Z.
Proof.
  unfold Qfloor, Qdiv, Qmult, Qminus, Qplus, Qopp, Qinv, inject_Z. simpl.
  f_equal. lia.
Qed.

Lemma newCountdownValue_integer (now anchor : Z) :
  newCountdownValue (secondsElapsed now (Some (VNum (inject_Z anchor))))
  = Some (Z.max 0 (3 - (now - anchor) / 1000)).
Proof.
  rewrite newCountdownValue_numeric. unfold remaining_seconds.
  now rewrite Qfloor_elapsed.
Qed.

Lemma elapsed_seconds_bounds (elapsed : Z) :
  (3 <= elapsed / 1000 <-> 3000 <= elapsed)%Z
  /\ (0 <= elapsed -> 0 <= elapsed / 1000)%Z
  /\ (elapsed < 0 -> elapsed / 1000 < 0)%Z.
Proof.
  pose proof (Z.div_mod elapsed 1000 ltac:(lia)) as Hdiv.
  pose proof (Z.mod_pos_bound elapsed 1000 ltac:(lia)) as Hmod.
  lia.
Qed.

(** X1.  For an anchor written by [Date.now()] the value computed by the
    state call is 0 exactly from 3000 ms after the anchor on; it lies in
    0..3 whenever the clock reads no earlier than the anchor, and it
    exceeds 3 when the clock reads earlier than the anchor. *)
Theorem countdown_value_boundaries (now anchor : Z) :
  exists v,
    newCountdownValue (secondsElapsed now (Some (VNum (inject_Z anchor))))
    = Some v
    /\ (v = 0 <-> 3000 <= now - anchor)%Z
    /\ (0 <= now - anchor -> 0 <= v <= 3)%Z
    /\ (now < anchor -> 3 < v)%Z.
Proof.
  exists (Z.max 0 (3 - (now - anchor) / 1000)).
  split; [apply newCountdownValue_integer|].
  destruct (elapsed_seconds_bounds (now - anchor)) as (H3 & Hpos & Hneg).
  repeat split; lia.
Qed.

(** ** Start *)

Lemma lookup_start_fields_other (now : Z) (session : gmap string value)
    (k : string) :
  k ∉ ["countdownActive"; "countdownValue"; "countdownStartTime"] ->
  start_fields now session !! k = session !! k.
Proof.
  intros Hk. repeat (apply not_elem_of_cons in Hk as [? Hk]).
  unfold start_fields. now rewrite !lookup_insert_ne by congruence.
Qed.

(** X2.  Start, on an existing session, sets [countdownActive] to true,
    [countdownValue] to 3 and [countdownStartTime] to the clock reading of
    the call, and stores the session; unlike reset it leaves every other
    field but [lastUpdate] as it was, [readyToStart] and the scores
    included, and it touches no other session. *)
Theorem start_arms_countdown (request : jsval) (w : World)
    (session : gmap string value) :
  connected w ->
  non_nullish request = true ->
  stored w (prop request "sessionId") = Some session ->
  exists w' session',
    handleStart request w = (Returns success_response, w')
    /\ connected w'
    /\ stored w' (prop request "sessionId") = Some session'
    /\ session' !! "countdownActive" = Some (VBool true)
    /\ session' !! "countdownValue" = Some (VNum 3)
    /\ session' !! "countdownStartTime"
       = Some (VNum (inject_Z (clock w (ticks w))))
    /\ (forall k,
         k ∉ ["countdownActive"; "countdownValue"; "countdownStartTime";
              "lastUpdate"] ->
         session' !! k = session !! k)
    /\ (forall id', session_key id' <> session_key (prop request "sessionId") ->
         stored w' id' = stored w id').
Proof.
  intros Hw Hbody Hs.
  set (w1 := with_ticks (S (ticks w)) w).
  set (armed := start_fields (clock w (ticks w)) session).
  exists (saved (prop request "sessionId") armed w1),
    (stamp (clock w1 (ticks w1)) armed).
  split; [now apply handleStart_found|].
  split; [apply connected_saved; exact Hw|].
  split; [apply stored_saved; json_session|].
  unfold armed, start_fields.
  split; [rewrite lookup_stamp_ne by discriminate; now simplify_map_eq|].
  split; [rewrite lookup_stamp_ne by discriminate; now simplify_map_eq|].
  split; [rewrite lookup_stamp_ne by discriminate; now simplify_map_eq|].
  split.
  - intros k Hk.
    apply not_elem_of_cons in Hk as [H1 Hk].
    apply not_elem_of_cons in Hk as [H2 Hk].
    apply not_elem_of_cons in Hk as [H3 Hk].
    apply not_elem_of_cons in Hk as [H4 _].
    rewrite lookup_stamp_ne by exact H4.
    now rewrite !lookup_insert_ne by congruence.
  - intros id' Hne. rewrite stored_saved_ne by congruence. reflexivity.
Qed.

(** A session armed at a non-zero [anchor] has a running countdown. *)
Lemma armed_session_running (anchor : Z) (session : gmap string value) :
  anchor <> 0%Z ->
  session !! "countdownActive" = Some (VBool true) ->
  session !! "countdownStartTime" = Some (VNum (inject_Z anchor)) ->
  countdown_running session = true.
Proof.
  intros Hanchor Hactive Hstart. unfold countdown_running.
  rewrite Hactive, Hstart. simpl.
  destruct (Qeq_bool (inject_Z anchor) 0) eqn:E; [|reflexivity].
  apply Qeq_bool_eq in E. change 0%Q with (inject_Z 0) in E.
  apply -> inject_Z_injective in E. contradiction.
Qed.

(** The countdown block on a session armed at [anchor] with
    [countdownValue] 3. *)
Lemma resolve_armed (now anchor : Z) (session : gmap string value) :
  session !! "countdownStartTime" = Some (VNum (inject_Z anchor)) ->
  session !! "countdownValue" = Some (VNum 3) ->
  let v := Z.max 0 (3 - (now - anchor) / 1000) in
  resolve_countdown now session !! "countdownValue" = Some (VNum (inject_Z v))
  /\ (v = 0%Z ->
      resolve_countdown now session !! "countdownActive" = Some (VBool false)
      /\ resolve_countdown now session !! "readyToStart" = Some (VBool true)
      /\ resolve_countdown now session !! "countdownStartTime" = Some VNull)
  /\ (v <> 0%Z ->
      resolve_countdown now session !! "countdownActive"
      = session !! "countdownActive"
      /\ resolve_countdown now session !! "readyToStart"
         = session !! "readyToStart"
      /\ resolve_countdown now session !! "countdownStartTime"
         = session !! "countdownStartTime").
Proof.
  intros Hstart Hvalue v.
  destruct (resolve_countdown_numeric now (inject_Z anchor) session Hstart)
    as ((q & Hq & Hqeq) & Hzero & Hnz & _).
  unfold remaining_seconds in Hqeq, Hzero, Hnz.
  rewrite Qfloor_elapsed in Hqeq, Hzero, Hnz. fold v in Hqeq, Hzero, Hnz.
  split; [|split; assumption].
  unfold resolve_countdown in *.
  rewrite Hstart, newCountdownValue_integer in *. fold v in Hq |- *.
  rewrite Hvalue in *. unfold strict_neq_number, strict_eq_num in *.
  destruct (Qeq_bool 3 (inject_Z v)) eqn:E; simpl in *.
  - apply Qeq_bool_eq in E. change 3%Q with (inject_Z 3) in E.
    apply -> inject_Z_injective in E. subst v.
    rewrite <- E in *. simpl. exact Hvalue.
  - unfold is_zero. destruct (v =? 0)%Z.
    + rewrite !lookup_insert_ne by discriminate. apply lookup_insert_eq.
    + apply lookup_insert_eq.
Qed.

(** X3.  Start followed by a state call.  Let a start call be made at
    clock reading [anchor] (not 0); let time pass, the stored session
    staying as the start call left it; and let a state call read the clock
    at [now].  From 3000 ms after the anchor on, the state call returns and
    stores [countdownActive] false, [countdownValue] 0, [readyToStart] true
    and a null [countdownStartTime].  Before that (and not before the
    anchor) it returns [countdownValue] [3 - floor((now - anchor)/1000)],
    the countdown stays active and [readyToStart] is what it was before the
    start call. *)
Theorem start_then_state (request : jsval) (w w2 : World)
    (session : gmap string value) :
  connected w ->
  non_nullish request = true ->
  stored w (prop request "sessionId") = Some session ->
  clock w (ticks w) <> 0%Z ->
  connected w2 ->
  stored w2 (prop request "sessionId")
  = stored (world_after (handleStart request) w) (prop request "sessionId") ->
  let anchor := clock w (ticks w) in
  let now := clock w2 (ticks w2) in
  exists w3 session3,
    handleState request w2 = (Returns (state_response session3), w3)
    /\ stored w3 (prop request "sessionId") = Some session3
    /\ ((3000 <= now - anchor)%Z ->
        session3 !! "countdownActive" = Some (VBool false)
        /\ session3 !! "countdownValue" = Some (VNum 0)
        /\ session3 !! "readyToStart" = Some (VBool true)
        /\ session3 !! "countdownStartTime" = Some VNull)
    /\ ((0 <= now - anchor < 3000)%Z ->
        session3 !! "countdownActive" = Some (VBool true)
        /\ session3 !! "countdownValue"
           = Some (VNum (inject_Z (3 - (now - anchor) / 1000)))
        /\ session3 !! "readyToStart" = session !! "readyToStart"
        /\ session3 !! "countdownStartTime" = Some (VNum (inject_Z anchor))).
Proof.
  intros Hw Hbody Hs Hanchor Hw2 Hkept anchor now.
  pose proof (handleStart_found request w session Hw Hbody Hs) as Hstart.
  fold anchor in Hstart.
  set (w1 := with_ticks (S (ticks w)) w) in *.
  set (armed := stamp (clock w1 (ticks w1)) (start_fields anchor session)).
  unfold world_after in Hkept. rewrite Hstart in Hkept. simpl in Hkept.
  rewrite stored_saved in Hkept by json_session. fold armed in Hkept.
  assert (Hactive : armed !! "countdownActive" = Some (VBool true)).
  { unfold armed, start_fields. rewrite lookup_stamp_ne by discriminate.
    now simplify_map_eq. }
  assert (Hvalue : armed !! "countdownValue" = Some (VNum 3)).
  { unfold armed, start_fields. rewrite lookup_stamp_ne by discriminate.
    now simplify_map_eq. }
  assert (Hanch : armed !! "countdownStartTime" = Some (VNum (inject_Z anchor))).
  { unfold armed, start_fields. rewrite lookup_stamp_ne by discriminate.
    now simplify_map_eq. }
  assert (Hready : armed !! "readyToStart" = session !! "readyToStart").
  { unfold armed. rewrite lookup_stamp_ne by discriminate.
    apply lookup_start_fields_other.
    repeat (apply not_elem_of_cons; split; [discriminate|]).
    apply not_elem_of_nil. }
  assert (Hrun : countdown_running armed = true)
    by now apply (armed_session_running anchor).
  pose proof (handleState_running request w2 armed Hw2 Hbody Hkept Hrun)
    as Hstate. simpl in Hstate. fold now in Hstate.
  destruct (resolve_armed now anchor armed Hanch Hvalue) as (Hv & Hzero & Hnz).
  destruct (elapsed_seconds_bounds (now - anchor)) as (H3 & Hpos & _).
  eexists _, _. split; [exact Hstate|]. split; [apply stored_saved; json_session|].
  rewrite !lookup_stamp_ne by discriminate.
  split.
  - intros Hlate.
    assert (Hz : Z.max 0 (3 - (now - anchor) / 1000) = 0%Z) by lia.
    destruct (Hzero Hz) as (Ha & Hr & Ht).
    rewrite Hv, Hz. auto.
  - intros Hearly.
    assert (Hz : Z.max 0 (3 - (now - anchor) / 1000)
                 = (3 - (now - anchor) / 1000)%Z) by lia.
    assert (Hnzero : Z.max 0 (3 - (now - anchor) / 1000) <> 0%Z) by lia.
    destruct (Hnz Hnzero) as (Ha & Hr & Ht).
    rewrite Hv, Hz, Ha, Hr, Ht.
    split; [exact Hactive|]. split; [reflexivity|].
    split; [exact Hready|exact Hanch].
Qed.

(** X4.  The end of the countdown is reported once and for all.  When a
    state call has resolved the countdown to 0, the session it stored has
    no running countdown: every later state call, at any time, on a process
    whose store still holds that session, returns that very session
    ([readyToStart] true, [lastUpdate] unchanged) and leaves the world as it
    is, writing nothing. *)
Theorem resolved_countdown_is_final (request : jsval) (w w4 : World)
    (session : gmap string value) (anchor : Z) :
  connected w ->
  non_nullish request = true ->
  stored w (prop request "sessionId") = Some session ->
  truthy (session !! "countdownActive") = true ->
  session !! "countdownStartTime" = Some (VNum (inject_Z anchor)) ->
  anchor <> 0%Z ->
  (3000 <= clock w (ticks w) - anchor)%Z ->
  connected w4 ->
  stored w4 (prop request "sessionId")
  = stored (world_after (handleState request) w) (prop request "sessionId") ->
  exists resolved,
    result_of (handleState request) w = Returns (state_response resolved)
    /\ resolved !! "readyToStart" = Some (VBool true)
    /\ handleState request w4 = (Returns (state_response resolved), w4).
Proof.
  intros Hw Hbody Hs Hactive Hstart Hanchor Hlate Hw4 Hkept.
  assert (Hnz : ~ (inject_Z anchor == 0)%Q).
  { intros E. change 0%Q with (inject_Z 0) in E.
    apply -> inject_Z_injective in E. contradiction. }
  assert (Hrun : countdown_running session = true).
  { unfold countdown_running. rewrite Hactive, Hstart.
    now rewrite truthy_number. }
  pose proof (handleState_running request w session Hw Hbody Hs Hrun) as Hstate.
  simpl in Hstate.
  destruct (resolve_countdown_numeric (clock w (ticks w)) (inject_Z anchor)
              session Hstart) as (_ & Hzero & _).
  assert (Hz : remaining_seconds (clock w (ticks w)) (inject_Z anchor) = 0%Z).
  { unfold remaining_seconds. rewrite Qfloor_elapsed.
    destruct (elapsed_seconds_bounds (clock w (ticks w) - anchor)) as (H3 & _).
    lia. }
  destruct (Hzero Hz) as (Ha & Hr & Ht).
  unfold world_after in Hkept. unfold result_of.
  rewrite Hstate in *. simpl in *. rewrite stored_saved in Hkept by json_session.
  eexists. split; [reflexivity|].
  split; [now rewrite lookup_stamp_ne by discriminate|].
  apply handleState_idle; try assumption.
  unfold countdown_running.
  rewrite lookup_stamp_ne by discriminate. now rewrite Ha.
Qed.

(** X5.  The hand-over from countdown to game.  On an existing session in
    which no countdown is running, the update the client sends when it sees
    [readyToStart] ([{ sessionId, readyToStart: false, gameStarted: true }])
    followed by a state call returns [gameStarted] true and [readyToStart]
    false, every other field but [lastUpdate] being as before the update. *)
Theorem game_start_handshake (c : client) (w : World)
    (session : gmap string value) :
  connected w ->
  stored w (Some (c_sessionId c)) = Some session ->
  countdown_running session = false ->
  exists w' session',
    handleUpdate (game_started_body c) w = (Returns success_response, w')
    /\ handleState (game_started_body c) w'
       = (Returns (state_response session'), w')
    /\ session' !! "gameStarted" = Some (VBool true)
    /\ session' !! "readyToStart" = Some (VBool false)
    /\ (forall k, k ∉ ["gameStarted"; "readyToStart"; "lastUpdate"] ->
                  session' !! k = session !! k).
Proof.
  intros Hw Hs Hidle.
  assert (Hupd : forall s, apply_update (game_started_body c) s
                 = <["readyToStart" := VBool false]>
                     (<["gameStarted" := VBool true]> s))
    by reflexivity.
  pose proof (handleUpdate_found (game_started_body c) w session Hw eq_refl Hs)
    as Hrun.
  rewrite Hupd in Hrun.
  set (started := <["readyToStart" := VBool false]>
                    (<["gameStarted" := VBool true]> session)) in *.
  assert (Hframe : forall k, k ∉ ["gameStarted"; "readyToStart"; "lastUpdate"] ->
            stamp (clock w (ticks w)) started !! k = session !! k).
  { intros k Hk. repeat (apply not_elem_of_cons in Hk as [? Hk]).
    rewrite lookup_stamp_ne by congruence. unfold started.
    now rewrite !lookup_insert_ne by congruence. }
  eexists _, _. split; [exact Hrun|].
  split.
  - apply handleState_idle;
      [apply connected_saved; exact Hw | reflexivity | apply stored_saved; json_session |].
    unfold countdown_running in *.
    rewrite !Hframe; [exact Hidle| |];
      repeat (apply not_elem_of_cons; split; [discriminate|]);
      apply not_elem_of_nil.
  - split; [rewrite lookup_stamp_ne by discriminate; unfold started;
            now simplify_map_eq|].
    split; [rewrite lookup_stamp_ne by discriminate; apply lookup_insert_eq|].
    exact Hframe.
Qed.

(** ** Requests that reach no session *)

(** X6.  On a connected process, join, start, reset, update and state
    answer 404 [{ success: false, error: 'Session not found' }] when no
    session is stored under [body.sessionId]; none of them creates one, and
    the world is left as it was. *)
Theorem missing_session_404 (o : operation) (w : World) :
  connected w ->
  o <> Create ->
  (forall body, o = Join body \/ o = Start body \/ o = ResetGame body
                \/ o = Update body \/ o = State body ->
                non_nullish body = true) ->
  stored w (op_id o w) = None ->
  run o w = (Returns session_not_found, w)
  /\ statusCode session_not_found = 404%Z.
Proof.
  intros Hw Hcreate Hbody Hnone. split; [|reflexivity].
  destruct o as [|body|body|body|body|body]; [contradiction|..]; simpl in *.
  - rewrite handleJoin_on_session. apply on_session_missing; auto 10.
  - rewrite handleStart_on_session. apply on_session_missing; auto 10.
  - rewrite handleReset_on_session. apply on_session_missing; auto 10.
  - rewrite handleUpdate_on_session. apply on_session_missing; auto 10.
  - rewrite handleState_on_session. apply on_session_missing; auto 10.
Qed.

(** X7.  A request whose method is not POST never touches the world and
    never consults the store: GET without an [action] (absent or empty) is
    answered with the page, 200 [text/html]; anything else with 405
    "Method not allowed". *)
Theorem non_post_is_pure (method : string) (url : URL) (body : jsval)
    (w : World) :
  method <> "POST" ->
  handleRequest method url body w
  = (Returns
       (if String.eqb method "GET"
           && no_action (searchParams_get (searchParams url) "action")
        then html_response
        else error_response 405 "Method not allowed"),
     w).
Proof.
  intros Hpost. unfold handleRequest.
  destruct (String.eqb method "GET"
            && no_action (searchParams_get (searchParams url) "action"));
    [reflexivity|].
  destruct (String.eqb_spec method "POST") as [->|_]; [contradiction|].
  reflexivity.
Qed.

(** A body is a text or it is not. *)
Lemma classic_text (body : jsval) :
  (exists text, body = Some (VStr text)) \/ (forall text, body <> Some (VStr text)).
Proof.
  destruct body as [[| | |text| | |]|]; try (right; intros text' H; discriminate H).
  left. now exists text.
Qed.

Lemma dispatch_unknown (action : option string) (body : jsval) :
  (forall name, name ∈ known_actions -> action <> Some name) ->
  dispatch action body = mret (error_response 400 "Invalid action").
Proof.
  intros Hunknown. unfold dispatch, action_is.
  destruct action as [a|]; [|reflexivity].
  repeat match goal with
    | |- context [String.eqb a ?name] =>
        destruct (String.eqb_spec a name) as [->|_];
        [exfalso; apply (Hunknown name); [unfold known_actions; set_solver|reflexivity]|]
    end.
  reflexivity.
Qed.

(** X8.  On a connected process, a POST request whose [action] is absent
    or is none of the six known names is answered with 400
    [{ success: false, error: 'Invalid action' }], whether its body is
    already parsed or is a text that [JSON.parse] accepts; the world is left
    as it was. *)
Theorem unknown_action_400 (url : URL) (body : jsval) (w : World) :
  connected w ->
  (forall name, name ∈ known_actions ->
     searchParams_get (searchParams url) "action" <> Some name) ->
  (forall text, body = Some (VStr text) ->
     exists v, JSON_parse_text text = inr v) ->
  handleRequest "POST" url body w
  = (Returns (error_response 400 "Invalid action"), w).
Proof.
  intros Hw Hunknown Hparse.
  destruct (classic_text body) as [(text & ->) | Hparsed].
  - destruct (Hparse text eq_refl) as (v & Hv).
    rewrite (post_dispatch_text url text v w Hw Hv).
    now rewrite dispatch_unknown.
  - rewrite (post_dispatch_parsed url body w Hw Hparsed).
    now rewrite dispatch_unknown.
Qed.

(** ** Exceptions and the unavailable store *)

(** X9.  The [catch] clause of [handleRequest] does not cover the action
    handlers.  On a connected process, a POST request for join, start,
    reset, update or state whose body is [null] or [undefined] gets no
    response: the handler throws a [TypeError] on [body.sessionId], the
    promise returned by [handleRequest] is rejected with it, and the world
    is left as it was. *)
Theorem nullish_body_rejects (url : URL) (body : jsval) (w : World)
    (name : string) :
  connected w ->
  body = None \/ body = Some VNull ->
  searchParams_get (searchParams url) "action" = Some name ->
  name ∈ ["join"; "start"; "reset"; "update"; "state"] ->
  exists msg,
    handleRequest "POST" url body w = (Throws (OtherError "TypeError" msg), w).
Proof.
  intros Hw Hnull Haction Hname.
  assert (Hparsed : forall text, body <> Some (VStr text))
    by (destruct Hnull as [-> | ->]; discriminate).
  rewrite (post_dispatch_parsed url body w Hw Hparsed), Haction.
  repeat (apply elem_of_cons in Hname as [->|Hname];
          [destruct Hnull as [-> | ->]; eexists; reflexivity|]).
  now apply elem_of_nil in Hname.
Qed.

(** X10.  The probe of the store never throws: the [throw err] of
    [ensureRedisAvailable] is never reached, because [getRedisClient]
    throws nothing but [RedisUnavailableError].  The probe writes nothing
    to the store and reads neither the clock nor the generator. *)
Theorem probe_never_throws (w : World) :
  (forall e, result_of ensureRedisAvailable w <> Throws e)
  /\ store (world_after ensureRedisAvailable w) = store w
  /\ ticks (world_after ensureRedisAvailable w) = ticks w
  /\ draws (world_after ensureRedisAvailable w) = draws w.
Proof.
  destruct (ensureRedisAvailable_cases w)
    as (o & w' & Hprobe & Hst & Hti & Hdr & _ & _ & Ho).
  unfold result_of, world_after. rewrite Hprobe. simpl.
  repeat split; try assumption.
  intros e ->. exact Ho.
Qed.

Lemma serve_marked_unavailable (requests : list request) (w : World) :
  redisUnavailable w = true ->
  Forall (fun r => req_method r = "POST") requests ->
  serve requests w
  = (map (fun _ => Returns (unavailable_response (redisUnavailableMessage w)))
       requests, w).
Proof.
  intros Hmark Hpost.
  induction Hpost as [|r rest Hr Hrest IH]; [reflexivity|].
  simpl. rewrite Hr, (post_marked_unavailable _ _ w Hmark), IH.
  reflexivity.
Qed.

(** X11.  A process that starts while the store is down.  Its first POST
    request builds the client and awaits [connect()], which the client keeps
    retrying: the request gets no answer, and the listener of ['error']
    marks the client unavailable with the message of the connection error
    ('Unknown Redis error' when the error has none).  While the store stays
    down, every later POST request served by that process is answered 503
    with that message as [detail], whatever it asks for: no second client is
    built, and the store is never consulted.  Once the client connects, its
    listener of ['connect'] clears the mark and the process is connected. *)
Theorem store_down_then_fail_fast (first : request) (requests : list request)
    (w : World) (e : option string) :
  store_down e w ->
  req_method first = "POST" ->
  Forall (fun r => req_method r = "POST") requests ->
  let detail := Some (or_default e "Unknown Redis error") in
  exists w',
    serve (first :: requests) w
    = (Pending :: map (fun _ => Returns (unavailable_response detail)) requests,
       w')
    /\ attempts w' = S (attempts w)
    /\ redisUnavailable w' = true
    /\ redisUnavailableMessage w' = detail
    /\ redisClient w' = true
    /\ store w' = store w
    /\ connected (on_redis_connect w').
Proof.
  intros Hdown Hfirst Hrest detail.
  set (w1 := on_redis_error e (createClient w)).
  exists w1. split; [|repeat split].
  simpl. rewrite Hfirst, (post_store_down _ _ w e Hdown). fold w1.
  rewrite (serve_marked_unavailable requests w1 eq_refl Hrest).
  reflexivity.
Qed.

(** ** What an operation may do to the store, on any process *)

Lemma getSession_cases (id : jsval) (w : World) :
  (exists o w', getSession id w = (o, w') /\ (forall found, o <> Returns found)
                /\ store w' = store w)
  \/ (exists w', getSession id w = (Returns (stored w id), w')
               /\ connected w' /\ store w' = store w).
Proof.
  unfold getSession.
  destruct (getRedisClient_cases w)
    as [(w' & Hget & Hcon & Hst & _) | [(m & w' & Hget & _ & Hst & _)
                                       | (w' & Hget & _ & Hst & _)]].
  - right. exists w'. split; [|auto].
    erewrite run_bind by exact Hget. unfold stored.
    rewrite <- Hst. reflexivity.
  - left. eexists _, w'. split; [|split; [|exact Hst]].
    + erewrite run_bind_throw by exact Hget. reflexivity.
    + discriminate.
  - left. eexists _, w'. split; [|split; [|exact Hst]].
    + erewrite run_bind_pending by exact Hget. reflexivity.
    + discriminate.
Qed.

(** A handler of the shape [on_session] gives no answer or answers 404
    without writing, or runs its continuation on the stored session and a
    connected process. *)
Lemma on_session_cases (body : jsval)
    (k : jsval -> gmap string value -> M response) (w : World) :
  (exists o w', on_session body k w = (o, w') /\ (forall r, o <> Returns r)
                /\ store w' = store w)
  \/ (exists w', on_session body k w = (Returns session_not_found, w')
               /\ store w' = store w)
  \/ (exists w1 session,
        connected w1 /\ store w1 = store w
        /\ stored w (prop body "sessionId") = Some session
        /\ on_session body k w = k (prop body "sessionId") session w1).
Proof.
  unfold on_session.
  destruct (non_nullish body) eqn:Hbody.
  - erewrite run_bind by (apply read_prop_non_nullish; exact Hbody).
    destruct (getSession_cases (prop body "sessionId") w)
      as [(o & w' & Hget & Hno & Hst) | (w' & Hget & Hcon & Hst)].
    + left. unfold mbind, M_bind, bind. rewrite Hget.
      destruct o as [found|e|].
      * now destruct (Hno found).
      * eexists _, w'. split; [reflexivity|]. split; [discriminate|exact Hst].
      * eexists _, w'. split; [reflexivity|]. split; [discriminate|exact Hst].
    + erewrite run_bind by exact Hget.
      destruct (stored w (prop body "sessionId")) as [session|] eqn:Hs.
      * right. right. exists w', session. auto.
      * right. left. exists w'. auto.
  - left. destruct body as [[]|]; try discriminate;
      eexists _, w; (split; [reflexivity|split; [discriminate|reflexivity]]).
Qed.

(** The outcome of an operation on any process: it writes nothing, and
    then it throws or answers 200 or 404; or it answers 200 having written
    one session under the key it addresses, a key that held a session
    before unless the operation is create. *)
Lemma run_cases (o : operation) (w : World) :
  (store (world_after (run o) w) = store w
   /\ forall r, result_of (run o) w = Returns r ->
                statusCode r = 200%Z \/ statusCode r = 404%Z)
  \/ (exists session',
        store (world_after (run o) w)
        = <[session_key (op_id o w) := session']> (store w)
        /\ (o <> Create -> is_Some (store w !! session_key (op_id o w)))
        /\ exists r, result_of (run o) w = Returns r /\ statusCode r = 200%Z).
Proof.
  assert (Hsave : forall id session r w1 k,
    connected w1 -> store w1 = store w -> statusCode r = 200%Z ->
    k w1 = (setSession id session;; mret r) w1 ->
    exists session', store (snd (k w1)) = <[session_key id := session']> (store w)
      /\ exists r', fst (k w1) = Returns r' /\ statusCode r' = 200%Z).
  { intros id session r w1 k Hcon Hst Hr ->.
    rewrite (save_and_answer id session r w1 Hcon). simpl.
    rewrite Hst. eauto. }
  assert (Hsession : forall body k,
    (forall id session w1, connected w1 -> store w1 = store w ->
       (store (snd (k id session w1)) = store w
        /\ exists r, fst (k id session w1) = Returns r /\ statusCode r = 200%Z)
       \/ exists session',
            store (snd (k id session w1)) = <[session_key id := session']> (store w)
            /\ exists r, fst (k id session w1) = Returns r /\ statusCode r = 200%Z) ->
    (store (snd (on_session body k w)) = store w
     /\ forall r, fst (on_session body k w) = Returns r ->
                  statusCode r = 200%Z \/ statusCode r = 404%Z)
    \/ exists session',
         store (snd (on_session body k w))
         = <[session_key (prop body "sessionId") := session']> (store w)
         /\ is_Some (store w !! session_key (prop body "sessionId"))
         /\ exists r, fst (on_session body k w) = Returns r /\ statusCode r = 200%Z).
  { intros body k Hk.
    destruct (on_session_cases body k w)
      as [(res & w' & -> & Hno & Hst)
         | [(w' & -> & Hst) | (w1 & session & Hcon & Hst & Hs & ->)]].
    - left. split; [exact Hst|]. intros r Hr. now destruct (Hno r).
    - left. split; [exact Hst|]. intros r [= <-]. now right.
    - destruct (Hk (prop body "sessionId") session w1 Hcon Hst)
        as [(Hsame & r & Hr & H200) | (session' & Hins & Hr)].
      + left. split; [exact Hsame|]. intros r' Hr'. rewrite Hr in Hr'.
        inversion Hr'. subst. now left.
      + right. exists session'. split; [exact Hins|]. split; [|exact Hr].
        unfold stored in Hs.
        destruct (store w !! session_key (prop body "sessionId")); [eauto|].
        discriminate Hs. }
  unfold world_after, result_of.
  destruct o as [|body|body|body|body|body]; simpl run; simpl op_id.
  - unfold handleCreate.
    erewrite run_bind by reflexivity. erewrite run_bind by reflexivity.
    set (w0 := with_ticks _ _).
    change (random (with_draws (S (draws w)) w) (draws (with_draws (S (draws w)) w)))
      with (random w (S (draws w))).
    set (id := (random w (draws w) ++ random w (S (draws w)))%string).
    unfold setSession.
    destruct (getRedisClient_cases w0)
      as [(w1 & Hget & Hcon & Hst & _) | [(m & w1 & Hget & _ & Hst & _)
                                         | (w1 & Hget & _ & Hst & _)]].
    + right. erewrite run_bind by (erewrite run_bind by exact Hget; reflexivity).
      simpl. rewrite Hst. eexists. split; [reflexivity|].
      split; [intros H; contradiction|]. eexists. split; reflexivity.
    + left. erewrite run_bind_throw
        by (erewrite run_bind_throw by exact Hget; reflexivity).
      simpl. split; [exact Hst|]. intros r Hr. discriminate Hr.
    + left. erewrite run_bind_pending
        by (erewrite run_bind_pending by exact Hget; reflexivity).
      simpl. split; [exact Hst|]. intros r Hr. discriminate Hr.
  - rewrite handleJoin_on_session.
    match goal with |- context [on_session body ?k] =>
      destruct (Hsession body k) as [Hl | (s' & H1 & H2 & H3)];
        [|now left|right; eauto] end.
    intros id session w1 Hcon Hst. right.
    eapply Hsave; eauto. reflexivity.
  - rewrite handleStart_on_session.
    match goal with |- context [on_session body ?k] =>
      destruct (Hsession body k) as [Hl | (s' & H1 & H2 & H3)];
        [|now left|right; eauto] end.
    intros id session w1 Hcon Hst. right.
    rewrite (timed_save_and_answer id (fun now => start_fields now session)
               success_response w1 Hcon).
    simpl. rewrite Hst. eauto.
  - rewrite handleReset_on_session.
    match goal with |- context [on_session body ?k] =>
      destruct (Hsession body k) as [Hl | (s' & H1 & H2 & H3)];
        [|now left|right; eauto] end.
    intros id session w1 Hcon Hst. right.
    rewrite (timed_save_and_answer id (fun now => reset_session now session)
               success_response w1 Hcon).
    simpl. rewrite Hst. eauto.
  - rewrite handleUpdate_on_session.
    match goal with |- context [on_session body ?k] =>
      destruct (Hsession body k) as [Hl | (s' & H1 & H2 & H3)];
        [|now left|right; eauto] end.
    intros id session w1 Hcon Hst. right.
    eapply Hsave; eauto. reflexivity.
  - rewrite handleState_on_session.
    match goal with |- context [on_session body ?k] =>
      destruct (Hsession body k) as [Hl | (s' & H1 & H2 & H3)];
        [|now left|right; eauto] end.
    intros id session w1 Hcon Hst.
    destruct (countdown_running session).
    + right. erewrite run_bind by reflexivity.
      erewrite run_bind
        by (apply setSession_connected; now apply connected_with_ticks).
      simpl. rewrite Hst. eauto.
    + left. simpl. split; [exact Hst|]. eauto.
Qed.

(** X12.  Whatever the state of the process, an operation leaves every
    session but the one it addresses exactly as it was: a create call
    writes under the identifier it draws, the other operations under
    [body.sessionId], and no other key of the store changes. *)
Theorem operations_write_one_key (o : operation) (w : World) (key : string) :
  key <> session_key (op_id o w) ->
  store (world_after (run o) w) !! key = store w !! key.
Proof.
  intros Hkey.
  destruct (run_cases o w) as [(Hsame & _) | (session' & Hins & _)].
  - now rewrite Hsame.
  - rewrite Hins. now apply lookup_insert_ne.
Qed.

(** X13.  No operation removes a session, and only create adds one: after
    any operation the store holds a session under every key it held one
    under, and after join, start, reset, update or state it holds sessions
    under exactly the same keys, so none of these can bring a missing or
    expired session back. *)
Theorem only_create_adds_sessions (o : operation) (w : World) :
  dom (store w) ⊆ dom (store (world_after (run o) w))
  /\ (o <> Create -> dom (store (world_after (run o) w)) = dom (store w)).
Proof.
  destruct (run_cases o w) as [(Hsame & _) | (session' & Hins & Hheld & _)].
  - rewrite Hsame. split; [reflexivity|]. intros _. reflexivity.
  - rewrite Hins, dom_insert_L. split; [apply union_subseteq_r|].
    intros Hcreate. apply Hheld in Hcreate. apply elem_of_dom in Hcreate.
    apply subseteq_union_1_L. now apply singleton_subseteq_l.
Qed.

Lemma dispatch_cases (action : option string) (body : jsval) :
  (exists o, dispatch action body = run o)
  \/ dispatch action body = mret (error_response 400 "Invalid action").
Proof.
  unfold dispatch.
  destruct (action_is action "create"); [left; now exists Create|].
  destruct (action_is action "join"); [left; now exists (Join body)|].
  destruct (action_is action "start"); [left; now exists (Start body)|].
  destruct (action_is action "reset"); [left; now exists (ResetGame body)|].
  destruct (action_is action "update"); [left; now exists (Update body)|].
  destruct (action_is action "state"); [left; now exists (State body)|].
  now right.
Qed.

Lemma probe_and_parse_returns (body : jsval) (w w' : World)
    (g : response + jsval) :
  probe_and_parse body w = (Returns g, w') ->
  match g with
  | inl r => statusCode r = 503%Z
  | inr _ => True
  end.
Proof.
  unfold probe_and_parse.
  destruct (ensureRedisAvailable_cases w)
    as (o & w1 & Hprobe & _ & _ & _ & _ & _ & Hr).
  destruct o as [[resp|]|e|]; [| |contradiction|].
  - erewrite run_bind by exact Hprobe.
    intros [= <- _]. now rewrite Hr.
  - erewrite run_bind by exact Hprobe.
    destruct g; [|trivial].
    destruct body as [[| | |text| | |]|]; try discriminate.
    unfold mbind, M_bind, bind, JSON_parse.
    destruct (JSON_parse_text text); discriminate.
  - erewrite run_bind_pending by exact Hprobe. discriminate.
Qed.

(** X14.  The statuses of [handleRequest].  A response it returns has
    status 200, 400, 404, 405, 500 or 503.  It is 500 in one case only: the
    body is a text that [JSON.parse] rejects, and then the [error] of the
    response is the message of that [SyntaxError]. *)
Theorem response_statuses (method : string) (url : URL) (body : jsval)
    (w w' : World) (r : response) :
  handleRequest method url body w = (Returns r, w') ->
  statusCode r ∈ [200; 400; 404; 405; 500; 503]%Z
  /\ (statusCode r = 500%Z ->
      exists text msg,
        body = Some (VStr text) /\ JSON_parse_text text = inl msg
        /\ r = error_response 500 msg).
Proof.
  unfold handleRequest.
  destruct (String.eqb method "GET" && no_action _).
  { intros [= <- _]. split; [set_solver|discriminate]. }
  destruct (String.eqb method "POST").
  2:{ intros [= <- _]. split; [set_solver|discriminate]. }
  unfold mbind at 1, M_bind at 1, bind at 1, try_catch.
  destruct (probe_and_parse body w) as [[g|e|] w1] eqn:Hguard.
  - pose proof (probe_and_parse_returns body w w1 g Hguard) as Hg.
    destruct g as [resp|requestBody].
    + intros [= <- _]. rewrite Hg. split; [set_solver|discriminate].
    + destruct (dispatch_cases (searchParams_get (searchParams url) "action")
                  requestBody) as [(o & ->) | ->].
      * intros Hrun.
        assert (Hres : result_of (run o) w1 = Returns r)
          by (unfold result_of; now rewrite Hrun).
        assert (Hstatus : statusCode r = 200%Z \/ statusCode r = 404%Z).
        { destruct (run_cases o w1) as [(_ & Hr) | (_ & _ & _ & r' & Hr' & H200)].
          - now apply Hr.
          - rewrite Hres in Hr'. inversion Hr'. subst. now left. }
        destruct Hstatus as [-> | ->]; (split; [set_solver|discriminate]).
      * intros [= <- _]. split; [set_solver|discriminate].
  - destruct (probe_and_parse_throws body w w1 e Hguard)
      as (text & msg & -> & Hparse & -> & [Hmark _]).
    unfold on_error, mbind, M_bind, bind, get_world. simpl. rewrite Hmark.
    intros [= <- _]. split; [set_solver|].
    intros _. now exists text, msg.
  - discriminate.
Qed.

(** ** Fields the server keeps to itself *)

Lemma server_fields_stamp (now : Z) (session : gmap string value) :
  session !! "p1Connected" = Some (VBool true) ->
  (exists b, session !! "p2Connected" = Some (VBool b)) ->
  (session !! "countdownStartTime" = None
   \/ session !! "countdownStartTime" = Some VNull
   \/ exists t, session !! "countdownStartTime" = Some (VNum (inject_Z t))) ->
  server_fields_ok (stamp now session).
Proof.
  intros H1 H2 H3. unfold server_fields_ok.
  rewrite (lookup_stamp_ne now session "p1Connected") by discriminate.
  rewrite (lookup_stamp_ne now session "p2Connected") by discriminate.
  rewrite (lookup_stamp_ne now session "countdownStartTime") by discriminate.
  rewrite lookup_stamp_eq.
  split; [exact H1|]. split; [exact H2|]. split; [now exists now|exact H3].
Qed.

Lemma server_fields_json (session : gmap string value) :
  server_fields_ok session -> server_fields_ok (JSON_stringify session).
Proof.
  intros (H1 & (b & H2) & (t & H3) & H4). unfold server_fields_ok.
  rewrite !lookup_JSON_stringify, H1, H2, H3.
  split; [reflexivity|]. split; [now exists b|]. split; [now exists t|].
  destruct H4 as [-> | [-> | (t' & ->)]];
    [now left | now right; left | right; right; now exists t'].
Qed.

Lemma lookup_resolve_countdown_anchor (now : Z) (session : gmap string value) :
  resolve_countdown now session !! "countdownStartTime"
  = session !! "countdownStartTime"
  \/ resolve_countdown now session !! "countdownStartTime" = Some VNull.
Proof.
  unfold resolve_countdown. destruct (is_zero _).
  - right. apply lookup_insert_eq.
  - left. destruct (strict_neq_number _ _); [|reflexivity].
    now rewrite lookup_insert_ne by discriminate.
Qed.

Lemma run_keeps_server_fields (o : operation) :
  keeps server_fields_ok (run o) (fun _ => True).
Proof.
  assert (Hother : forall k, k = "p1Connected" \/ k = "p2Connected"
                             \/ k = "countdownStartTime" ->
            k ∉ ["p1Y"; "p2Y"; "ballX"; "ballY"; "ballVelX"; "ballVelY";
                 "ballSpeedMultiplier"; "p1Score"; "p2Score"; "winner";
                 "countdownActive"; "countdownValue"; "gameStarted";
                 "readyToStart"]).
  { intros k [-> | [-> | ->]];
      repeat (apply not_elem_of_cons; split; [discriminate|]);
      apply not_elem_of_nil. }
  destruct o as [|body|body|body|body|body]; simpl.
  - unfold handleCreate.
    eapply keeps_bind; [apply keeps_generateSessionId|]. intros id _.
    eapply keeps_bind; [apply keeps_Date_now|]. intros now _.
    apply (keeps_save_and_answer _ server_fields_json). intros t.
    apply server_fields_stamp; [reflexivity|now exists false|now left].
  - rewrite handleJoin_on_session. apply (keeps_on_session _ server_fields_json).
    intros id session (H1 & H2 & _ & H4). apply (keeps_save_and_answer _ server_fields_json). intros t.
    unfold join_fields.
    apply server_fields_stamp;
      [now rewrite lookup_insert_ne by discriminate
      |exists true; apply lookup_insert_eq
      |now rewrite lookup_insert_ne by discriminate].
  - rewrite handleStart_on_session. apply (keeps_on_session _ server_fields_json).
    intros id session (H1 & H2 & _ & H4).
    eapply keeps_bind; [apply keeps_Date_now|]. intros now _.
    apply (keeps_save_and_answer _ server_fields_json). intros t. unfold start_fields.
    apply server_fields_stamp;
      [now rewrite !lookup_insert_ne by discriminate
      |now rewrite !lookup_insert_ne by discriminate
      |right; right; exists now; apply lookup_insert_eq].
  - rewrite handleReset_on_session. apply (keeps_on_session _ server_fields_json).
    intros id session (H1 & H2 & _ & H4).
    eapply keeps_bind; [apply keeps_Date_now|]. intros now _.
    apply (keeps_save_and_answer _ server_fields_json). intros t. unfold reset_session, reset_fields.
    apply server_fields_stamp;
      [now rewrite !lookup_insert_ne by discriminate
      |now rewrite !lookup_insert_ne by discriminate
      |right; right; exists now;
       rewrite lookup_insert_ne by discriminate; apply lookup_insert_eq].
  - rewrite handleUpdate_on_session. apply (keeps_on_session _ server_fields_json).
    intros id session (H1 & H2 & _ & H4). apply (keeps_save_and_answer _ server_fields_json). intros t.
    apply server_fields_stamp;
      rewrite lookup_apply_update_other by auto; assumption.
  - rewrite handleState_on_session. apply (keeps_on_session _ server_fields_json).
    intros id session (H1 & H2 & H3 & H4).
    destruct (countdown_running session); [|now apply keeps_ret].
    eapply keeps_bind; [apply keeps_Date_now|]. intros now _.
    eapply keeps_bind; [|intros stamped _; now apply keeps_ret].
    apply (keeps_setSession _ server_fields_json). intros t.
    apply server_fields_stamp.
    + rewrite lookup_resolve_countdown_other; [exact H1|].
      repeat (apply not_elem_of_cons; split; [discriminate|]).
      apply not_elem_of_nil.
    + rewrite lookup_resolve_countdown_other; [exact H2|].
      repeat (apply not_elem_of_cons; split; [discriminate|]).
      apply not_elem_of_nil.
    + destruct (lookup_resolve_countdown_anchor now session) as [-> | ->];
        [exact H4 | now right; left].
Qed.

(** X15.  No request body reaches the fields the server owns.  In every
    world reached by create, join, start, reset, state and update calls with
    bodies of any content whatever, every stored session has [p1Connected]
    true, a boolean [p2Connected], an integer timestamp as [lastUpdate],
    and a [countdownStartTime] that is absent, null or an integer timestamp:
    the subtraction in the state call always finds a number, never a text. *)
Theorem server_fields_are_server_owned (w : World) :
  reachable (fun _ => True) w ->
  forall key session,
    store w !! key = Some session -> server_fields_ok session.
Proof.
  intros Hreach. change (store_inv server_fields_ok w).
  induction Hreach as [w Hempty | w o Hreach IH _ | w w' Hreach IH Hsub].
  - intros key session. rewrite Hempty, lookup_empty. discriminate.
  - apply (run_keeps_server_fields o w IH).
  - intros key session Hs. apply (IH key).
    eapply lookup_weaken; eassumption.
Qed.

(** ** The updates of the two players *)

Lemma apply_update_player2 (c : client) (session : gmap string value) :
  c_playerNumber c = VNum 2 ->
  apply_update (sendUpdate_body c) session = <["p2Y" := c_p2Y c]> session.
Proof.
  intros Hplayer. unfold sendUpdate_body. rewrite Hplayer. reflexivity.
Qed.

Lemma apply_update_player1 (c : client) (session : gmap string value) :
  c_playerNumber c = VNum 1 ->
  apply_update (sendUpdate_body c) session
  = <["winner" := c_winner c]>
    (<["p2Score" := VNum (c_p2Score c)]>
    (<["p1Score" := VNum (c_p1Score c)]>
    (<["ballSpeedMultiplier" := c_ballSpeedMultiplier c]>
    (<["ballVelY" := c_ballVelY c]>
    (<["ballVelX" := c_ballVelX c]>
    (<["ballY" := c_ballY c]>
    (<["ballX" := c_ballX c]>
    (<["p1Y" := c_p1Y c]> session)))))))).
Proof.
  intros Hplayer. unfold sendUpdate_body. rewrite Hplayer. reflexivity.
Qed.

(** X17.  The two players write disjoint fields.  The update body of the
    client of player 2 assigns [p2Y] and nothing else; the one of player 1
    assigns [p1Y], the ball, the speed multiplier, the scores and the
    winner, and never [p2Y].  Applied to a session in either order the two
    give the same session, so neither player's update can undo the
    other's. *)
Theorem player_updates_commute (c1 c2 : client) (session : gmap string value) :
  c_playerNumber c1 = VNum 1 ->
  c_playerNumber c2 = VNum 2 ->
  apply_update (sendUpdate_body c2) session = <["p2Y" := c_p2Y c2]> session
  /\ apply_update (sendUpdate_body c1) session !! "p2Y" = session !! "p2Y"
  /\ apply_update (sendUpdate_body c1) (apply_update (sendUpdate_body c2) session)
     = apply_update (sendUpdate_body c2) (apply_update (sendUpdate_body c1) session).
Proof.
  intros H1 H2.
  split; [now apply apply_update_player2|].
  split.
  - rewrite (apply_update_player1 c1 session H1).
    now rewrite !lookup_insert_ne by discriminate.
  - rewrite (apply_update_player2 c2 session H2).
    rewrite (apply_update_player2 c2 _ H2).
    rewrite !(apply_update_player1 c1 _ H1).
    now rewrite !(insert_insert_ne _ "p2Y") by discriminate.
Qed.

(** ** Repeated updates *)

(** Pushes a lookup through the assignments of [apply_update]. *)
Ltac push_lookup :=
  unfold apply_update;
  repeat first
    [ rewrite lookup_update_field_eq
    | rewrite lookup_update_field_ne by discriminate
    | rewrite lookup_update_countdownActive_eq
    | rewrite lookup_update_countdownActive_ready
    | rewrite lookup_update_countdownActive_ne by discriminate
    | rewrite lookup_update_ball_ne by discriminate
    | rewrite lookup_update_paddle_p1Y
    | rewrite lookup_update_paddle_p2Y
    | rewrite lookup_update_paddle_ne by discriminate ].

(** X18.  Update is idempotent on the fields of a session: applying the
    assignments of one body twice gives the same session as applying them
    once, so a request that is sent again (a retry, a duplicate) changes
    nothing but [lastUpdate]. *)
Theorem apply_update_idempotent (body : jsval) (session : gmap string value) :
  apply_update body (apply_update body session) = apply_update body session.
Proof.
  apply map_eq. intros k.
  destruct (decide (k ∈ ["p1Y"; "p2Y"; "ballX"; "ballY"; "ballVelX"; "ballVelY";
                          "ballSpeedMultiplier"; "p1Score"; "p2Score"; "winner";
                          "countdownActive"; "countdownValue"; "gameStarted";
                          "readyToStart"])) as [Hin|Hout].
  2:{ now rewrite lookup_apply_update_other by exact Hout. }
  assert (Hball : forall j, j ∈ ["ballX"; "ballY"; "ballVelX"; "ballVelY"] ->
            forall s, update_ball body s !! j
                      = if defined (prop body "ballX") then prop body j
                        else s !! j).
  { intros j Hj s. destruct (defined (prop body "ballX")) eqn:Hx.
    - now apply lookup_update_ball_present.
    - unfold update_ball. now rewrite Hx. }
  assert (HbX := Hball "ballX" ltac:(repeat constructor)).
  assert (HbY := Hball "ballY" ltac:(repeat constructor)).
  assert (HvX := Hball "ballVelX" ltac:(repeat constructor)).
  assert (HvY := Hball "ballVelY" ltac:(repeat constructor)).
  clear Hball.
  repeat (apply elem_of_cons in Hin as [->|Hin];
    [do 3 (push_lookup; rewrite ?HbX, ?HbY, ?HvX, ?HvY);
     unfold patched; repeat case_match; congruence|]).
  now apply elem_of_nil in Hin.
Qed.

(** ** The client of player 1 and the winner *)

(** X19.  The score check of the client and the update it sends.  After
    the check, the winner of the client of player 1 is 1 when [p1Score] has
    reached [WINNING_SCORE], else 2 when [p2Score] has, else what it was.
    The update the client then sends stores that winner, as
    [JSON.stringify] writes it, together with both scores, whatever the
    session held before.  Hence the stored session has a winner only with a
    score that has reached [WINNING_SCORE] in exactly these cases: a score
    of the client has reached [WINNING_SCORE], or the client had no winner
    before the check ([gameLoop] returns at once when a winner is set). *)
Theorem player1_update_justifies_winner (c : client) (w : World)
    (session : gmap string value) :
  c_playerNumber c = VNum 1 ->
  connected w ->
  stored w (Some (c_sessionId c)) = Some session ->
  exists w' session',
    handleUpdate (sendUpdate_body (after_score_check c)) w
    = (Returns success_response, w')
    /\ stored w' (Some (c_sessionId c)) = Some session'
    /\ session' !! "winner" = Some (json_value (check_win c))
    /\ session' !! "p1Score" = Some (VNum (c_p1Score c))
    /\ session' !! "p2Score" = Some (VNum (c_p2Score c))
    /\ ((WINNING_SCORE <= c_p1Score c)%Q -> check_win c = VNum 1)
    /\ (~ (WINNING_SCORE <= c_p1Score c)%Q -> (WINNING_SCORE <= c_p2Score c)%Q ->
        check_win c = VNum 2)
    /\ (~ (WINNING_SCORE <= c_p1Score c)%Q -> ~ (WINNING_SCORE <= c_p2Score c)%Q ->
        check_win c = c_winner c)
    /\ (winner_justified session'
        <-> (WINNING_SCORE <= c_p1Score c)%Q \/ (WINNING_SCORE <= c_p2Score c)%Q
            \/ json_value (c_winner c) = VNull).
Proof.
  intros Hplayer Hw Hs.
  set (c' := after_score_check c).
  assert (Hid : prop (sendUpdate_body c') "sessionId" = Some (c_sessionId c)).
  { unfold sendUpdate_body. simpl. rewrite Hplayer. reflexivity. }
  assert (Hbody : non_nullish (sendUpdate_body c') = true).
  { unfold sendUpdate_body. simpl. rewrite Hplayer. reflexivity. }
  rewrite <- Hid in Hs.
  pose proof (handleUpdate_found _ w session Hw Hbody Hs) as Hrun.
  rewrite (apply_update_player1 c' session Hplayer) in Hrun.
  rewrite Hid in Hrun. simpl in Hrun.
  assert (Hcases :
    ((WINNING_SCORE <= c_p1Score c)%Q -> check_win c = VNum 1)
    /\ (~ (WINNING_SCORE <= c_p1Score c)%Q -> (WINNING_SCORE <= c_p2Score c)%Q ->
        check_win c = VNum 2)
    /\ (~ (WINNING_SCORE <= c_p1Score c)%Q -> ~ (WINNING_SCORE <= c_p2Score c)%Q ->
        check_win c = c_winner c)).
  { unfold check_win.
    destruct (Qle_bool WINNING_SCORE (c_p1Score c)) eqn:E1.
    { apply Qle_bool_iff in E1.
      split; [reflexivity|]. split; intros; contradiction. }
    assert (Hn1 : ~ (WINNING_SCORE <= c_p1Score c)%Q).
    { intros H. apply Qle_bool_iff in H. congruence. }
    destruct (Qle_bool WINNING_SCORE (c_p2Score c)) eqn:E2.
    { apply Qle_bool_iff in E2.
      split; [intros; contradiction|]. split; [reflexivity|].
      intros; contradiction. }
    assert (Hn2 : ~ (WINNING_SCORE <= c_p2Score c)%Q).
    { intros H. apply Qle_bool_iff in H. congruence. }
    split; [intros; contradiction|]. split; [intros; contradiction|].
    reflexivity. }
  destruct Hcases as (Hone & Htwo & Hsame).
  eexists _, _. split; [exact Hrun|]. split; [apply stored_saved_json|].
  assert (Hwin : forall now s,
            JSON_stringify (stamp now (<["winner" := check_win c]> s)) !! "winner"
            = Some (json_value (check_win c))).
  { intros now s. rewrite lookup_JSON_stringify.
    rewrite lookup_stamp_ne by discriminate.
    now rewrite lookup_insert_eq. }
  assert (Hp1 : forall now s,
            JSON_stringify
              (stamp now
                 (<["winner" := check_win c]>
                    (<["p2Score" := VNum (c_p2Score c)]>
                       (<["p1Score" := VNum (c_p1Score c)]> s)))) !! "p1Score"
            = Some (VNum (c_p1Score c))).
  { intros now s. rewrite lookup_JSON_stringify, lookup_stamp_ne by discriminate.
    now simplify_map_eq. }
  assert (Hp2 : forall now s,
            JSON_stringify
              (stamp now
                 (<["winner" := check_win c]>
                    (<["p2Score" := VNum (c_p2Score c)]> s))) !! "p2Score"
            = Some (VNum (c_p2Score c))).
  { intros now s. rewrite lookup_JSON_stringify, lookup_stamp_ne by discriminate.
    now simplify_map_eq. }
  split; [apply Hwin|]. split; [apply Hp1|]. split; [apply Hp2|].
  split; [exact Hone|]. split; [exact Htwo|]. split; [exact Hsame|].
  unfold winner_justified, has_winner. rewrite Hwin, Hp1, Hp2.
  destruct (Qle_bool WINNING_SCORE (c_p1Score c)) eqn:E1.
  { apply Qle_bool_iff in E1. split; [now left|].
    intros _ _. left. now exists (c_p1Score c). }
  assert (Hn1 : ~ (WINNING_SCORE <= c_p1Score c)%Q).
  { intros H. apply Qle_bool_iff in H. congruence. }
  destruct (Qle_bool WINNING_SCORE (c_p2Score c)) eqn:E2.
  { apply Qle_bool_iff in E2. split; [now right; left|].
    intros _ _. right. now exists (c_p2Score c). }
  assert (Hn2 : ~ (WINNING_SCORE <= c_p2Score c)%Q).
  { intros H. apply Qle_bool_iff in H. congruence. }
  rewrite (Hsame Hn1 Hn2).
  split.
  - intros Hj. right. right.
    destruct (json_value (c_winner c)) as [|b|q0|s0|items|fields|negative] eqn:E;
      [reflexivity|..];
      (exfalso;
       destruct Hj as [(q & Hq & Hle) | (q & Hq & Hle)];
       [eexists; split; [reflexivity|discriminate]
       |inversion Hq; subst q; contradiction
       |inversion Hq; subst q; contradiction]).
  - intros [H | [H | H]]; [contradiction|contradiction|].
    intros (v & Hv & Hne). rewrite H in Hv. inversion Hv. subst v.
    now destruct Hne.
Qed.

(** ** The opening of a match *)

(** X20.  One connected process serves create, join, start, a state call,
    the update that starts the game and a second state call, all for the
    identifier the create call returns.  If the clock read by the first
    state call is at least 3000 ms past the one read by the start call (and
    that one is not 0), the six answers are 200; the first state call
    reports the countdown as over ([countdownActive] false,
    [countdownValue] 0, [readyToStart] true), and the second returns the
    session the store then holds: [gameStarted] true, [readyToStart] false,
    [p2Connected] true, no winner and both scores 0. *)
Theorem match_opening (w : World) :
  connected w ->
  clock w (3 + ticks w) <> 0%Z ->
  (3000 <= clock w (5 + ticks w) - clock w (3 + ticks w))%Z ->
  let id := random w (draws w) ++ random w (S (draws w)) in
  exists counted started w',
    serve (opening_requests id) w
    = ([Returns (create_response id); Returns join_response;
        Returns success_response; Returns (state_response counted);
        Returns success_response; Returns (state_response started)], w')
    /\ counted !! "countdownActive" = Some (VBool false)
    /\ counted !! "countdownValue" = Some (VNum 0)
    /\ counted !! "readyToStart" = Some (VBool true)
    /\ stored w' (Some (VStr id)) = Some started
    /\ started !! "gameStarted" = Some (VBool true)
    /\ started !! "readyToStart" = Some (VBool false)
    /\ started !! "p2Connected" = Some (VBool true)
    /\ started !! "winner" = Some VNull
    /\ started !! "p1Score" = Some (VNum 0)
    /\ started !! "p2Score" = Some (VNum 0).
Proof.
  intros Hw Hanchor Hlate id. simpl in Hanchor, Hlate.
  set (t := ticks w) in *.
  set (anchor := clock w (S (S (S t)))) in *.
  set (now := clock w (S (S (S (S (S t)))))) in *.
  set (b := Some (VObj (<["sessionId" := VStr id]> ∅)) : jsval).
  assert (Hb : prop b "sessionId" = Some (VStr id)) by reflexivity.
  assert (Hparsed : forall (x : gmap string value) text,
            Some (VObj x) <> Some (VStr text)) by (intros; discriminate).
  (* create *)
  set (s1 := stamp (clock w (S t)) (initial_session (clock w t))).
  set (w1 := saved (Some (VStr id)) (initial_session (clock w t))
               (with_ticks (S t) (with_draws (S (S (draws w))) w))).
  assert (H1 : handleRequest "POST" (mkURL [("action", "create")])
                 (Some (VObj ∅)) w = (Returns (create_response id), w1)).
  { rewrite post_dispatch_parsed by (exact Hw || apply Hparsed).
    exact (handleCreate_connected w Hw). }
  assert (Hc1 : connected w1) by exact Hw.
  assert (Hs1 : stored w1 (prop b "sessionId") = Some s1) by (apply stored_saved; json_session).
  (* join *)
  set (s2 := stamp (clock w (S (S t))) (join_fields s1)).
  set (w2 := saved (prop b "sessionId") (join_fields s1) w1).
  assert (H2 : handleRequest "POST" (mkURL [("action", "join")]) b w1
               = (Returns join_response, w2)).
  { rewrite post_dispatch_parsed by (exact Hc1 || apply Hparsed).
    exact (handleJoin_found b w1 s1 Hc1 eq_refl Hs1). }
  assert (Hc2 : connected w2) by exact Hw.
  assert (Hs2 : stored w2 (prop b "sessionId") = Some s2) by (apply stored_saved; json_session).
  (* start *)
  set (s3 := stamp (clock w (S (S (S (S t))))) (start_fields anchor s2)).
  set (w3 := saved (prop b "sessionId") (start_fields anchor s2)
               (with_ticks (S (S (S (S t)))) w2)).
  assert (H3 : handleRequest "POST" (mkURL [("action", "start")]) b w2
               = (Returns success_response, w3)).
  { rewrite post_dispatch_parsed by (exact Hc2 || apply Hparsed).
    exact (handleStart_found b w2 s2 Hc2 eq_refl Hs2). }
  assert (Hc3 : connected w3) by exact Hw.
  assert (Hs3 : stored w3 (prop b "sessionId") = Some s3) by (apply stored_saved; json_session).
  assert (Hanch3 : s3 !! "countdownStartTime" = Some (VNum (inject_Z anchor))).
  { unfold s3, start_fields. rewrite lookup_stamp_ne by discriminate.
    apply lookup_insert_eq. }
  assert (Hval3 : s3 !! "countdownValue" = Some (VNum 3)).
  { unfold s3, start_fields. rewrite lookup_stamp_ne by discriminate.
    rewrite lookup_insert_ne by discriminate. apply lookup_insert_eq. }
  assert (Hact3 : s3 !! "countdownActive" = Some (VBool true)).
  { unfold s3, start_fields. rewrite lookup_stamp_ne by discriminate.
    rewrite !lookup_insert_ne by discriminate. apply lookup_insert_eq. }
  assert (Hrun3 : countdown_running s3 = true)
    by now apply (armed_session_running anchor).
  (* the first state call *)
  set (s4 := stamp (clock w (S (S (S (S (S (S t)))))))
               (resolve_countdown now s3)).
  set (w4 := saved (prop b "sessionId") (resolve_countdown now s3)
               (with_ticks (S (S (S (S (S (S t)))))) w3)).
  assert (H4 : handleRequest "POST" (mkURL [("action", "state")]) b w3
               = (Returns (state_response s4), w4)).
  { rewrite post_dispatch_parsed by (exact Hc3 || apply Hparsed).
    exact (handleState_running b w3 s3 Hc3 eq_refl Hs3 Hrun3). }
  assert (Hc4 : connected w4) by exact Hw.
  assert (Hs4 : stored w4 (prop b "sessionId") = Some s4) by (apply stored_saved; json_session).
  destruct (resolve_armed now anchor s3 Hanch3 Hval3) as (Hv & Hzero & _).
  assert (Hz : Z.max 0 (3 - (now - anchor) / 1000) = 0%Z).
  { destruct (elapsed_seconds_bounds (now - anchor)) as (Hthree & _). lia. }
  rewrite Hz in Hv. destruct (Hzero Hz) as (Ha4 & Hr4 & Ht4).
  assert (Hframe4 : forall k,
            k ∉ ["countdownValue"; "countdownActive"; "readyToStart";
                 "countdownStartTime"] -> k <> "lastUpdate" ->
            s4 !! k = join_fields s1 !! k).
  { intros k Hk Hlu. unfold s4. rewrite lookup_stamp_ne by exact Hlu.
    rewrite lookup_resolve_countdown_other by exact Hk.
    repeat (apply not_elem_of_cons in Hk as [? Hk]).
    unfold s3. rewrite lookup_stamp_ne by exact Hlu.
    unfold start_fields. rewrite !lookup_insert_ne by congruence.
    unfold s2. rewrite lookup_stamp_ne by exact Hlu. reflexivity. }
  (* the update that starts the game *)
  set (b5 := Some (VObj (<["sessionId" := VStr id]>
                         (<["readyToStart" := VBool false]>
                          (<["gameStarted" := VBool true]> ∅)))) : jsval).
  assert (Hu5 : apply_update b5 s4
                = <["readyToStart" := VBool false]>
                    (<["gameStarted" := VBool true]> s4)) by reflexivity.
  set (s5 := stamp (clock w (S (S (S (S (S (S (S t))))))))
               (<["readyToStart" := VBool false]>
                  (<["gameStarted" := VBool true]> s4))).
  set (w5 := saved (prop b "sessionId")
               (<["readyToStart" := VBool false]>
                  (<["gameStarted" := VBool true]> s4)) w4).
  assert (H5 : handleRequest "POST" (mkURL [("action", "update")]) b5 w4
               = (Returns success_response, w5)).
  { rewrite post_dispatch_parsed by (exact Hc4 || apply Hparsed).
    pose proof (handleUpdate_found b5 w4 s4 Hc4 eq_refl Hs4) as Hrun.
    rewrite Hu5 in Hrun. exact Hrun. }
  assert (Hc5 : connected w5) by exact Hw.
  assert (Hs5 : stored w5 (prop b "sessionId") = Some s5) by (apply stored_saved; json_session).
  assert (Hframe5 : forall k, k <> "readyToStart" -> k <> "gameStarted" ->
            k <> "lastUpdate" -> s5 !! k = s4 !! k).
  { intros k Hk1 Hk2 Hk3. unfold s5. rewrite lookup_stamp_ne by exact Hk3.
    now rewrite !lookup_insert_ne by congruence. }
  assert (Hidle5 : countdown_running s5 = false).
  { unfold countdown_running. rewrite (Hframe5 "countdownActive") by discriminate.
    unfold s4. rewrite lookup_stamp_ne by discriminate. now rewrite Ha4. }
  (* the second state call *)
  assert (H6 : handleRequest "POST" (mkURL [("action", "state")]) b w5
               = (Returns (state_response s5), w5)).
  { rewrite post_dispatch_parsed by (exact Hc5 || apply Hparsed).
    exact (handleState_idle b w5 s5 Hc5 eq_refl Hs5 Hidle5). }
  exists s4, s5, w5. split.
  { unfold opening_requests. cbn [serve req_method req_url req_body].
    fold b b5. rewrite H1, H2, H3, H4, H5, H6. reflexivity. }
  unfold s4 at 1 2 3. rewrite !lookup_stamp_ne by discriminate.
  split; [exact Ha4|]. split; [exact Hv|]. split; [exact Hr4|].
  split; [exact Hs5|].
  split; [unfold s5; rewrite lookup_stamp_ne by discriminate;
          rewrite lookup_insert_ne by discriminate; apply lookup_insert_eq|].
  split; [unfold s5; rewrite lookup_stamp_ne by discriminate;
          apply lookup_insert_eq|].
  assert (Hnot : forall k, k = "p2Connected" \/ k = "winner" \/ k = "p1Score"
                           \/ k = "p2Score" ->
            k ∉ ["countdownValue"; "countdownActive"; "readyToStart";
                 "countdownStartTime"]).
  { intros k [-> | [-> | [-> | ->]]];
      repeat (apply not_elem_of_cons; split; [discriminate|]);
      apply not_elem_of_nil. }
  rewrite !Hframe5 by discriminate.
  rewrite !Hframe4 by (auto 6 || discriminate).
  unfold s1, join_fields.
  rewrite lookup_insert_eq. rewrite !lookup_insert_ne by discriminate.
  rewrite !lookup_stamp_ne by discriminate.
  repeat split; reflexivity.
Qed.

(** ** Edges of state and update *)

(** X21.  A countdown without an anchor never resolves.  When
    [countdownStartTime] is absent, null or 0, the state call skips the
    countdown block whatever [countdownActive] holds: it returns the stored
    session as it is and writes nothing, at any time of the clock. *)
Theorem unanchored_countdown_never_resolves (request : jsval) (w : World)
    (session : gmap string value) :
  connected w ->
  non_nullish request = true ->
  stored w (prop request "sessionId") = Some session ->
  session !! "countdownStartTime" = None
  \/ session !! "countdownStartTime" = Some VNull
  \/ session !! "countdownStartTime" = Some (VNum 0) ->
  handleState request w = (Returns (state_response session), w).
Proof.
  intros Hw Hbody Hs Hanchor.
  apply handleState_idle; try assumption.
  unfold countdown_running.
  destruct Hanchor as [-> | [-> | ->]]; simpl; apply andb_false_r.
Qed.

(** X22.  The ball fields travel together.  When an update body carries
    [ballX], each of [ballX], [ballY], [ballVelX] and [ballVelY] of the
    stored session becomes what the body has under that name, as
    [JSON.stringify] writes it (an infinite number as [null]), and a ball
    field the body lacks is removed from the session; when the body carries
    no [ballX], the four fields stay as they were, whatever else of the
    ball the body supplies. *)
Theorem update_ball_group (request : jsval) (w : World)
    (session : gmap string value) :
  connected w ->
  non_nullish request = true ->
  stored w (prop request "sessionId") = Some session ->
  exists w' session',
    handleUpdate request w = (Returns success_response, w')
    /\ stored w' (prop request "sessionId") = Some session'
    /\ forall k, k ∈ ["ballX"; "ballY"; "ballVelX"; "ballVelY"] ->
         session' !! k
         = (if defined (prop request "ballX")
            then json_value <$> prop request k
            else session !! k)
         /\ (defined (prop request "ballX") = true ->
             forall q, prop request k = Some (VNum q) ->
                       session' !! k = Some (VNum q))
         /\ (defined (prop request "ballX") = true ->
             forall negative, prop request k = Some (VInf negative) ->
                              session' !! k = Some VNull).
Proof.
  intros Hw Hbody Hs.
  pose proof (stored_is_json _ _ _ Hs) as Hj.
  exists (saved (prop request "sessionId") (apply_update request session) w),
    (JSON_stringify (stamp (clock w (ticks w)) (apply_update request session))).
  split; [now apply handleUpdate_found|].
  split; [apply stored_saved_json|].
  intros k Hin.
  assert (Hball : update_ball request (update_paddle request session) !! k
                  = if defined (prop request "ballX") then prop request k
                    else session !! k).
  { destruct (defined (prop request "ballX")) eqn:Hx.
    - apply lookup_update_ball_present; assumption.
    - unfold update_ball. rewrite Hx.
      apply lookup_update_paddle_ne; intros ->;
        repeat (apply elem_of_cons in Hin as [Hin|Hin]; [discriminate|]);
        now apply elem_of_nil in Hin. }
  assert (Hstored :
    JSON_stringify (stamp (clock w (ticks w)) (apply_update request session)) !! k
    = if defined (prop request "ballX") then json_value <$> prop request k
      else session !! k).
  { rewrite lookup_JSON_stringify.
    transitivity (json_value <$>
                    update_ball request (update_paddle request session) !! k).
    - repeat (apply elem_of_cons in Hin as [->|Hin];
              [rewrite lookup_stamp_ne by discriminate; unfold apply_update;
               rewrite !lookup_update_field_ne by discriminate;
               rewrite lookup_update_countdownActive_ne by discriminate;
               rewrite !lookup_update_field_ne by discriminate;
               reflexivity|]).
      now apply elem_of_nil in Hin.
    - rewrite Hball. destruct (defined (prop request "ballX")); [reflexivity|].
      now apply is_json_lookup. }
  split; [exact Hstored|].
  split; intros Hx v Hv; rewrite Hstored, Hx, Hv; reflexivity.
Qed.

End Further.

(** * The properties on the example process *)

Section Examples.
#[local] Existing Instance example_engine.

Lemma connected_example : connected example_world.
Proof. split; reflexivity. Qed.

Lemma created_world_saved :
  created_world
  = saved (Some (VStr example_id)) (initial_session 1700000000000)
      (with_ticks 1 (with_draws 2 example_world)).
Proof.
  unfold created_world, world_after.
  rewrite (handleCreate_connected example_world connected_example).
  reflexivity.
Qed.

Lemma connected_created : connected created_world.
Proof. split; reflexivity. Qed.

Lemma created_session :
  stored created_world (Some (VStr example_id))
  = Some (stamp 1700000000050 (initial_session 1700000000000)).
Proof. rewrite created_world_saved. apply stored_saved. json_session. Qed.

Lemma started_world_saved :
  started_world
  = saved (Some (VStr example_id))
      (start_fields 1700000000100
         (stamp 1700000000050 (initial_session 1700000000000)))
      (with_ticks 3 created_world).
Proof.
  unfold started_world, world_after.
  rewrite (handleStart_found id_body created_world _ connected_created
             eq_refl created_session).
  reflexivity.
Qed.

Lemma connected_started : connected started_world.
Proof. split; reflexivity. Qed.

Lemma started_session :
  stored started_world (Some (VStr example_id))
  = Some (stamp 1700000000150
            (start_fields 1700000000100
               (stamp 1700000000050 (initial_session 1700000000000)))).
Proof. rewrite started_world_saved. apply stored_saved. json_session. Qed.

Lemma later_started_session :
  stored (later 3000 started_world) (prop id_body "sessionId")
  = Some (stamp 1700000000150
            (start_fields 1700000000100
               (stamp 1700000000050 (initial_session 1700000000000)))).
Proof. exact started_session. Qed.

(** Three seconds after a start call the state call reports the countdown
    as over. *)
Lemma state_resolves_countdown_example :
  remaining_seconds 1700000003200 (inject_Z 1700000000100) = 0%Z
  /\ exists w' session',
      handleState id_body (later 3000 started_world)
      = (Returns (state_response session'), w')
      /\ stored w' (Some (VStr example_id)) = Some session'
      /\ (exists q, session' !! "countdownValue" = Some (VNum q) /\ (q == 0)%Q)
      /\ session' !! "countdownActive" = Some (VBool false)
      /\ session' !! "readyToStart" = Some (VBool true)
      /\ session' !! "countdownStartTime" = Some VNull.
Proof.
  split; [reflexivity|].
  destruct (state_resolves_countdown id_body (later 3000 started_world) _
              (inject_Z 1700000000100)
              (conj eq_refl eq_refl) eq_refl later_started_session)
    as (w' & session' & Hrun & Hstored & (q & Hq & Hqeq & _) & Hzero & _).
  - unfold start_fields. rewrite lookup_stamp_ne by discriminate.
    rewrite lookup_insert_ne by discriminate.
    rewrite lookup_insert_ne by discriminate.
    rewrite lookup_insert_eq. reflexivity.
  - unfold start_fields. rewrite lookup_stamp_ne by discriminate.
    apply lookup_insert_eq.
  - intros H. vm_compute in H. discriminate H.
  - exists w', session'. split; [exact Hrun|]. split; [exact Hstored|].
    split; [exists q; split; [exact Hq|exact Hqeq]|].
    apply Hzero. reflexivity.
Defined.

Lemma store_down_unreachable :
  store_down (Some "connect ECONNREFUSED 127.0.0.1:6379") unreachable_world.
Proof. repeat split; reflexivity. Qed.

(** A fresh process while the store is down: the create call gets no
    answer; the state call that follows is answered 503. *)
Lemma post_store_down_unanswered_example :
  store_down (Some "connect ECONNREFUSED 127.0.0.1:6379") unreachable_world
  /\ exists w',
      handleRequest "POST" (action_url "create") (Some (VObj ∅)) unreachable_world
      = (Pending, w')
      /\ store w' = store unreachable_world
      /\ redisUnavailable w' = true
      /\ handleRequest "POST" (action_url "state") id_body w'
         = (Returns (unavailable_response
                       (Some "connect ECONNREFUSED 127.0.0.1:6379")), w').
Proof.
  split; [exact store_down_unreachable|].
  destruct (post_store_down_unanswered (action_url "create") (Some (VObj ∅))
              unreachable_world (Some "connect ECONNREFUSED 127.0.0.1:6379")
              store_down_unreachable)
    as (w' & Hrun & _ & Hstore & _ & _ & Hmark & _ & Hnext & _).
  exists w'. split; [exact Hrun|]. split; [exact Hstore|].
  split; [exact Hmark|]. apply Hnext.
Defined.

Lemma get_with_action_not_allowed_example :
  handleRequest "GET" (action_url "state") None example_world
  = (Returns (error_response 405 "Method not allowed"), example_world).
Proof.
  apply (get_with_action_not_allowed (action_url "state") None example_world
           "state").
  - reflexivity.
  - discriminate.
Defined.

(** Two create calls in a row on the example process: the generator moves
    from 0 to 2 and then to 4, the two identifiers are made of different
    draws, and the store, empty before, holds one session after the first
    call. *)
Lemma create_then_read_back_example :
  exists w' session w'',
    handleCreate example_world = (Returns (create_response example_id), w')
    /\ handleState id_body w' = (Returns (state_response session), w')
    /\ session !! "gameStarted" = Some (VBool false)
    /\ session !! "winner" = Some VNull
    /\ session !! "ballX" = Some (VNum 400)
    /\ draws example_world = 0 /\ draws w' = 2 /\ draws w'' = 4
    /\ handleCreate w'
       = (Returns (create_response "p5o4i3u2y1tr9e8w7q6a5s"), w'')
    /\ stored example_world (Some (VStr example_id)) = None
    /\ size (store w') = 1.
Proof.
  destruct (create_then_read_back example_world id_body connected_example
              eq_refl eq_refl)
    as (w' & session & Hcreate & _ & _ & _ & Hstate & Hgs & Hwin & _ & _ & Hx
        & _ & _ & _ & Hdraws & _ & (w'' & Hnext & Hdraws') & Hsize).
  exists w', session, w''.
  split; [exact Hcreate|]. split; [exact Hstate|]. split; [exact Hgs|].
  split; [exact Hwin|]. split; [exact Hx|]. split; [reflexivity|].
  split; [exact Hdraws|]. split; [now rewrite Hdraws', Hdraws|].
  split; [exact Hnext|]. split; [reflexivity|].
  now apply Hsize.
Defined.

Lemma join_idempotent_example :
  exists w1 w2 s1 s2,
    handleJoin id_body created_world = (Returns join_response, w1)
    /\ handleJoin id_body w1 = (Returns join_response, w2)
    /\ stored w1 (Some (VStr example_id)) = Some s1
    /\ stored w2 (Some (VStr example_id)) = Some s2
    /\ (forall k, k <> "lastUpdate" -> s2 !! k = s1 !! k).
Proof.
  destruct (join_idempotent id_body created_world _ connected_created
              eq_refl created_session)
    as (w1 & w2 & s1 & s2 & H1 & H2 & _ & _ & Hs1 & Hs2 & _ & _ & Hsame).
  exists w1, w2, s1, s2. repeat split; assumption.
Defined.

Lemma apply_update_played (session : gmap string value) :
  apply_update played_body session
  = <["readyToStart" := VBool true]>
    (<["gameStarted" := VBool true]>
    (<["winner" := VNum 1]>
    (<["p2Score" := VNum 1]>
    (<["p1Score" := VNum 3]>
    (<["ballSpeedMultiplier" := VNum 1.5]>
    (<["ballVelY" := VNum 11.25]>
    (<["ballVelX" := VNum (-15 # 1)]>
    (<["ballY" := VNum 120]>
    (<["ballX" := VNum 790]> session))))))))).
Proof. reflexivity. Qed.

Lemma played_world_saved :
  played_world
  = saved (Some (VStr example_id))
      (apply_update played_body
         (stamp 1700000000050 (initial_session 1700000000000)))
      created_world.
Proof.
  unfold played_world, world_after.
  rewrite (handleUpdate_found played_body created_world _ connected_created
             eq_refl created_session).
  reflexivity.
Qed.

Lemma connected_played : connected played_world.
Proof. rewrite played_world_saved. apply connected_saved, connected_created. Qed.

Lemma played_session :
  stored played_world (Some (VStr example_id))
  = Some (stamp 1700000000100
            (apply_update played_body
               (stamp 1700000000050 (initial_session 1700000000000)))).
Proof.
  rewrite played_world_saved. apply stored_saved.
  rewrite apply_update_played. json_session.
Qed.

(** Reset at the end of a match that player 1 has won 3 to 1: the stored
    session, which held the scores, the winner, a moved and faster ball,
    [gameStarted] and [readyToStart] true and no countdown, holds after the
    call what a new session holds, with the countdown armed. *)
Lemma reset_restores_initial_example :
  exists before w' session',
    stored played_world (Some (VStr example_id)) = Some before
    /\ before !! "p1Score" = Some (VNum 3)
    /\ before !! "p2Score" = Some (VNum 1)
    /\ before !! "winner" = Some (VNum 1)
    /\ before !! "ballX" = Some (VNum 790)
    /\ before !! "ballY" = Some (VNum 120)
    /\ before !! "ballVelX" = Some (VNum (-15 # 1))
    /\ before !! "ballVelY" = Some (VNum 11.25)
    /\ before !! "ballSpeedMultiplier" = Some (VNum 1.5)
    /\ before !! "gameStarted" = Some (VBool true)
    /\ before !! "readyToStart" = Some (VBool true)
    /\ before !! "countdownActive" = Some (VBool false)
    /\ before !! "countdownValue" = Some (VNum 0)
    /\ before !! "countdownStartTime" = None
    /\ handleReset id_body played_world = (Returns success_response, w')
    /\ stored w' (Some (VStr example_id)) = Some session'
    /\ session' !! "p1Score" = Some (VNum 0)
    /\ session' !! "p2Score" = Some (VNum 0)
    /\ session' !! "winner" = Some VNull
    /\ session' !! "ballX" = Some (VNum 400)
    /\ session' !! "ballY" = Some (VNum 300)
    /\ session' !! "ballVelX" = Some (VNum 10)
    /\ session' !! "ballVelY" = Some (VNum 7.5)
    /\ session' !! "ballSpeedMultiplier" = Some (VNum 1)
    /\ session' !! "gameStarted" = Some (VBool false)
    /\ session' !! "readyToStart" = Some (VBool false)
    /\ session' !! "countdownActive" = Some (VBool true)
    /\ session' !! "countdownValue" = Some (VNum 3)
    /\ session' !! "countdownStartTime"
       = Some (VNum (inject_Z (clock played_world (ticks played_world))))
    /\ clock played_world (ticks played_world) = 1700000000150%Z.
Proof.
  destruct (reset_restores_initial id_body played_world _
              connected_played eq_refl played_session)
    as (w' & session' & Hrun & Hs & _ & Hx & Hy & Hvx & Hvy & Hm & Hp1 & Hp2
        & Hwin & Hgs & Hca & Hcv & Hct & Hready).
  eexists _, w', session'. split; [exact played_session|].
  rewrite apply_update_played.
  do 13 (split; [reflexivity|]).
  split; [exact Hrun|]. split; [exact Hs|].
  split; [exact Hp1|]. split; [exact Hp2|]. split; [exact Hwin|].
  split; [exact Hx|]. split; [exact Hy|]. split; [exact Hvx|].
  split; [exact Hvy|]. split; [exact Hm|]. split; [exact Hgs|].
  split; [exact Hready|]. split; [exact Hca|]. split; [exact Hcv|].
  split; [exact Hct|].
  rewrite played_world_saved. reflexivity.
Defined.

Lemma paddle_update_frame_example :
  exists w' session',
    handleUpdate (paddle2_body (VStr example_id)) created_world
    = (Returns success_response, w')
    /\ stored w' (Some (VStr example_id)) = Some session'
    /\ session' !! "p2Y" = Some (VNum 150)
    /\ session' !! "p1Y" = Some (VNum 300).
Proof.
  destruct (paddle_update_frame (VStr example_id) created_world _
              connected_created created_session)
    as (w' & session' & Hrun & Hs & Hp2 & _ & Hframe).
  exists w', session'. split; [exact Hrun|]. split; [exact Hs|].
  split; [exact Hp2|].
  rewrite Hframe by discriminate. reflexivity.
Defined.

Lemma created_ballY :
  stamp 1700000000050 (initial_session 1700000000000) !! "ballY"
  = Some (VNum 300).
Proof. reflexivity. Qed.

Lemma created_scores :
  stamp 1700000000050 (initial_session 1700000000000) !! "p1Score"
  = Some (VNum 0)
  /\ stamp 1700000000050 (initial_session 1700000000000) !! "p2Score"
     = Some (VNum 0).
Proof. split; reflexivity. Qed.

(** What the update bodies of the examples assign. *)
Lemma apply_update_ballY_only (session : gmap string value) :
  apply_update ballY_only_body session = session.
Proof. reflexivity. Qed.

Lemma apply_update_ballX_only (session : gmap string value) :
  apply_update ballX_only_body session
  = delete "ballVelY"
      (delete "ballVelX" (delete "ballY" (<["ballX" := VNum 5]> session))).
Proof. reflexivity. Qed.

Lemma apply_update_winner_only (session : gmap string value) :
  apply_update winner_only_body session = <["winner" := VNum 1]> session.
Proof. reflexivity. Qed.

Lemma apply_update_player1_won (session : gmap string value) :
  apply_update player1_won_body session
  = <["winner" := VNum 1]>
      (<["p2Score" := VNum 1]> (<["p1Score" := VNum 3]> session)).
Proof. reflexivity. Qed.

(** An update call on the session of [created_world]. *)
Lemma update_created (request : jsval) :
  non_nullish request = true ->
  prop request "sessionId" = Some (VStr example_id) ->
  handleUpdate request created_world
  = (Returns success_response,
     saved (Some (VStr example_id))
       (apply_update request
          (stamp 1700000000050 (initial_session 1700000000000)))
       created_world).
Proof.
  intros Hbody Hid.
  rewrite <- Hid.
  apply handleUpdate_found; [exact connected_created | exact Hbody |].
  rewrite Hid. exact created_session.
Qed.

(** C3, counterexample.  On a session just created (ball at (400, 300)),
    an update that supplies [ballY] alone answers 200 and leaves [ballY] at
    300; an update that supplies [ballX] alone answers 200 and removes
    [ballY], which the body does not mention. *)
Lemma update_ball_field_alone_counterexample :
  (exists session,
     result_of (handleUpdate ballY_only_body) created_world
     = Returns success_response
     /\ prop ballY_only_body "ballY" = Some (VNum 123)
     /\ stored (world_after (handleUpdate ballY_only_body) created_world)
          (Some (VStr example_id)) = Some session
     /\ session !! "ballY" = Some (VNum 300))
  /\ (exists before session,
       result_of (handleUpdate ballX_only_body) created_world
       = Returns success_response
       /\ prop ballX_only_body "ballY" = None
       /\ stored created_world (Some (VStr example_id)) = Some before
       /\ before !! "ballY" = Some (VNum 300)
       /\ stored (world_after (handleUpdate ballX_only_body) created_world)
            (Some (VStr example_id)) = Some session
       /\ session !! "ballY" = None).
Proof.
  unfold result_of, world_after.
  rewrite (update_created ballY_only_body eq_refl eq_refl).
  rewrite (update_created ballX_only_body eq_refl eq_refl).
  rewrite apply_update_ballY_only, apply_update_ballX_only.
  split.
  - eexists. split; [reflexivity|]. split; [reflexivity|].
    split; [apply stored_saved; json_session|].
    rewrite lookup_stamp_ne by discriminate. exact created_ballY.
  - eexists _, _. split; [reflexivity|]. split; [reflexivity|].
    split; [exact created_session|]. split; [exact created_ballY|].
    split; [apply stored_saved; json_session|].
    rewrite lookup_stamp_ne by discriminate.
    rewrite !lookup_delete_ne by discriminate.
    apply lookup_delete_eq.
Qed.

(** An update with a score: the score is stored, the other score and the
    ball stay, and the state call returns the stored session.  An update
    whose [ballSpeedMultiplier] was read as [Infinity]: [null] is stored. *)
Lemma update_patch_and_round_trip_example :
  (exists w' session',
     handleUpdate score_body created_world = (Returns success_response, w')
     /\ session' !! "p1Score" = Some (VNum 2)
     /\ session' !! "p2Score" = Some (VNum 0)
     /\ session' !! "ballY" = Some (VNum 300)
     /\ handleState id_body w' = (Returns (state_response session'), w'))
  /\ (exists w' session',
       handleUpdate infinite_speed_body created_world
       = (Returns success_response, w')
       /\ stored w' (Some (VStr example_id)) = Some session'
       /\ prop infinite_speed_body "ballSpeedMultiplier" = Some (VInf false)
       /\ session' !! "ballSpeedMultiplier" = Some VNull).
Proof.
  split.
  - destruct (update_patch_and_round_trip score_body created_world _
                connected_created eq_refl created_session)
      as (w' & session' & Hrun & Hs & Hnamed & _ & _ & Hball & _ & _ & _ & _
          & Hstate).
    assert (H1 : session' !! "p1Score" = Some (VNum 2)).
    { rewrite Hnamed; [reflexivity|]. repeat constructor. }
    assert (H2 : session' !! "p2Score" = Some (VNum 0)).
    { rewrite Hnamed; [reflexivity|]. repeat constructor. }
    assert (Hy : session' !! "ballY" = Some (VNum 300)).
    { rewrite Hball; [reflexivity|reflexivity|]. repeat constructor. }
    assert (Hactive : session' !! "countdownActive" = Some (VBool false)).
    { rewrite Hnamed; [reflexivity|]. repeat constructor. }
    exists w', session'. split; [exact Hrun|].
    split; [exact H1|]. split; [exact H2|]. split; [exact Hy|].
    apply Hstate; [|reflexivity|reflexivity].
    unfold countdown_running. now rewrite Hactive.
  - destruct (update_patch_and_round_trip infinite_speed_body created_world _
                connected_created eq_refl created_session)
      as (w' & session' & Hrun & Hs & _ & Hvalue & _).
    exists w', session'. split; [exact Hrun|]. split; [exact Hs|].
    split; [reflexivity|].
    destruct (Hvalue "ballSpeedMultiplier" (VInf false)) as [_ Hinf];
      [repeat constructor | reflexivity |].
    now apply (Hinf false).
Defined.

(** C4, counterexample.  A create call followed by an update whose body is
    [{ sessionId, winner: 1 }] leaves a stored session with a winner and
    both scores at 0. *)
Lemma winner_without_score_counterexample :
  reachable (fun _ => True)
    (world_after (run (Update winner_only_body))
       (world_after (run Create) example_world))
  /\ exists session,
      stored (world_after (run (Update winner_only_body))
                (world_after (run Create) example_world))
        (Some (VStr example_id)) = Some session
      /\ has_winner session
      /\ session !! "winner" = Some (VNum 1)
      /\ session !! "p1Score" = Some (VNum 0)
      /\ session !! "p2Score" = Some (VNum 0)
      /\ ~ (score_reached (session !! "p1Score")
            \/ score_reached (session !! "p2Score")).
Proof.
  split.
  - apply reachable_operation; [|exact I].
    apply reachable_operation; [|exact I].
    now apply reachable_initial.
  - change (world_after (run Create) example_world) with created_world.
    unfold world_after at 1. simpl run.
    rewrite (update_created winner_only_body eq_refl eq_refl).
    rewrite apply_update_winner_only.
    destruct created_scores as [Hp1 Hp2].
    eexists. split; [apply stored_saved; json_session|].
    assert (Hwin : forall now s,
              stamp now (<["winner" := VNum 1]> s) !! "winner" = Some (VNum 1)).
    { intros now s. rewrite lookup_stamp_ne by discriminate.
      apply lookup_insert_eq. }
    assert (Hscore : forall now s k, k = "p1Score" \/ k = "p2Score" ->
              stamp now (<["winner" := VNum 1]> s) !! k = s !! k).
    { intros now s k [-> | ->]; rewrite lookup_stamp_ne by discriminate;
        now rewrite lookup_insert_ne by discriminate. }
    split; [exists (VNum 1); split; [apply Hwin|discriminate]|].
    split; [apply Hwin|].
    rewrite !Hscore by auto. rewrite Hp1, Hp2.
    split; [reflexivity|]. split; [reflexivity|].
    intros [(q & Hq & Hle) | (q & Hq & Hle)];
      inversion Hq; subst q; vm_compute in Hle; now apply Hle.
Qed.

Lemma winner_only_at_winning_score_example :
  exists session,
    stored (world_after (run (Update player1_won_body))
              (world_after (run Create) example_world))
      (Some (VStr example_id)) = Some session
    /\ has_winner session
    /\ (score_reached (session !! "p1Score")
        \/ score_reached (session !! "p2Score")).
Proof.
  set (w := world_after (run (Update player1_won_body))
              (world_after (run Create) example_world)).
  set (won := stamp 1700000000100
                (apply_update player1_won_body
                   (stamp 1700000000050 (initial_session 1700000000000)))).
  assert (Hreach : reachable client_shaped w).
  { apply reachable_operation.
    - apply reachable_operation; [|exact I]. now apply reachable_initial.
    - right. exists (VNum 1). split; [reflexivity|]. intros _. left.
      exists 3%Q. split; [reflexivity|]. vm_compute. discriminate. }
  assert (Hjson : is_json won).
  { unfold won. rewrite apply_update_player1_won. json_session. }
  assert (Hraw : store w !! session_key (Some (VStr example_id)) = Some won).
  { unfold w. change (world_after (run Create) example_world) with created_world.
    unfold world_after. simpl run.
    rewrite (update_created player1_won_body eq_refl eq_refl).
    simpl snd. rewrite store_saved, lookup_insert_eq.
    change (Some (JSON_stringify won) = Some won).
    unfold is_json in Hjson. now rewrite Hjson. }
  assert (Hs : stored w (Some (VStr example_id)) = Some won).
  { unfold stored. rewrite Hraw.
    change (Some (JSON_stringify won) = Some won).
    unfold is_json in Hjson. now rewrite Hjson. }
  assert (Hwin : has_winner won).
  { exists (VNum 1). split; [|discriminate].
    unfold won. rewrite apply_update_player1_won.
    rewrite lookup_stamp_ne by discriminate. apply lookup_insert_eq. }
  exists won. split; [exact Hs|]. split; [exact Hwin|].
  exact (winner_only_at_winning_score w Hreach _ _ Hraw Hwin).
Defined.

(** A score that was read as [Infinity] is stored as [null]: the body
    [{ sessionId, winner: 1, p1Score: 1e400 }], which has not the shape the
    browser client sends, leaves a winner and no score that has reached
    [WINNING_SCORE]. *)
Lemma infinite_score_is_stored_null :
  ~ client_shaped infinite_score_body
  /\ exists session,
      stored (world_after (handleUpdate infinite_score_body) created_world)
        (Some (VStr example_id)) = Some session
      /\ session !! "winner" = Some (VNum 1)
      /\ session !! "p1Score" = Some VNull
      /\ session !! "p2Score" = Some (VNum 0).
Proof.
  split.
  - intros [(Hw & _) | (v & Hv & Hscore)]; [discriminate Hw|].
    inversion Hv. subst v.
    destruct (Hscore ltac:(discriminate)) as [(q & Hq & _) | (q & Hq & _)];
      discriminate Hq.
  - unfold world_after.
    rewrite (update_created infinite_score_body eq_refl eq_refl).
    eexists. split; [apply stored_saved_json|].
    assert (Hupd : forall s, apply_update infinite_score_body s
                   = <["winner" := VNum 1]> (<["p1Score" := VInf false]> s))
      by reflexivity.
    rewrite Hupd, !lookup_JSON_stringify.
    rewrite !lookup_stamp_ne by discriminate.
    rewrite lookup_insert_eq.
    rewrite (lookup_insert_ne _ "winner" "p1Score") by discriminate.
    rewrite lookup_insert_eq.
    rewrite !(lookup_insert_ne _ _ "p2Score") by discriminate.
    destruct created_scores as [_ ->].
    repeat split; reflexivity.
Qed.

(** C9, counterexample.  A POST request whose body is the truncated text
    [{] makes [JSON.parse] throw a [SyntaxError]; the answer is 500 and its
    [error] is the message of that exception. *)
Lemma error_message_in_500_counterexample :
  JSON_parse "{" example_world
  = (Throws (OtherError "SyntaxError" "Unexpected end of JSON input"),
     example_world)
  /\ handleRequest "POST" (action_url "join") (Some (VStr "{")) example_world
     = (Returns (error_response 500 "Unexpected end of JSON input"),
        example_world)
  /\ body (error_response 500 "Unexpected end of JSON input")
     = Json (<["success" := VBool false]>
             (<["error" := VStr "Unexpected end of JSON input"]> ∅)).
Proof. repeat split; reflexivity. Qed.

Lemma guarded_exception_500_message_example :
  handleRequest "POST" (action_url "update") (Some (VStr "{")) example_world
  = (Returns (error_response 500 "Unexpected end of JSON input"), example_world).
Proof.
  apply (guarded_exception_500_message (action_url "update") (Some (VStr "{"))
           example_world example_world
           (OtherError "SyntaxError" "Unexpected end of JSON input"));
    reflexivity.
Defined.

(** An exception thrown by an action handler is not seen by the [catch]
    clause of [handleRequest]: with a [null] body the join handler fails
    on [body.sessionId], and the request has no answer at all. *)
Lemma handler_exception_escapes :
  handleRequest "POST" (action_url "join") (Some VNull) example_world
  = (Throws (OtherError "TypeError"
               "Cannot read properties of null (reading 'sessionId')"),
     example_world).
Proof. reflexivity. Qed.

End Examples.

Section FurtherExamples.
#[local] Existing Instance example_engine.

Lemma start_arms_countdown_example :
  exists w' session',
    handleStart id_body created_world = (Returns success_response, w')
    /\ stored w' (Some (VStr example_id)) = Some session'
    /\ session' !! "countdownValue" = Some (VNum 3)
    /\ session' !! "countdownStartTime" = Some (VNum 1700000000100)
    /\ session' !! "p1Score" = Some (VNum 0).
Proof.
  destruct (start_arms_countdown id_body created_world _ connected_created
              eq_refl created_session)
    as (w' & session' & Hrun & _ & Hs & _ & Hv & Ht & Hframe & _).
  exists w', session'. split; [exact Hrun|]. split; [exact Hs|].
  split; [exact Hv|]. split; [exact Ht|].
  rewrite Hframe; [reflexivity|].
  repeat (apply not_elem_of_cons; split; [discriminate|]).
  apply not_elem_of_nil.
Defined.

Lemma start_then_state_example :
  exists w3 session3,
    handleState id_body (later 3000 started_world)
    = (Returns (state_response session3), w3)
    /\ session3 !! "countdownActive" = Some (VBool false)
    /\ session3 !! "countdownValue" = Some (VNum 0)
    /\ session3 !! "readyToStart" = Some (VBool true).
Proof.
  destruct (start_then_state id_body created_world (later 3000 started_world) _
              connected_created eq_refl created_session)
    as (w3 & session3 & Hrun & _ & Hlate & _).
  - discriminate.
  - split; reflexivity.
  - reflexivity.
  - exists w3, session3. split; [exact Hrun|].
    destruct Hlate as (Ha & Hv & Hr & _); [vm_compute; discriminate|].
    repeat split; assumption.
Defined.

Lemma stored_later (ms : Z) (w : World) (id : jsval) :
  stored (later ms w) id = stored w id.
Proof. reflexivity. Qed.

Lemma connected_later (ms : Z) (w : World) :
  connected w -> connected (later ms w).
Proof. now intros [Hu Hc]. Qed.

Lemma connected_after_state :
  connected (world_after (handleState id_body) (later 3000 started_world)).
Proof. split; reflexivity. Qed.

Lemma resolved_countdown_is_final_example :
  exists resolved,
    result_of (handleState id_body) (later 3000 started_world)
    = Returns (state_response resolved)
    /\ handleState id_body
         (later 60000 (world_after (handleState id_body) (later 3000 started_world)))
       = (Returns (state_response resolved),
          later 60000 (world_after (handleState id_body) (later 3000 started_world))).
Proof.
  destruct (resolved_countdown_is_final id_body (later 3000 started_world)
              (later 60000 (world_after (handleState id_body)
                              (later 3000 started_world)))
              _ 1700000000100
              (conj eq_refl eq_refl) eq_refl later_started_session)
    as (resolved & Hres & _ & Hagain).
  - unfold start_fields. rewrite lookup_stamp_ne by discriminate.
    rewrite !lookup_insert_ne by discriminate.
    rewrite lookup_insert_eq. reflexivity.
  - unfold start_fields. rewrite lookup_stamp_ne by discriminate.
    apply lookup_insert_eq.
  - discriminate.
  - vm_compute. discriminate.
  - apply connected_later. exact connected_after_state.
  - apply stored_later.
  - exists resolved. split; [exact Hres|exact Hagain].
Defined.

Lemma game_start_handshake_example :
  exists w' session',
    handleUpdate (game_started_body example_player1) created_world
    = (Returns success_response, w')
    /\ handleState (game_started_body example_player1) w'
       = (Returns (state_response session'), w')
    /\ session' !! "gameStarted" = Some (VBool true)
    /\ session' !! "readyToStart" = Some (VBool false).
Proof.
  destruct (game_start_handshake example_player1 created_world _
              connected_created created_session eq_refl)
    as (w' & session' & Hrun & Hstate & Hgs & Hr & _).
  exists w', session'. repeat split; assumption.
Defined.

Lemma missing_session_404_example :
  run (Join id_body) example_world = (Returns session_not_found, example_world)
  /\ run (State id_body) example_world
     = (Returns session_not_found, example_world).
Proof.
  split.
  - apply (missing_session_404 (Join id_body) example_world connected_example).
    + discriminate.
    + intros body [H|[H|[H|[H|H]]]]; inversion H; reflexivity.
    + reflexivity.
  - apply (missing_session_404 (State id_body) example_world connected_example).
    + discriminate.
    + intros body [H|[H|[H|[H|H]]]]; inversion H; reflexivity.
    + reflexivity.
Defined.

Lemma non_post_is_pure_example :
  handleRequest "GET" (mkURL []) None unreachable_world
  = (Returns html_response, unreachable_world)
  /\ handleRequest "PUT" (action_url "create") (Some (VObj ∅)) example_world
     = (Returns (error_response 405 "Method not allowed"), example_world).
Proof.
  split.
  - apply (non_post_is_pure "GET" (mkURL []) None unreachable_world).
    discriminate.
  - apply (non_post_is_pure "PUT" (action_url "create") (Some (VObj ∅))
             example_world).
    discriminate.
Defined.

Lemma unknown_action_400_example :
  handleRequest "POST" (action_url "pause") (Some (VStr "{}")) example_world
  = (Returns (error_response 400 "Invalid action"), example_world)
  /\ handleRequest "POST" (mkURL []) id_body example_world
     = (Returns (error_response 400 "Invalid action"), example_world).
Proof.
  split.
  - apply (unknown_action_400 (action_url "pause") (Some (VStr "{}"))
             example_world connected_example).
    + intros name Hname.
      repeat (apply elem_of_cons in Hname as [->|Hname]; [discriminate|]).
      now apply elem_of_nil in Hname.
    + intros text [= <-]. eexists. reflexivity.
  - apply (unknown_action_400 (mkURL []) id_body example_world
             connected_example).
    + intros name _. discriminate.
    + intros text H. discriminate H.
Defined.

Lemma nullish_body_rejects_example :
  exists msg,
    handleRequest "POST" (action_url "update") None example_world
    = (Throws (OtherError "TypeError" msg), example_world).
Proof.
  apply (nullish_body_rejects (action_url "update") None example_world "update"
           connected_example).
  - now left.
  - reflexivity.
  - repeat constructor.
Defined.

(** A fresh process while the store is down serves a create call and a
    state call: the first gets no answer, the second is answered 503 with
    the message of the refused connection. *)
Lemma store_down_then_fail_fast_example :
  exists w',
    serve example_posts unreachable_world
    = ([Pending;
        Returns (unavailable_response
                   (Some "connect ECONNREFUSED 127.0.0.1:6379"))], w')
    /\ attempts w' = 1%nat
    /\ redisClient w' = true
    /\ connected (on_redis_connect w').
Proof.
  destruct (store_down_then_fail_fast
              (mkRequest "POST" (action_url "create") (Some (VObj ∅)))
              [mkRequest "POST" (action_url "state") id_body]
              unreachable_world
              (Some "connect ECONNREFUSED 127.0.0.1:6379"))
    as (w' & Hserve & Hattempts & _ & _ & Hclient & _ & Hcon).
  - repeat split; reflexivity.
  - reflexivity.
  - repeat constructor.
  - exists w'. split; [exact Hserve|]. split; [exact Hattempts|].
    split; [exact Hclient|exact Hcon].
Defined.

Lemma operations_write_one_key_example :
  store (world_after (run (Update score_body)) created_world) !! "session:other"
  = store created_world !! "session:other".
Proof.
  apply (operations_write_one_key (Update score_body) created_world
           "session:other").
  intros H. vm_compute in H. discriminate H.
Defined.

Lemma response_statuses_example :
  exists text msg,
    Some (VStr "{") = Some (VStr text) /\ JSON_parse_text text = inl msg
    /\ error_response 500 "Unexpected end of JSON input"
       = error_response 500 msg.
Proof.
  assert (Hrun : handleRequest "POST" (action_url "update") (Some (VStr "{"))
                   example_world
                 = (Returns (error_response 500 "Unexpected end of JSON input"),
                    example_world)) by reflexivity.
  destruct (response_statuses "POST" (action_url "update") (Some (VStr "{"))
              example_world example_world
              (error_response 500 "Unexpected end of JSON input") Hrun)
    as [_ H500].
  apply H500. reflexivity.
Defined.

Lemma server_fields_are_server_owned_example :
  server_fields_ok (stamp 1700000000050 (initial_session 1700000000000)).
Proof.
  apply (server_fields_are_server_owned created_world
           (reachable_operation _ example_world Create
              (reachable_initial _ example_world eq_refl) I)
           (session_key (Some (VStr example_id)))).
  exact created_session.
Defined.

Lemma player_updates_commute_example :
  apply_update (sendUpdate_body example_player1)
    (apply_update (sendUpdate_body example_player2) (initial_session 0))
  = apply_update (sendUpdate_body example_player2)
      (apply_update (sendUpdate_body example_player1) (initial_session 0)).
Proof.
  destruct (player_updates_commute example_player1 example_player2
              (initial_session 0) eq_refl eq_refl) as (_ & _ & Hcomm).
  exact Hcomm.
Defined.

(** The client of player 1 after its third point: winner 1 is stored with
    the score 3.  The same client at 2 to 1: the winner stays [null], and so
    does the one stored. *)
Lemma player1_update_justifies_winner_example :
  (exists w' session',
     handleUpdate (sendUpdate_body (after_score_check example_player1))
       created_world
     = (Returns success_response, w')
     /\ stored w' (Some (VStr example_id)) = Some session'
     /\ session' !! "winner" = Some (VNum 1)
     /\ session' !! "p1Score" = Some (VNum 3)
     /\ winner_justified session')
  /\ (exists w' session',
       handleUpdate (sendUpdate_body (after_score_check example_leading))
         created_world
       = (Returns success_response, w')
       /\ stored w' (Some (VStr example_id)) = Some session'
       /\ session' !! "winner" = Some VNull
       /\ session' !! "p1Score" = Some (VNum 2)
       /\ winner_justified session').
Proof.
  split.
  - destruct (player1_update_justifies_winner example_player1 created_world
                (stamp 1700000000050 (initial_session 1700000000000))
                eq_refl connected_created created_session)
      as (w' & session' & Hrun & Hs & Hwin & Hp1 & _ & _ & _ & _ & Hj).
    exists w', session'. split; [exact Hrun|]. split; [exact Hs|].
    split; [exact Hwin|]. split; [exact Hp1|].
    apply Hj. left. vm_compute. discriminate.
  - destruct (player1_update_justifies_winner example_leading created_world
                (stamp 1700000000050 (initial_session 1700000000000))
                eq_refl connected_created created_session)
      as (w' & session' & Hrun & Hs & Hwin & Hp1 & _ & _ & _ & _ & Hj).
    exists w', session'. split; [exact Hrun|]. split; [exact Hs|].
    split; [exact Hwin|]. split; [exact Hp1|].
    apply Hj. right. right. reflexivity.
Defined.

Lemma match_opening_example :
  exists counted started w',
    serve (opening_requests example_id) opening_world
    = ([Returns (create_response example_id); Returns join_response;
        Returns success_response; Returns (state_response counted);
        Returns success_response; Returns (state_response started)], w')
    /\ counted !! "readyToStart" = Some (VBool true)
    /\ started !! "gameStarted" = Some (VBool true)
    /\ started !! "p2Connected" = Some (VBool true).
Proof.
  destruct (match_opening opening_world (conj eq_refl eq_refl))
    as (counted & started & w' & Hserve & _ & _ & Hready & _ & Hgs & _ & Hp2 & _).
  - discriminate.
  - vm_compute. discriminate.
  - exists counted, started, w'. repeat split; assumption.
Defined.

Lemma unanchored_countdown_never_resolves_example :
  handleState id_body (later 60000 created_world)
  = (Returns (state_response
                (stamp 1700000000050 (initial_session 1700000000000))),
     later 60000 created_world).
Proof.
  apply (unanchored_countdown_never_resolves id_body (later 60000 created_world)).
  - apply connected_later. exact connected_created.
  - reflexivity.
  - rewrite stored_later. exact created_session.
  - left. reflexivity.
Defined.

Lemma update_ball_group_example :
  exists (w' : World) (session' : gmap string value),
    handleUpdate ballX_only_body created_world = (Returns success_response, w')
    /\ session' !! "ballX" = Some (VNum 5)
    /\ session' !! "ballVelY" = None.
Proof.
  destruct (update_ball_group ballX_only_body created_world _
              connected_created eq_refl created_session)
    as (w' & session' & Hrun & _ & Hball).
  exists w', session'. split; [exact Hrun|].
  split.
  - destruct (Hball "ballX" ltac:(repeat constructor)) as (_ & Hfinite & _).
    now apply Hfinite.
  - destruct (Hball "ballVelY" ltac:(repeat constructor)) as (-> & _).
    reflexivity.
Defined.

End FurtherExamples.
